(** * ObstacleLayer of nav2_costmap_2d: the grid-update cycle

    A shallow embedding of [nav2_costmap_2d/plugins/obstacle_layer.cpp]:
    [updateBounds] (raytrace clearing, then marking, then the footprint
    bounds), [raytraceFreespace], [updateRaytraceBounds], the observation
    getters and [updateCosts].

    Numbers.  A C++ [double] is idealised as a real number of [R]: rounding,
    infinities and NaN are outside the model.  A division whose divisor is
    zero has no value in this model, so the ray clipping is written in the
    [option] monad and [None] records that such a division was attempted.
    An [unsigned int] cell coordinate or index is a [Z]; an [unsigned char]
    cost is a [Z].

    State.  The costmap array is a [list Z] updated by index; the four
    [double *] bounds of a cycle are a [Bounds] record that is passed in
    and returned. *)

From Stdlib Require Import Reals Lra Lia ZArith Zfloor.
From stdpp Require Import base list strings gmap.

Open Scope R_scope.

(** ** Numeric helpers *)

(** Comparison of doubles as a boolean. *)
Definition Rltb (a b : R) : bool := if Rlt_dec a b then true else false.
Definition Rleb (a b : R) : bool := if Rle_dec a b then true else false.

(** [x / y], with no value when [y] is zero. *)
Definition div (x y : R) : option R :=
  if Req_dec_T y 0 then None else Some (x / y).

(** [hypot] of <cmath>. *)
Definition hypot (dx dy : R) : R := sqrt (dx * dx + dy * dy).

(** ** Data model *)

(** A hit point of a cloud (fields x, y, z), and a sensor origin. *)
Record Point : Type := mkPoint { px : R; py : R; pz : R }.

(** [Observation]: origin_, cloud_, obstacle_range_, raytrace_range_. *)
Record Observation : Type := mkObservation {
  origin_ : Point;
  cloud_ : list Point;
  obstacle_range_ : R;
  raytrace_range_ : R
}.

(** What the layer reads of an [ObservationBuffer] under its lock:
    [getObservations] and [isCurrent]. *)
Record ObservationBuffer : Type := mkBuffer {
  getObservations : list Observation;
  isCurrent : bool
}.

(** The rectangle behind [double * min_x, min_y, max_x, max_y]. *)
Record Bounds : Type := mkBounds {
  min_x : R; min_y : R; max_x : R; max_y : R
}.

(** The [Costmap2D] part of the layer. *)
Record Costmap2D : Type := mkCostmap {
  size_x_ : Z;
  size_y_ : Z;
  resolution_ : R;
  origin_x_ : R;
  origin_y_ : R;
  costmap_ : list Z
}.

Definition with_costmap (g : Costmap2D) (c : list Z) : Costmap2D :=
  mkCostmap (size_x_ g) (size_y_ g) (resolution_ g) (origin_x_ g) (origin_y_ g) c.

(** Modelled from the spec: the cost constants of cost_values.hpp, which is
    not among the sources.  Costs are an unsigned char scale on which FREE is
    the lowest cost, LETHAL is above every numeric cost, and NO_INFORMATION
    is the marker of unknown space. *)
Definition FREE_SPACE : Z := 0.
Definition LETHAL_OBSTACLE : Z := 254.
Definition NO_INFORMATION : Z := 255.

(** ** Costmap2D and CostmapLayer operations used by the layer *)

(** Modelled from the spec: [Costmap2D::getIndex], not among the sources;
    index = row * size_x + column. *)
Definition getIndex (g : Costmap2D) (mx my : Z) : Z := (my * size_x_ g + mx)%Z.

(** Array write [costmap_[index] = v].  An index outside the array is
    undefined behaviour in the source; the model leaves the array as it is
    there. *)
Definition set_cell (c : list Z) (index : Z) (v : Z) : list Z :=
  if (index <? 0)%Z then c else <[Z.to_nat index := v]> c.

(** Array read [costmap_[index]]. *)
Definition cell_at (c : list Z) (index : Z) : option Z :=
  if (index <? 0)%Z then None else c !! Z.to_nat index.

(** Modelled from the spec: [Costmap2D::worldToMap], not among the sources;
    the world-to-cell conversion of a grid of fixed resolution and world
    origin, which fails outside the grid extents. *)
Definition worldToMap (g : Costmap2D) (wx wy : R) : option (Z * Z) :=
  if Rltb wx (origin_x_ g) || Rltb wy (origin_y_ g) then None
  else
    let mx := Zfloor ((wx - origin_x_ g) / resolution_ g) in
    let my := Zfloor ((wy - origin_y_ g) / resolution_ g) in
    if (mx <? size_x_ g)%Z && (my <? size_y_ g)%Z then Some (mx, my) else None.

(** Modelled from the spec: [Layer::touch], not among the sources; expands
    the rectangle to include (x, y). *)
Definition touch (x y : R) (b : Bounds) : Bounds :=
  mkBounds (Rmin x (min_x b)) (Rmin y (min_y b))
           (Rmax x (max_x b)) (Rmax y (max_y b)).

(** Rounding to the nearest integer. *)
Definition Zround (x : R) : Z := Zfloor (x + / 2).

(** Modelled from the spec: [Costmap2D::cellDistance], not among the
    sources; a world distance in cells: distance / resolution, rounded. *)
Definition cellDistance (g : Costmap2D) (world_dist : R) : Z :=
  Zround (world_dist / resolution_ g).

(** Modelled from the spec: [Costmap2D::raytraceLine] and its marker, not
    among the sources; an integer incremental line from (x0, y0) to
    (x1, y1), equivalent to Bresenham, that visits each cell along the path
    up to a maximum cell count.  [bresenham2D] makes [n] steps along the
    dominant axis [offset_a], moves along [offset_b] whenever the error term
    passes [abs_da], and visits the cell it ends on. *)
Definition move (c d : Z * Z) : Z * Z := ((c.1 + d.1)%Z, (c.2 + d.2)%Z).

Fixpoint bresenham2D (n : nat) (abs_da abs_db error_b : Z)
    (offset_a offset_b : Z * Z) (cell : Z * Z) : list (Z * Z) :=
  match n with
  | O => [cell]
  | S n' =>
      let cell_a := move cell offset_a in
      let error_b := (error_b + abs_db)%Z in
      if (abs_da <=? error_b)%Z
      then cell :: bresenham2D n' abs_da abs_db (error_b - abs_da)
                     offset_a offset_b (move cell_a offset_b)
      else cell :: bresenham2D n' abs_da abs_db error_b offset_a offset_b cell_a
  end.

(** The cells the line visits, in order. *)
Definition line_cells (x0 y0 x1 y1 max_length : Z) : list (Z * Z) :=
  let dx := (x1 - x0)%Z in
  let dy := (y1 - y0)%Z in
  let abs_dx := Z.abs dx in
  let abs_dy := Z.abs dy in
  if (abs_dy <=? abs_dx)%Z
  then bresenham2D (Z.to_nat (Z.min max_length abs_dx)) abs_dx abs_dy
         (abs_dx / 2) (Z.sgn dx, 0%Z) (0%Z, Z.sgn dy) (x0, y0)
  else bresenham2D (Z.to_nat (Z.min max_length abs_dy)) abs_dy abs_dx
         (abs_dy / 2) (0%Z, Z.sgn dy) (Z.sgn dx, 0%Z) (x0, y0).

(** [MarkCell marker(costmap_, value)]: the action [costmap_[offset] = value]. *)
Definition MarkCell (value : Z) (costmap : list Z) (offset : Z) : list Z :=
  set_cell costmap offset value.

Definition raytraceLine (at_ : list Z -> Z -> list Z) (g : Costmap2D)
    (x0 y0 x1 y1 max_length : Z) : Costmap2D :=
  with_costmap g
    (foldl (fun c cell => at_ c (getIndex g cell.1 cell.2)) (costmap_ g)
       (line_cells x0 y0 x1 y1 max_length)).

(** ** ObstacleLayer::updateRaytraceBounds

    When [full_distance] is zero so are [dx] and [dy], and [ex], [ey] are
    the origin whatever [scale] is. *)
Definition updateRaytraceBounds (ox oy wx wy range : R) (b : Bounds) : Bounds :=
  let dx := wx - ox in
  let dy := wy - oy in
  let full_distance := hypot dx dy in
  let scale := Rmin 1 (range / full_distance) in
  let ex := ox + dx * scale in
  let ey := oy + dy * scale in
  touch ex ey b.

(** ** ObstacleLayer::raytraceFreespace *)

(** The four clipping steps of the loop body, in the order of the source:
    against the map origin in x, then in y, then against the end of the map
    in x, then in y.  [a] and [b] are computed once from the hit point;
    each step reads the (wx, wy) left by the steps before it. *)
Definition clip_min_x (origin_x ox oy a b : R) (w : R * R) : option (R * R) :=
  if Rltb w.1 origin_x
  then t ← div (origin_x - ox) a; Some (origin_x, oy + b * t)
  else Some w.

Definition clip_min_y (origin_y ox oy a b : R) (w : R * R) : option (R * R) :=
  if Rltb w.2 origin_y
  then t ← div (origin_y - oy) b; Some (ox + a * t, origin_y)
  else Some w.

Definition clip_max_x (map_end_x ox oy a b : R) (w : R * R) : option (R * R) :=
  if Rltb map_end_x w.1
  then t ← div (map_end_x - ox) a; Some (map_end_x - 1 / 1000, oy + b * t)
  else Some w.

Definition clip_max_y (map_end_y ox oy a b : R) (w : R * R) : option (R * R) :=
  if Rltb map_end_y w.2
  then t ← div (map_end_y - oy) b; Some (ox + a * t, map_end_y - 1 / 1000)
  else Some w.

Definition clip_ray (origin_x origin_y map_end_x map_end_y ox oy wx wy : R)
    : option (R * R) :=
  let a := wx - ox in
  let b := wy - oy in
  w ← clip_min_x origin_x ox oy a b (wx, wy);
  w ← clip_min_y origin_y ox oy a b w;
  w ← clip_max_x map_end_x ox oy a b w;
  clip_max_y map_end_y ox oy a b w.

Definition map_end_x (g : Costmap2D) : R := origin_x_ g + IZR (size_x_ g) * resolution_ g.
Definition map_end_y (g : Costmap2D) : R := origin_y_ g + IZR (size_y_ g) * resolution_ g.

(** The body of the loop over the cloud.  A ray whose clipping would divide
    by zero has no endpoint in this model and is passed over like one whose
    endpoint fails [worldToMap]; [clip_ray_total] shows that the loop never
    meets one. *)
Definition raytrace_point (ox oy : R) (x0 y0 : Z)
    (origin_x origin_y map_end_x map_end_y raytrace_range : R)
    (s : Costmap2D * Bounds) (p : Point) : Costmap2D * Bounds :=
  match clip_ray origin_x origin_y map_end_x map_end_y ox oy (px p) (py p) with
  | None => s
  | Some (wx, wy) =>
      match worldToMap s.1 wx wy with
      | None => s
      | Some (x1, y1) =>
          let cell_raytrace_range := cellDistance s.1 raytrace_range in
          (raytraceLine (MarkCell FREE_SPACE) s.1 x0 y0 x1 y1 cell_raytrace_range,
           updateRaytraceBounds ox oy wx wy raytrace_range s.2)
      end
  end.

Definition raytraceFreespace (clearing_observation : Observation)
    (s : Costmap2D * Bounds) : Costmap2D * Bounds :=
  let ox := px (origin_ clearing_observation) in
  let oy := py (origin_ clearing_observation) in
  match worldToMap s.1 ox oy with
  | None => s
  | Some (x0, y0) =>
      let origin_x := origin_x_ s.1 in
      let origin_y := origin_y_ s.1 in
      foldl (raytrace_point ox oy x0 y0 origin_x origin_y
               (map_end_x s.1) (map_end_y s.1)
               (raytrace_range_ clearing_observation))
            (s.1, touch ox oy s.2) (cloud_ clearing_observation)
  end.

(** ** The marking loop of ObstacleLayer::updateBounds *)

Definition sq_dist (obs : Observation) (p : Point) : R :=
  (px p - px (origin_ obs)) * (px p - px (origin_ obs))
  + (py p - py (origin_ obs)) * (py p - py (origin_ obs))
  + (pz p - pz (origin_ obs)) * (pz p - pz (origin_ obs)).

Definition mark_point (max_obstacle_height : R) (obs : Observation)
    (s : Costmap2D * Bounds) (p : Point) : Costmap2D * Bounds :=
  let sq_obstacle_range := obstacle_range_ obs * obstacle_range_ obs in
  if Rltb max_obstacle_height (pz p) then s
  else if Rleb sq_obstacle_range (sq_dist obs p) then s
  else
    match worldToMap s.1 (px p) (py p) with
    | None => s
    | Some (mx, my) =>
        let index := getIndex s.1 mx my in
        (with_costmap s.1 (set_cell (costmap_ s.1) index LETHAL_OBSTACLE),
         touch (px p) (py p) s.2)
    end.

Definition mark_observation (max_obstacle_height : R)
    (s : Costmap2D * Bounds) (obs : Observation) : Costmap2D * Bounds :=
  foldl (mark_point max_obstacle_height obs) s (cloud_ obs).

(** ** The layer *)

(** The members of [ObstacleLayer] (and of its bases [CostmapLayer] and
    [Layer]) that the update cycle reads or writes. *)
Record ObstacleLayer : Type := mkLayer {
  grid : Costmap2D;
  enabled_ : bool;
  rolling_window_ : bool;
  footprint_clearing_enabled_ : bool;
  max_obstacle_height_ : R;
  combination_method_ : Z;
  marking_buffers_ : list ObservationBuffer;
  clearing_buffers_ : list ObservationBuffer;
  static_marking_observations_ : list Observation;
  static_clearing_observations_ : list Observation;
  current_ : bool;
  getFootprint : list (R * R);
  transformed_footprint_ : list (R * R);
  extra_bounds_ : option Bounds
}.

Definition with_grid (L : ObstacleLayer) (g : Costmap2D) : ObstacleLayer :=
  mkLayer g (enabled_ L) (rolling_window_ L) (footprint_clearing_enabled_ L)
    (max_obstacle_height_ L) (combination_method_ L) (marking_buffers_ L)
    (clearing_buffers_ L) (static_marking_observations_ L)
    (static_clearing_observations_ L) (current_ L) (getFootprint L)
    (transformed_footprint_ L) (extra_bounds_ L).

Definition with_current (L : ObstacleLayer) (c : bool) : ObstacleLayer :=
  mkLayer (grid L) (enabled_ L) (rolling_window_ L) (footprint_clearing_enabled_ L)
    (max_obstacle_height_ L) (combination_method_ L) (marking_buffers_ L)
    (clearing_buffers_ L) (static_marking_observations_ L)
    (static_clearing_observations_ L) c (getFootprint L)
    (transformed_footprint_ L) (extra_bounds_ L).

Definition with_transformed_footprint (L : ObstacleLayer) (f : list (R * R))
    : ObstacleLayer :=
  mkLayer (grid L) (enabled_ L) (rolling_window_ L) (footprint_clearing_enabled_ L)
    (max_obstacle_height_ L) (combination_method_ L) (marking_buffers_ L)
    (clearing_buffers_ L) (static_marking_observations_ L)
    (static_clearing_observations_ L) (current_ L) (getFootprint L)
    f (extra_bounds_ L).

Definition with_extra_bounds (L : ObstacleLayer) (e : option Bounds)
    : ObstacleLayer :=
  mkLayer (grid L) (enabled_ L) (rolling_window_ L) (footprint_clearing_enabled_ L)
    (max_obstacle_height_ L) (combination_method_ L) (marking_buffers_ L)
    (clearing_buffers_ L) (static_marking_observations_ L)
    (static_clearing_observations_ L) (current_ L) (getFootprint L)
    (transformed_footprint_ L) e.

(** Functions of [Costmap2D] and of the footprint helpers that the layer
    calls, that are not among the sources and that the spec does not
    describe far enough to write down: the rolling-window origin shift, the
    size of the map in meters, the transformation of the footprint by the
    robot pose and the filling of a convex polygon. *)
Class Costmap2DOps : Type := {
  updateOrigin : Costmap2D -> R -> R -> Costmap2D;
  getSizeInMetersX : Costmap2D -> R;
  getSizeInMetersY : Costmap2D -> R;
  transformFootprint : R -> R -> R -> list (R * R) -> list (R * R);
  setConvexPolygonCost : Costmap2D -> list (R * R) -> Z -> Costmap2D
}.

(** Modelled from the spec: [CostmapLayer::useExtraBounds], not among the
    sources; the seed bound handed over by other layers, when there is one,
    is touched once into the rectangle. *)
Definition useExtraBounds (L : ObstacleLayer) (b : Bounds) : ObstacleLayer * Bounds :=
  match extra_bounds_ L with
  | None => (L, b)
  | Some e =>
      (with_extra_bounds L None,
       touch (max_x e) (max_y e) (touch (min_x e) (min_y e) b))
  end.

(** ** ObstacleLayer::getMarkingObservations, getClearingObservations

    The vector passed by reference is the argument and the first result. *)
Definition getMarkingObservations (L : ObstacleLayer)
    (marking_observations : list Observation) : list Observation * bool :=
  let r := foldl (fun acc buf => (acc.1 ++ getObservations buf, isCurrent buf && acc.2))
                 (marking_observations, true) (marking_buffers_ L) in
  (r.1 ++ static_marking_observations_ L, r.2).

Definition getClearingObservations (L : ObstacleLayer)
    (clearing_observations : list Observation) : list Observation * bool :=
  let r := foldl (fun acc buf => (acc.1 ++ getObservations buf, isCurrent buf && acc.2))
                 (clearing_observations, true) (clearing_buffers_ L) in
  (r.1 ++ static_clearing_observations_ L, r.2).

(** [current && f(v)] of C++: [f] is called, and fills [v], only when
    [current] is true. *)
Definition and_then (current : bool)
    (f : list Observation -> list Observation * bool)
    (v : list Observation) : list Observation * bool :=
  if current then f v else (v, false).

(** ** ObstacleLayer::updateFootprint *)
Definition updateFootprint `{Costmap2DOps} (L : ObstacleLayer)
    (robot_x robot_y robot_yaw : R) (b : Bounds) : ObstacleLayer * Bounds :=
  if negb (footprint_clearing_enabled_ L) then (L, b)
  else
    let tf := transformFootprint robot_x robot_y robot_yaw (getFootprint L) in
    (with_transformed_footprint L tf, foldl (fun b p => touch p.1 p.2 b) b tf).

(** ** ObstacleLayer::updateBounds *)

(** The raytracing loop and the marking loop, on the grid and the bounds. *)
Definition clear_then_mark (max_obstacle_height : R)
    (clearing_observations observations : list Observation)
    (s : Costmap2D * Bounds) : Costmap2D * Bounds :=
  let s := foldl (fun s obs => raytraceFreespace obs s) s clearing_observations in
  foldl (mark_observation max_obstacle_height) s observations.

(** The first statement: a rolling costmap is re-centred on the robot. *)
Definition shift_origin `{Costmap2DOps} (L : ObstacleLayer)
    (robot_x robot_y : R) : ObstacleLayer :=
  if rolling_window_ L
  then with_grid L (updateOrigin (grid L)
                      (robot_x - getSizeInMetersX (grid L) / 2)
                      (robot_y - getSizeInMetersY (grid L) / 2))
  else L.

Definition updateBounds `{Costmap2DOps} (L : ObstacleLayer)
    (robot_x robot_y robot_yaw : R) (b : Bounds) : ObstacleLayer * Bounds :=
  let L := shift_origin L robot_x robot_y in
  if negb (enabled_ L) then (L, b)
  else
    let '(L, b) := useExtraBounds L b in
    let current := true in
    let '(observations, current) :=
      and_then current (getMarkingObservations L) [] in
    let '(clearing_observations, current) :=
      and_then current (getClearingObservations L) [] in
    let L := with_current L current in
    let '(g, b) :=
      clear_then_mark (max_obstacle_height_ L) clearing_observations
        observations (grid L, b) in
    updateFootprint (with_grid L g) robot_x robot_y robot_yaw b.

(** ** ObstacleLayer::updateCosts *)

(** The cells (i, j) with min_i <= i < max_i and min_j <= j < max_j, row by
    row. *)
Definition rect_cells (min_i min_j max_i max_j : Z) : list (Z * Z) :=
  j ← seqZ min_j (max_j - min_j);
  i ← seqZ min_i (max_i - min_i);
  [(i, j)].

(** Modelled from the spec: the order of costs of the Maximum policy:
    NO_INFORMATION below FREE, below the numeric costs, below LETHAL. *)
Definition cost_rank (c : Z) : Z :=
  if (c =? NO_INFORMATION)%Z then (-1)%Z else c.

Definition cost_max (a b : Z) : Z :=
  if (cost_rank a <? cost_rank b)%Z then b else a.

(** One cell of a combination: the master cell (i, j) becomes [f] of the
    master cell and the local cell. *)
Definition combine_cell (f : Z -> Z -> Z) (local master : Costmap2D)
    (m : list Z) (cell : Z * Z) : list Z :=
  match cell_at m (getIndex master cell.1 cell.2),
        cell_at (costmap_ local) (getIndex local cell.1 cell.2) with
  | Some old_cost, Some cost => set_cell m (getIndex master cell.1 cell.2) (f old_cost cost)
  | _, _ => m
  end.

(** Modelled from the spec: [CostmapLayer::updateWithOverwrite], not among
    the sources; inside the cell rectangle, master cell <- local cell,
    unconditionally. *)
Definition updateWithOverwrite (local master_grid : Costmap2D)
    (min_i min_j max_i max_j : Z) : Costmap2D :=
  with_costmap master_grid
    (foldl (combine_cell (fun _ cost => cost) local master_grid)
       (costmap_ master_grid) (rect_cells min_i min_j max_i max_j)).

(** Modelled from the spec: [CostmapLayer::updateWithMax], not among the
    sources; inside the cell rectangle, master cell <- max (master cell,
    local cell) in the order of [cost_rank]. *)
Definition updateWithMax (local master_grid : Costmap2D)
    (min_i min_j max_i max_j : Z) : Costmap2D :=
  with_costmap master_grid
    (foldl (combine_cell cost_max local master_grid)
       (costmap_ master_grid) (rect_cells min_i min_j max_i max_j)).

Definition updateCosts `{Costmap2DOps} (L : ObstacleLayer)
    (master_grid : Costmap2D) (min_i min_j max_i max_j : Z)
    : ObstacleLayer * Costmap2D :=
  if negb (enabled_ L) then (L, master_grid)
  else
    let L :=
      if footprint_clearing_enabled_ L
      then with_grid L (setConvexPolygonCost (grid L) (transformed_footprint_ L) FREE_SPACE)
      else L in
    match combination_method_ L with
    | 0%Z => (L, updateWithOverwrite (grid L) master_grid min_i min_j max_i max_j)
    | 1%Z => (L, updateWithMax (grid L) master_grid min_i min_j max_i max_j)
    | _ => (L, master_grid)
    end.

(** ** Concrete inputs *)

(** A stand-in for the functions of [Costmap2DOps], to run the cycle on
    concrete inputs: the origin shift moves the origin and keeps the cells,
    the footprint is rotated and translated by the pose, and the polygon
    fill is left out. *)
Definition sample_ops : Costmap2DOps := {|
  updateOrigin g new_origin_x new_origin_y :=
    mkCostmap (size_x_ g) (size_y_ g) (resolution_ g) new_origin_x new_origin_y (costmap_ g);
  getSizeInMetersX g := IZR (size_x_ g) * resolution_ g;
  getSizeInMetersY g := IZR (size_y_ g) * resolution_ g;
  transformFootprint x y yaw footprint :=
    map (fun p => (x + (p.1 * cos yaw - p.2 * sin yaw),
                   y + (p.1 * sin yaw + p.2 * cos yaw))) footprint;
  setConvexPolygonCost g _ _ := g
|}.

(** A 10 x 10 grid of resolution 1 with its origin at (0, 0), every cell
    holding [v]. *)
Definition grid10 (v : Z) : Costmap2D :=
  mkCostmap 10 10 1 0 0 (replicate 100 v).

(** A sensor at (5, 5, 0) with one hit point and both ranges 100. *)
Definition obs_at_5_5 (hit : Point) : Observation :=
  mkObservation (mkPoint 5 5 0) [hit] 100 100.

Definition empty_bounds : Bounds := mkBounds 5 5 5 5.

(** A layer on [grid10] with the given buffers and no static observation. *)
Definition layer10 (v : Z) (enabled : bool)
    (marking_buffers clearing_buffers : list ObservationBuffer) : ObstacleLayer :=
  mkLayer (grid10 v) enabled false false 2 1 marking_buffers clearing_buffers
    [] [] true [] [] None.

(** The clearing observation of the example of the spec: a sensor at
    (5, 5), a hit point at (9.9, 5) and a raytrace range of 10. *)
Definition obs_spec_example : Observation :=
  mkObservation (mkPoint 5 5 0) [mkPoint (99 / 10) 5 0] 10 10.

(** A disabled layer on a rolling costmap, with a marking buffer and a
    clearing buffer that hold an observation each. *)
Definition disabled_rolling_layer : ObstacleLayer :=
  mkLayer (grid10 0) false true false 2 1
    [mkBuffer [obs_at_5_5 (mkPoint 7 5 0)] true]
    [mkBuffer [obs_at_5_5 (mkPoint 8 5 0)] true]
    [] [] true [] [] None.


(** An enabled layer whose only marking buffer is stale and empty, and
    whose clearing buffer is current and holds the sweep of that row. *)
Definition stale_marking_layer : ObstacleLayer :=
  layer10 254 true
    [mkBuffer [] false]
    [mkBuffer [obs_at_5_5 (mkPoint 9 5 0)] true].

(** An enabled layer on [grid10] full of LETHAL cells, with the given
    combination method. *)
Definition layer_with_method (method : Z) : ObstacleLayer :=
  mkLayer (grid10 254) true false false 2 method [] [] [] [] true [] [] None.

(** A sensor outside of [grid10]. *)
Definition obs_off_grid : Observation :=
  mkObservation (mkPoint 20 5 0) [mkPoint 5 5 0] 100 100.

(** ** Predicates of the statements *)

(** [obs] with another cloud. *)
Definition with_cloud (obs : Observation) (cloud : list Point) : Observation :=
  mkObservation (origin_ obs) cloud (obstacle_range_ obs) (raytrace_range_ obs).

(** Two grids of the same geometry: they differ in the values of their
    cells at most. *)
Definition same_geometry (g g' : Costmap2D) : Prop :=
  size_x_ g = size_x_ g' /\ size_y_ g = size_y_ g' /\
  resolution_ g = resolution_ g' /\
  origin_x_ g = origin_x_ g' /\ origin_y_ g = origin_y_ g' /\
  length (costmap_ g) = length (costmap_ g').

(** A grid whose array has [size_x_ * size_y_] cells of positive size. *)
Definition well_formed (g : Costmap2D) : Prop :=
  (0 <= size_x_ g)%Z /\ (0 <= size_y_ g)%Z /\ 0 < resolution_ g /\
  length (costmap_ g) = Z.to_nat (size_x_ g * size_y_ g).

(** The cell rectangle of a cycle lies in the columns and rows of [g]. *)
Definition rect_in (g : Costmap2D) (min_i min_j max_i max_j : Z) : Prop :=
  (0 <= min_i)%Z /\ (max_i <= size_x_ g)%Z /\ (0 <= min_j)%Z /\ (max_j <= size_y_ g)%Z.

(** The two offsets of a line move a cell by one column and one row at
    most, also when they are taken together. *)
Definition unit_steps (offset_a offset_b : Z * Z) : Prop :=
  (Z.abs offset_a.1 <= 1 /\ Z.abs offset_a.2 <= 1 /\
   Z.abs (offset_a.1 + offset_b.1) <= 1 /\ Z.abs (offset_a.2 + offset_b.2) <= 1)%Z.

(** The cells of a traced line of a hit point of [obs], whose origin is in
    cell (x0, y0): [cell] is the k-th cell of the line from (x0, y0) to the
    cell of the clipped endpoint of a ray, capped at the cell distance of
    the raytrace range, for a k that is no more than the range divided by
    the resolution, rounded. *)
Definition on_capped_line (g : Costmap2D) (obs : Observation) (x0 y0 : Z)
    (cell : Z * Z) : Prop :=
  exists p wx wy x1 y1 k,
    p ∈ cloud_ obs
    /\ clip_ray (origin_x_ g) (origin_y_ g) (map_end_x g) (map_end_y g)
         (px (origin_ obs)) (py (origin_ obs)) (px p) (py p) = Some (wx, wy)
    /\ worldToMap g wx wy = Some (x1, y1)
    /\ line_cells x0 y0 x1 y1 (cellDistance g (raytrace_range_ obs)) !! k = Some cell
    /\ (Z.of_nat k <= Z.max 0 (Zround (raytrace_range_ obs / resolution_ g)))%Z.

(** The number of cells between two cells, along the axis on which they
    are farthest apart. *)
Definition cell_gap (c d : Z * Z) : Z :=
  Z.max (Z.abs (c.1 - d.1)) (Z.abs (c.2 - d.2)).

(** The endpoint that the spec describes for the bounds update of a ray:
    the hit point as it came from the cloud, not clipped, scaled down to
    [range] from the origin when its distance to the origin exceeds
    [range]. *)
Definition spec_scaled_endpoint (ox oy hx hy range : R) : R * R :=
  let distance := hypot (hx - ox) (hy - oy) in
  if Rltb range distance
  then (ox + (hx - ox) * (range / distance), oy + (hy - oy) * (range / distance))
  else (hx, hy).

(** [w] is the point of parameter [t] on the ray from (ox, oy) along
    (a, b), between the origin and the hit point. *)
Definition on_ray (ox oy a b t : R) (w : R * R) : Prop :=
  0 <= t <= 1 /\ w.1 = ox + a * t /\ w.2 = oy + b * t.

(** [b'] contains [b]. *)
Definition contains (b' b : Bounds) : Prop :=
  min_x b' <= min_x b /\ min_y b' <= min_y b /\
  max_x b <= max_x b' /\ max_y b <= max_y b'.

(** (x, y) lies in [b]. *)
Definition inside (x y : R) (b : Bounds) : Prop :=
  min_x b <= x <= max_x b /\ min_y b <= y <= max_y b.

(** ** Static observations *)

Definition with_static_marking (L : ObstacleLayer) (l : list Observation)
    : ObstacleLayer :=
  mkLayer (grid L) (enabled_ L) (rolling_window_ L) (footprint_clearing_enabled_ L)
    (max_obstacle_height_ L) (combination_method_ L) (marking_buffers_ L)
    (clearing_buffers_ L) l
    (static_clearing_observations_ L) (current_ L) (getFootprint L)
    (transformed_footprint_ L) (extra_bounds_ L).

Definition with_static_clearing (L : ObstacleLayer) (l : list Observation)
    : ObstacleLayer :=
  mkLayer (grid L) (enabled_ L) (rolling_window_ L) (footprint_clearing_enabled_ L)
    (max_obstacle_height_ L) (combination_method_ L) (marking_buffers_ L)
    (clearing_buffers_ L) (static_marking_observations_ L)
    l (current_ L) (getFootprint L)
    (transformed_footprint_ L) (extra_bounds_ L).

(** ObstacleLayer::addStaticObservation: [push_back] on the lists that the
    flags name. *)
Definition addStaticObservation (L : ObstacleLayer) (obs : Observation)
    (marking clearing : bool) : ObstacleLayer :=
  let L :=
    if marking
    then with_static_marking L (static_marking_observations_ L ++ [obs])
    else L in
  if clearing
  then with_static_clearing L (static_clearing_observations_ L ++ [obs])
  else L.

(** ObstacleLayer::clearStaticObservations: [clear] on the lists that the
    flags name. *)
Definition clearStaticObservations (L : ObstacleLayer)
    (marking clearing : bool) : ObstacleLayer :=
  let L := if marking then with_static_marking L [] else L in
  if clearing then with_static_clearing L [] else L.

(** An enabled layer on [grid10] whose only marking buffer is stale and
    empty, and that has no clearing buffer. *)
Definition stale_layer : ObstacleLayer :=
  layer10 0 true [mkBuffer [] false] [].

(** An enabled layer on [grid10] that clears a triangular footprint, and the
    same layer with footprint clearing off and a footprint left over from
    an earlier cycle. *)
Definition footprint_layer : ObstacleLayer :=
  mkLayer (grid10 0) true false true 2 1 [] [] [] [] true
    [(1, 0); (0, 1); (-1, 0)] [] None.

Definition no_footprint_layer : ObstacleLayer :=
  mkLayer (grid10 0) true false false 2 1 [] [] [] [] true
    [(1, 0); (0, 1); (-1, 0)] [(7, 7)] None.

(** ** What the two loops of updateBounds write and touch *)

(** [costmap_[index] = v] for each index, in order. *)
Definition write_all (v : Z) (c : list Z) (indices : list Z) : list Z :=
  foldl (fun c index => set_cell c index v) c indices.

(** [touch] of each point, in order. *)
Definition touch_all (b : Bounds) (points : list (R * R)) : Bounds :=
  foldl (fun b p => touch p.1 p.2 b) b points.

(** The endpoint that [updateRaytraceBounds] touches. *)
Definition raytrace_endpoint (ox oy wx wy range : R) : R * R :=
  let dx := wx - ox in
  let dy := wy - oy in
  let scale := Rmin 1 (range / hypot dx dy) in
  (ox + dx * scale, oy + dy * scale).

(** What the marking loop does for a point of an observation, on a grid of
    the geometry of [g]: the index that it writes and the point that it
    touches, or nothing when the point is too high, too far or off the
    grid. *)
Definition mark_effect (g : Costmap2D) (h : R) (obs : Observation) (p : Point)
    : option (Z * (R * R)) :=
  if Rltb h (pz p) then None
  else if Rleb (obstacle_range_ obs * obstacle_range_ obs) (sq_dist obs p) then None
  else
    match worldToMap g (px p) (py p) with
    | None => None
    | Some (mx, my) => Some (getIndex g mx my, (px p, py p))
    end.

(** What the raytracing loop does for a hit point of an observation whose
    origin is in cell (x0, y0): the indices of the line that it writes and
    the point that it touches, or nothing when the ray is skipped. *)
Definition ray_effect (g : Costmap2D) (obs : Observation) (x0 y0 : Z) (p : Point)
    : option (list Z * (R * R)) :=
  let ox := px (origin_ obs) in
  let oy := py (origin_ obs) in
  match clip_ray (origin_x_ g) (origin_y_ g) (map_end_x g) (map_end_y g)
          ox oy (px p) (py p) with
  | None => None
  | Some (wx, wy) =>
      match worldToMap g wx wy with
      | None => None
      | Some (x1, y1) =>
          Some ((fun cell => getIndex g cell.1 cell.2)
                  <$> line_cells x0 y0 x1 y1 (cellDistance g (raytrace_range_ obs)),
                raytrace_endpoint ox oy wx wy (raytrace_range_ obs))
      end
  end.

(** The indices that the marking loop writes for a list of observations,
    and the points that it touches. *)
Definition marked_indices (g : Costmap2D) (h : R) (observations : list Observation)
    : list Z :=
  obs ← observations; omap (fun p => fst <$> mark_effect g h obs p) (cloud_ obs).

Definition marked_points (g : Costmap2D) (h : R) (observations : list Observation)
    : list (R * R) :=
  obs ← observations; omap (fun p => snd <$> mark_effect g h obs p) (cloud_ obs).

(** The indices that the raytracing loop writes for a list of observations,
    and the points that it touches: for an observation whose origin is on
    the grid, the origin and then the endpoint of each ray that is traced. *)
Definition traced_indices (g : Costmap2D) (observations : list Observation)
    : list Z :=
  obs ← observations;
  match worldToMap g (px (origin_ obs)) (py (origin_ obs)) with
  | None => []
  | Some (x0, y0) =>
      p ← cloud_ obs; from_option fst [] (ray_effect g obs x0 y0 p)
  end.

Definition traced_points (g : Costmap2D) (observations : list Observation)
    : list (R * R) :=
  obs ← observations;
  match worldToMap g (px (origin_ obs)) (py (origin_ obs)) with
  | None => []
  | Some (x0, y0) =>
      (px (origin_ obs), py (origin_ obs))
      :: omap (fun p => snd <$> ray_effect g obs x0 y0 p) (cloud_ obs)
  end.

(** Writes of [v] and touches on a state of the loops. *)
Definition apply_writes (v : Z) (s : Costmap2D * Bounds)
    (indices : list Z) (points : list (R * R)) : Costmap2D * Bounds :=
  (with_costmap s.1 (write_all v (costmap_ s.1) indices), touch_all s.2 points).

(** [index] is the cell of a point of the marking observations that passes
    the tests of the marking loop on a grid of the geometry of [g]. *)
Definition marked (g : Costmap2D) (h : R) (observations : list Observation)
    (index : Z) : Prop :=
  exists obs p mx my,
    obs ∈ observations /\ p ∈ cloud_ obs
    /\ pz p <= h
    /\ sq_dist obs p < obstacle_range_ obs * obstacle_range_ obs
    /\ worldToMap g (px p) (py p) = Some (mx, my)
    /\ getIndex g mx my = index.

(** [index] is a cell of the line that the raytracing loop traces for a hit
    point of the clearing observations: the origin of the observation and
    the clipped endpoint of the ray convert to cells, and the cell is one of
    the line between them, capped at the raytrace range. *)
Definition traced (g : Costmap2D) (observations : list Observation)
    (index : Z) : Prop :=
  exists obs x0 y0 p wx wy x1 y1 cell,
    obs ∈ observations
    /\ worldToMap g (px (origin_ obs)) (py (origin_ obs)) = Some (x0, y0)
    /\ p ∈ cloud_ obs
    /\ clip_ray (origin_x_ g) (origin_y_ g) (map_end_x g) (map_end_y g)
         (px (origin_ obs)) (py (origin_ obs)) (px p) (py p) = Some (wx, wy)
    /\ worldToMap g wx wy = Some (x1, y1)
    /\ cell ∈ line_cells x0 y0 x1 y1 (cellDistance g (raytrace_range_ obs))
    /\ getIndex g cell.1 cell.2 = index.

(** A sensor at (5, 5) with two hit points, (9, 5) and (5, 9), and both
    ranges 100. *)
Definition obs_two_points : Observation :=
  mkObservation (mkPoint 5 5 0) [mkPoint 9 5 0; mkPoint 5 9 0] 100 100.

(** A point of the closed rectangle of the map. *)
Definition in_map (g : Costmap2D) (p : R * R) : Prop :=
  origin_x_ g <= p.1 <= map_end_x g /\ origin_y_ g <= p.2 <= map_end_y g.

(** [b'] is [b] grown by points of the map: it contains [b] and reaches no
    farther than [b] and the rectangle of the map do. *)
Definition grown_within_map (g : Costmap2D) (b b' : Bounds) : Prop :=
  Rmin (min_x b) (origin_x_ g) <= min_x b' <= min_x b
  /\ Rmin (min_y b) (origin_y_ g) <= min_y b' <= min_y b
  /\ max_x b <= max_x b' <= Rmax (max_x b) (map_end_x g)
  /\ max_y b <= max_y b' <= Rmax (max_y b) (map_end_y g).



(** ** The fill of the footprint polygon *)










(** A sensor at (5, 5) with a hit point at (9, 5) and a raytrace range of
    2. *)
Definition obs_short_range : Observation :=
  mkObservation (mkPoint 5 5 0) [mkPoint 9 5 0] 100 2.

(** ** Laser scans and the callbacks *)

(** A [float] of a scan: a finite value, an infinity or a NaN. *)
Inductive Float : Type :=
  | Finite (r : R)
  | PosInf
  | NegInf
  | NaN.

(** [std::isfinite]. *)
Definition isfinite (f : Float) : bool :=
  match f with Finite _ => true | _ => false end.

(** [f > 0], which is false on a NaN. *)
Definition positive (f : Float) : bool :=
  match f with
  | Finite r => Rltb 0 r
  | PosInf => true
  | NegInf | NaN => false
  end.

(** [f - e] for a finite [e]. *)
Definition fminus (f : Float) (e : R) : Float :=
  match f with Finite r => Finite (r - e) | _ => f end.

(** What the layer reads of a [sensor_msgs::msg::LaserScan]: its ranges and
    its maximum range.  The other fields are copied along and not read. *)
Record LaserScan : Type := mkScan {
  ranges : list Float;
  range_max : Float
}.

(** The loop of ObstacleLayer::laserScanValidInfCallback over the indices
    of the ranges of the copied message. *)
Definition filter_inf_step (epsilon : R) (message : LaserScan) (i : nat) : LaserScan :=
  match ranges message !! i with
  | None => message
  | Some range =>
      if negb (isfinite range) && positive range
      then mkScan (<[i := fminus (range_max message) epsilon]> (ranges message))
             (range_max message)
      else message
  end.

Definition filter_inf (raw_message : LaserScan) : LaserScan :=
  let epsilon := 1 / 10000 in
  foldl (filter_inf_step epsilon) raw_message (seq 0 (length (ranges raw_message))).

(** The projection of a scan into a cloud and the buffer of observations,
    which are not among the sources: [transformLaserScanToPointCloud] may
    throw a [tf2::TransformException], which is [None]. *)
Class ScanOps : Type := {
  Buffer : Type;
  transformLaserScanToPointCloud : LaserScan -> option (list Point);
  projectLaser : LaserScan -> list Point;
  bufferCloud : Buffer -> list Point -> Buffer
}.

(** ObstacleLayer::laserScanCallback: the scan is projected with the
    transform, or without it when the transform throws, and the cloud is
    buffered.  The lock that is held around [bufferCloud] is not modelled. *)
Definition laserScanCallback `{ScanOps} (message : LaserScan) (buffer : Buffer)
    : Buffer :=
  let cloud :=
    match transformLaserScanToPointCloud message with
    | Some cloud => cloud
    | None => projectLaser message
    end in
  bufferCloud buffer cloud.

(** ObstacleLayer::laserScanValidInfCallback. *)
Definition laserScanValidInfCallback `{ScanOps} (raw_message : LaserScan)
    (buffer : Buffer) : Buffer :=
  let message := filter_inf raw_message in
  let cloud :=
    match transformLaserScanToPointCloud message with
    | Some cloud => cloud
    | None => projectLaser message
    end in
  bufferCloud buffer cloud.

(** ObstacleLayer::pointCloud2Callback. *)
Definition pointCloud2Callback `{ScanOps} (message : list Point) (buffer : Buffer)
    : Buffer :=
  bufferCloud buffer message.

(** What the filter of infinities makes of a range. *)
Definition replace_inf (message : LaserScan) (range : Float) : Float :=
  match range with
  | PosInf => fminus (range_max message) (1 / 10000)
  | _ => range
  end.

(** A scan with a maximum range of 30 and a range of each kind. *)
Definition sample_scan : LaserScan :=
  mkScan [Finite 1; PosInf; NegInf; NaN; Finite 0; PosInf] (Finite 30).

(** A stand-in for [ScanOps]: a buffer is the list of the clouds it was
    given, the transform throws on a scan with no range, and the
    projections put a range r at (r, 0, 0). *)
Definition sample_scan_ops : ScanOps := {|
  Buffer := list (list Point);
  transformLaserScanToPointCloud message :=
    match ranges message with
    | [] => None
    | _ => Some (omap (fun f => match f with
                               | Finite r => Some (mkPoint r 0 0)
                               | _ => None
                               end) (ranges message))
    end;
  projectLaser message := [];
  bufferCloud buffer cloud := buffer ++ [cloud]
|}.

(** ** ObstacleLayer::onInitialize *)

Module Init.

(** The parameters that were given a value from outside, by type.  A
    parameter that the layer declares and then gets has the value given from
    outside when there is one, and the default of its declaration
    otherwise. *)
Record Overrides : Type := mkOverrides {
  bools : gmap string bool;
  doubles : gmap string R;
  strings : gmap string string;
  ints : gmap string Z
}.

Definition declared_bool (o : Overrides) (name : string) (value : bool) : bool :=
  default value (bools o !! name).
Definition declared_double (o : Overrides) (name : string) (value : R) : R :=
  default value (doubles o !! name).
Definition declared_string (o : Overrides) (name : string) (value : string) : string :=
  default value (strings o !! name).
Definition declared_int (o : Overrides) (name : string) (value : Z) : Z :=
  default value (ints o !! name).

(** The arguments of the constructor of an [ObservationBuffer]. *)
Record BufferArgs : Type := mkBufferArgs {
  buffer_topic : string;
  observation_keep_time : R;
  expected_update_rate : R;
  min_obstacle_height : R;
  max_obstacle_height : R;
  obstacle_range : R;
  raytrace_range : R;
  buffer_global_frame : string;
  buffer_sensor_frame : string;
  transform_tolerance : R
}.

Inductive MessageType : Type := LaserScanMsg | PointCloud2Msg.

Inductive Callback : Type :=
  | LaserScanCallback
  | LaserScanValidInfCallback
  | PointCloud2Callback.

(** A subscriber: its topic, its message type and the depth of its queue. *)
Record Subscriber : Type := mkSubscriber {
  sub_topic : string;
  sub_type : MessageType;
  sub_depth : Z
}.

(** A message filter: the callback registered on it, the buffer that the
    callback is bound to (a position in [observation_buffers_], for the
    shared pointer), its tolerance and its target frames when they were
    set. *)
Record Notifier : Type := mkNotifier {
  callback : Callback;
  bound_buffer : nat;
  tolerance : option R;
  target_frames : option (list string)
}.

(** The members that [onInitialize] sets. *)
Record Layer : Type := mkLayer {
  enabled_ : bool;
  footprint_clearing_enabled_ : bool;
  max_obstacle_height_ : R;
  combination_method_ : Z;
  rolling_window_ : bool;
  default_value_ : Z;
  current_ : bool;
  global_frame_ : string;
  observation_buffers_ : list BufferArgs;
  marking_buffers_ : list nat;
  clearing_buffers_ : list nat;
  observation_subscribers_ : list Subscriber;
  observation_notifiers_ : list Notifier
}.

(** The parameters of a source, as the loop declares and gets them. *)
Definition source_data_type (o : Overrides) (source : string) : string :=
  declared_string o (source +:+ ".data_type") "LaserScan".
Definition source_topic (o : Overrides) (source : string) : string :=
  declared_string o (source +:+ ".topic") source.
Definition source_sensor_frame (o : Overrides) (source : string) : string :=
  declared_string o (source +:+ ".sensor_frame") EmptyString.
Definition source_inf_is_valid (o : Overrides) (source : string) : bool :=
  declared_bool o (source +:+ ".inf_is_valid") false.
Definition source_marking (o : Overrides) (source : string) : bool :=
  declared_bool o (source +:+ ".marking") true.
Definition source_clearing (o : Overrides) (source : string) : bool :=
  declared_bool o (source +:+ ".clearing") false.

(** The observation buffer that the loop creates for a source. *)
Definition source_buffer (o : Overrides) (tolerance_of_transforms : R)
    (global_frame : string) (source : string) : BufferArgs :=
  mkBufferArgs (source_topic o source)
    (declared_double o (source +:+ ".observation_persistence") 0)
    (declared_double o (source +:+ ".expected_update_rate") 0)
    (declared_double o (source +:+ ".min_obstacle_height") 0)
    (declared_double o (source +:+ ".max_obstacle_height") 0)
    (declared_double o (source +:+ ".obstacle_range") (5 / 2))
    (declared_double o (source +:+ ".raytrace_range") 3)
    global_frame (source_sensor_frame o source) tolerance_of_transforms.

(** The subscriber that the loop creates for a source, of a supported data
    type. *)
Definition source_subscriber (o : Overrides) (source : string) : Subscriber :=
  if bool_decide (source_data_type o source = "LaserScan")
  then mkSubscriber (source_topic o source) LaserScanMsg 50
  else mkSubscriber (source_topic o source) PointCloud2Msg 50.

(** The message filter that the loop creates for a source and binds to the
    buffer at [back]: a laser scan gets one of the two laser callbacks and
    a tolerance, a point cloud gets the point cloud callback whatever
    inf_is_valid says; the target frames are set when a sensor frame is
    given. *)
Definition source_notifier (o : Overrides) (global_frame : string) (back : nat)
    (source : string) : Notifier :=
  let filter :=
    if bool_decide (source_data_type o source = "LaserScan")
    then mkNotifier
           (if source_inf_is_valid o source
            then LaserScanValidInfCallback else LaserScanCallback)
           back (Some (5 / 100)) None
    else mkNotifier PointCloud2Callback back None None in
  if negb (bool_decide (source_sensor_frame o source = EmptyString))
  then mkNotifier (callback filter) (bound_buffer filter) (tolerance filter)
         (Some [global_frame; source_sensor_frame o source])
  else filter.

(** The body of the loop over the observation sources.  [None] is the
    [std::runtime_error] thrown on a data type that is not supported.  The
    parameters are read as [declared_bool] and the like give them: the
    exceptions of the node, for a parameter that is declared twice or whose
    value has another type, are not modelled. *)
Definition init_source (o : Overrides) (tolerance_of_transforms : R)
    (L : Layer) (source : string) : option Layer :=
  if negb (bool_decide (source_data_type o source = "PointCloud2")
           || bool_decide (source_data_type o source = "LaserScan"))
  then None
  else
    let observation_buffers :=
      observation_buffers_ L
      ++ [source_buffer o tolerance_of_transforms (global_frame_ L) source] in
    let back := (length observation_buffers - 1)%nat in
    let marking_buffers :=
      if source_marking o source
      then marking_buffers_ L ++ [back] else marking_buffers_ L in
    let clearing_buffers :=
      if source_clearing o source
      then clearing_buffers_ L ++ [back] else clearing_buffers_ L in
    Some (mkLayer (enabled_ L) (footprint_clearing_enabled_ L) (max_obstacle_height_ L)
            (combination_method_ L) (rolling_window_ L) (default_value_ L) (current_ L)
            (global_frame_ L) observation_buffers marking_buffers clearing_buffers
            (observation_subscribers_ L ++ [source_subscriber o source])
            (observation_notifiers_ L ++ [source_notifier o (global_frame_ L) back source])).

(** The loop over the sources, which stops at the first throw. *)
Fixpoint init_sources (o : Overrides) (tolerance_of_transforms : R)
    (L : Layer) (sources : list string) : option Layer :=
  match sources with
  | [] => Some L
  | source :: sources =>
      match init_source o tolerance_of_transforms L source with
      | None => None
      | Some L => init_sources o tolerance_of_transforms L sources
      end
  end.

(** ObstacleLayer::onInitialize, on a layer that has no buffer yet.
    [track_unknown_space] and [tolerance_of_transforms] are parameters that
    the layer gets and does not declare, [sources] are the words of the
    parameter observation_sources, and [is_rolling] and [global_frame] come
    from the layered costmap. *)
Definition onInitialize (o : Overrides) (track_unknown_space : bool)
    (tolerance_of_transforms : R) (sources : list string)
    (is_rolling : bool) (global_frame : string) : option Layer :=
  let enabled := declared_bool o "enabled" true in
  let footprint_clearing_enabled := declared_bool o "footprint_clearing_enabled" true in
  let max_obstacle_height := declared_double o "max_obstacle_height" 2 in
  let combination_method := declared_int o "combination_method" 1 in
  let default_value := if track_unknown_space then NO_INFORMATION else FREE_SPACE in
  init_sources o tolerance_of_transforms
    (mkLayer enabled footprint_clearing_enabled max_obstacle_height combination_method
       is_rolling default_value true global_frame [] [] [] [] [])
    sources.

(** The positions [n], [n + 1], ... of the sources that have a flag. *)
Fixpoint flagged (flag : string -> bool) (n : nat) (sources : list string) : list nat :=
  match sources with
  | [] => []
  | source :: sources =>
      (if flag source then [n] else []) ++ flagged flag (S n) sources
  end.

(** The message filters of the sources, bound to the positions [n],
    [n + 1], ... *)
Fixpoint notifiers_from (o : Overrides) (global_frame : string) (n : nat)
    (sources : list string) : list Notifier :=
  match sources with
  | [] => []
  | source :: sources =>
      source_notifier o global_frame n source
      :: notifiers_from o global_frame (S n) sources
  end.

(** A source of a data type that the layer supports. *)
Definition supported (o : Overrides) (source : string) : Prop :=
  source_data_type o source = "PointCloud2" \/ source_data_type o source = "LaserScan".

(** Parameters from outside for two sources: a point cloud that marks and
    clears from a sensor frame, and a source with a data type that the
    layer does not know. *)
Definition sample_overrides : Overrides :=
  mkOverrides
    {[ "cloud.clearing" := true ]}
    ∅
    {[ "cloud.data_type" := "PointCloud2"; "cloud.sensor_frame" := "lidar";
       "sonar.data_type" := "Range" ]}
    ∅.

End Init.

(** * Properties *)

(** ** Comparisons and division *)

Lemma Rltb_true a b : a < b -> Rltb a b = true.
Proof. intros; unfold Rltb; destruct (Rlt_dec a b); [reflexivity | lra]. Qed.

Lemma Rltb_false a b : b <= a -> Rltb a b = false.
Proof. intros; unfold Rltb; destruct (Rlt_dec a b); [lra | reflexivity]. Qed.

Lemma Rleb_true a b : a <= b -> Rleb a b = true.
Proof. intros; unfold Rleb; destruct (Rle_dec a b); [reflexivity | lra]. Qed.

Lemma Rleb_false a b : b < a -> Rleb a b = false.
Proof. intros; unfold Rleb; destruct (Rle_dec a b); [lra | reflexivity]. Qed.

Lemma Rltb_spec a b : Rltb a b = true <-> a < b.
Proof. unfold Rltb; destruct (Rlt_dec a b); split; intros; try lra; congruence. Qed.

Lemma Rltb_nlt a b : Rltb a b = false <-> b <= a.
Proof. unfold Rltb; destruct (Rlt_dec a b); split; intros; try lra; congruence. Qed.

Lemma Rleb_spec a b : Rleb a b = true <-> a <= b.
Proof. unfold Rleb; destruct (Rle_dec a b); split; intros; try lra; congruence. Qed.

Lemma Rleb_nle a b : Rleb a b = false <-> b < a.
Proof. unfold Rleb; destruct (Rle_dec a b); split; intros; try lra; congruence. Qed.

Lemma div_some x y : y <> 0 -> div x y = Some (x / y).
Proof. intros; unfold div; destruct (Req_dec_T y 0); [contradiction | reflexivity]. Qed.

Lemma div_inv x y t : div x y = Some t -> y <> 0 /\ t * y = x.
Proof.
  unfold div; destruct (Req_dec_T y 0); [discriminate |].
  intros [= <-]; split; [assumption | field; assumption].
Qed.

(** Decides the comparisons of a goal between concrete reals, and runs the
    code that hangs on them. *)
Ltac real_tests :=
  repeat match goal with
  | |- context [Rltb ?a ?b] =>
      first [ rewrite (Rltb_true a b) by lra | rewrite (Rltb_false a b) by lra ]
  | |- context [Rleb ?a ?b] =>
      first [ rewrite (Rleb_true a b) by lra | rewrite (Rleb_false a b) by lra ]
  end.

Ltac real_run :=
  repeat (progress (real_tests; simpl;
                    repeat match goal with
                    | |- context [div ?a ?b] => rewrite (div_some a b) by lra
                    end; simpl)).

(** ** Geometry is kept by every write to the cells *)

Lemma same_geometry_refl g : same_geometry g g.
Proof. repeat split. Qed.

Lemma same_geometry_trans g1 g2 g3 :
  same_geometry g1 g2 -> same_geometry g2 g3 -> same_geometry g1 g3.
Proof.
  unfold same_geometry; intros (?&?&?&?&?&?) (?&?&?&?&?&?); repeat split; congruence.
Qed.

Lemma same_geometry_with_costmap g c :
  length c = length (costmap_ g) -> same_geometry g (with_costmap g c).
Proof. intros Hlen; repeat split; simpl; congruence. Qed.

Lemma worldToMap_geometry g g' wx wy :
  same_geometry g g' -> worldToMap g wx wy = worldToMap g' wx wy.
Proof.
  intros (Hx & Hy & Hr & Hox & Hoy & _); unfold worldToMap.
  rewrite Hx, Hy, Hr, Hox, Hoy; reflexivity.
Qed.

Lemma getIndex_geometry g g' mx my :
  same_geometry g g' -> getIndex g mx my = getIndex g' mx my.
Proof. intros (Hx & _); unfold getIndex; rewrite Hx; reflexivity. Qed.

Lemma well_formed_geometry g g' : same_geometry g g' -> well_formed g -> well_formed g'.
Proof.
  intros (Hx & Hy & Hr & _ & _ & Hlen) (? & ? & ? & ?); unfold well_formed.
  rewrite <- Hx, <- Hy, <- Hr, <- Hlen; auto.
Qed.

Lemma length_set_cell c i v : length (set_cell c i v) = length c.
Proof. unfold set_cell; destruct (i <? 0)%Z; [reflexivity | apply length_insert]. Qed.

Lemma length_mark_cells v (index : Z * Z -> Z) cells : forall c,
  length (foldl (fun c cell => MarkCell v c (index cell)) c cells) = length c.
Proof.
  induction cells as [|cell cells IH]; intros c; simpl; [reflexivity |].
  rewrite IH. apply length_set_cell.
Qed.

Lemma raytraceLine_geometry v g x0 y0 x1 y1 n :
  same_geometry g (raytraceLine (MarkCell v) g x0 y0 x1 y1 n).
Proof.
  apply same_geometry_with_costmap.
  apply (length_mark_cells v (fun cell => getIndex g cell.1 cell.2)).
Qed.

Lemma raytrace_point_geometry ox oy x0 y0 a b c d r s p :
  same_geometry s.1 (raytrace_point ox oy x0 y0 a b c d r s p).1.
Proof.
  unfold raytrace_point.
  destruct (clip_ray _ _ _ _ _ _ _ _) as [[wx wy]|]; [| apply same_geometry_refl].
  destruct (worldToMap _ _ _) as [[x1 y1]|]; [| apply same_geometry_refl].
  apply raytraceLine_geometry.
Qed.

Lemma raytrace_points_geometry ox oy x0 y0 a b c d r ps : forall s,
  same_geometry s.1 (foldl (raytrace_point ox oy x0 y0 a b c d r) s ps).1.
Proof.
  induction ps as [|p ps IH]; intros s; simpl; [apply same_geometry_refl |].
  eapply same_geometry_trans; [apply raytrace_point_geometry | apply IH].
Qed.

Lemma raytraceFreespace_geometry obs s :
  same_geometry s.1 (raytraceFreespace obs s).1.
Proof.
  unfold raytraceFreespace.
  destruct (worldToMap _ _ _) as [[x0 y0]|]; [| apply same_geometry_refl].
  apply (raytrace_points_geometry _ _ _ _ _ _ _ _ _ _ (s.1, _)).
Qed.

Lemma clearing_geometry obss : forall s,
  same_geometry s.1 (foldl (fun s obs => raytraceFreespace obs s) s obss).1.
Proof.
  induction obss as [|o obss IH]; intros s; simpl; [apply same_geometry_refl |].
  eapply same_geometry_trans; [apply raytraceFreespace_geometry | apply IH].
Qed.

(** ** World-to-cell conversion *)

Lemma Zfloor_cell (w o res : R) (m : Z) :
  0 < res ->
  (Zfloor ((w - o) / res) = m <-> o + IZR m * res <= w < o + (IZR m + 1) * res).
Proof.
  intros Hres; split.
  - intros <-. pose proof (Zfloor_bound ((w - o) / res)) as [Hlo Hhi].
    assert (Hq : (w - o) / res * res = w - o) by (field; lra).
    split; nra.
  - intros [Hlo Hhi]. apply Zfloor_eq.
    assert (Hq : (w - o) / res * res = w - o) by (field; lra).
    split; nra.
Qed.

(** [worldToMap] succeeds exactly on the half-open cells of the grid. *)
Lemma worldToMap_Some g wx wy mx my :
  0 < resolution_ g ->
  (worldToMap g wx wy = Some (mx, my) <->
   (0 <= mx < size_x_ g)%Z /\ (0 <= my < size_y_ g)%Z /\
   origin_x_ g + IZR mx * resolution_ g <= wx < origin_x_ g + (IZR mx + 1) * resolution_ g /\
   origin_y_ g + IZR my * resolution_ g <= wy < origin_y_ g + (IZR my + 1) * resolution_ g).
Proof.
  intros Hres; unfold worldToMap; split.
  - destruct (Rltb wx (origin_x_ g)) eqn:Hx; [discriminate |].
    destruct (Rltb wy (origin_y_ g)) eqn:Hy; [discriminate |]; simpl.
    apply Rltb_nlt in Hx, Hy.
    destruct (Zfloor ((wx - origin_x_ g) / resolution_ g) <? size_x_ g)%Z eqn:Hmx;
      [| discriminate].
    destruct (Zfloor ((wy - origin_y_ g) / resolution_ g) <? size_y_ g)%Z eqn:Hmy;
      [| discriminate]; simpl.
    intros E; injection E as <- <-. apply Z.ltb_lt in Hmx, Hmy.
    pose proof (proj1 (Zfloor_cell wx (origin_x_ g) _ _ Hres) eq_refl) as Hcx.
    pose proof (proj1 (Zfloor_cell wy (origin_y_ g) _ _ Hres) eq_refl) as Hcy.
    assert (0 <= Zfloor ((wx - origin_x_ g) / resolution_ g))%Z.
    { apply (Zfloor_lub 0). apply Rmult_le_pos; [lra |]. left; apply Rinv_0_lt_compat; lra. }
    assert (0 <= Zfloor ((wy - origin_y_ g) / resolution_ g))%Z.
    { apply (Zfloor_lub 0). apply Rmult_le_pos; [lra |]. left; apply Rinv_0_lt_compat; lra. }
    repeat split; try lia; lra.
  - intros ([Hx0 Hx1] & [Hy0 Hy1] & Hcx & Hcy).
    assert (0 <= IZR mx) by (apply IZR_le; lia).
    assert (0 <= IZR my) by (apply IZR_le; lia).
    rewrite (Rltb_false wx) by nra. rewrite (Rltb_false wy) by nra. simpl.
    rewrite (proj2 (Zfloor_cell wx (origin_x_ g) _ mx Hres) Hcx).
    rewrite (proj2 (Zfloor_cell wy (origin_y_ g) _ my Hres) Hcy).
    rewrite (proj2 (Z.ltb_lt _ _) Hx1), (proj2 (Z.ltb_lt _ _) Hy1). reflexivity.
Qed.


(** and fails outside of it. *)
Lemma worldToMap_off_map g wx wy :
  0 < resolution_ g ->
  wx < origin_x_ g \/ wy < origin_y_ g \/ map_end_x g <= wx \/ map_end_y g <= wy ->
  worldToMap g wx wy = None.
Proof.
  intros Hres Hout.
  destruct (worldToMap g wx wy) as [[mx my]|] eqn:E; [| reflexivity].
  apply (worldToMap_Some g wx wy mx my Hres) in E as ([Hx0 Hx] & [Hy0 Hy] & Hcx & Hcy).
  apply IZR_le in Hx0, Hy0. unfold map_end_x, map_end_y in Hout.
  assert (IZR mx + 1 <= IZR (size_x_ g)) by (rewrite <- plus_IZR; apply IZR_le; lia).
  assert (IZR my + 1 <= IZR (size_y_ g)) by (rewrite <- plus_IZR; apply IZR_le; lia).
  exfalso; destruct Hout as [?|[?|[?|?]]]; nra.
Qed.

Lemma worldToMap_origin_in_map g ox oy x0 y0 :
  0 < resolution_ g -> worldToMap g ox oy = Some (x0, y0) ->
  origin_x_ g <= ox < map_end_x g /\ origin_y_ g <= oy < map_end_y g.
Proof.
  intros Hres E.
  destruct (Rlt_dec ox (origin_x_ g)); [rewrite worldToMap_off_map in E by auto; discriminate |].
  destruct (Rlt_dec oy (origin_y_ g)); [rewrite worldToMap_off_map in E by auto; discriminate |].
  destruct (Rle_dec (map_end_x g) ox); [rewrite worldToMap_off_map in E by auto; discriminate |].
  destruct (Rle_dec (map_end_y g) oy); [rewrite worldToMap_off_map in E by auto; discriminate |].
  lra.
Qed.

(** ** Skipped observations and skipped rays *)

Lemma raytraceFreespace_off_grid obs s :
  worldToMap s.1 (px (origin_ obs)) (py (origin_ obs)) = None ->
  raytraceFreespace obs s = s.
Proof. intros E; unfold raytraceFreespace; rewrite E; reflexivity. Qed.


(** C8.  A clearing observation whose origin fails [worldToMap] is skipped
    whole: [raytraceFreespace] returns the grid and the bounds as they were,
    and the raytracing loop over a list of observations gives what it gives
    on the list without that observation.  A hit point whose clipped
    endpoint fails [worldToMap] is skipped alone: the observation then
    gives what it gives without that point. *)
Theorem C8_skips_observation_or_ray (obs : Observation) :
  (forall s : Costmap2D * Bounds,
     worldToMap s.1 (px (origin_ obs)) (py (origin_ obs)) = None ->
     raytraceFreespace obs s = s /\
     forall before after,
       foldl (fun s o => raytraceFreespace o s) s (before ++ obs :: after)
       = foldl (fun s o => raytraceFreespace o s) s (before ++ after))
  /\
  (forall (s : Costmap2D * Bounds) x0 y0 before p after wx wy,
     worldToMap s.1 (px (origin_ obs)) (py (origin_ obs)) = Some (x0, y0) ->
     cloud_ obs = before ++ p :: after ->
     clip_ray (origin_x_ s.1) (origin_y_ s.1) (map_end_x s.1) (map_end_y s.1)
       (px (origin_ obs)) (py (origin_ obs)) (px p) (py p) = Some (wx, wy) ->
     worldToMap s.1 wx wy = None ->
     raytraceFreespace obs s = raytraceFreespace (with_cloud obs (before ++ after)) s).
Proof.
  split.
  - intros s Hnone; split; [apply raytraceFreespace_off_grid, Hnone |].
    intros before after. rewrite !foldl_app; simpl.
    rewrite raytraceFreespace_off_grid; [reflexivity |].
    rewrite <- (worldToMap_geometry s.1) by apply clearing_geometry. exact Hnone.
  - intros s x0 y0 before p after wx wy Ho Hcloud Hclip Hw.
    unfold raytraceFreespace; simpl. rewrite Ho, Hcloud, !foldl_app; simpl.
    set (s1 := foldl _ _ before).
    assert (Hg : same_geometry s.1 s1.1)
      by apply (raytrace_points_geometry _ _ _ _ _ _ _ _ _ _ (s.1, _)).
    assert (Hp : raytrace_point (px (origin_ obs)) (py (origin_ obs)) x0 y0
                   (origin_x_ s.1) (origin_y_ s.1) (map_end_x s.1) (map_end_y s.1)
                   (raytrace_range_ obs) s1 p = s1).
    { unfold raytrace_point. rewrite Hclip.
      rewrite <- (worldToMap_geometry s.1 s1.1) by exact Hg.
      rewrite Hw; reflexivity. }
    rewrite Hp; reflexivity.
Qed.

(** ** The disabled layer *)

(** C10.  With the layer disabled, [updateBounds] shifts the origin of a
    rolling costmap and does nothing else: the layer it returns is the
    layer it was given but for that shift, whatever the buffers hold, and
    the bounds are the bounds it was given; [updateCosts] returns the layer
    and the master grid as they were. *)
Theorem C10_disabled_layer `{Costmap2DOps} (L : ObstacleLayer)
    (robot_x robot_y robot_yaw : R) (b : Bounds)
    (master_grid : Costmap2D) (min_i min_j max_i max_j : Z) :
  enabled_ L = false ->
  updateBounds L robot_x robot_y robot_yaw b
  = (if rolling_window_ L
     then with_grid L (updateOrigin (grid L)
                         (robot_x - getSizeInMetersX (grid L) / 2)
                         (robot_y - getSizeInMetersY (grid L) / 2))
     else L, b)
  /\ updateCosts L master_grid min_i min_j max_i max_j = (L, master_grid).
Proof.
  intros Hoff; split.
  - unfold updateBounds, shift_origin.
    destruct (rolling_window_ L); simpl; rewrite Hoff; reflexivity.
  - unfold updateCosts. rewrite Hoff; reflexivity.
Qed.

(** ** Runs on the 10 x 10 grid *)

Lemma grid10_resolution v : 0 < resolution_ (grid10 v).
Proof. simpl; lra. Qed.

Lemma grid10_cell v wx wy mx my :
  (0 <= mx < 10)%Z -> (0 <= my < 10)%Z ->
  IZR mx <= wx < IZR mx + 1 -> IZR my <= wy < IZR my + 1 ->
  worldToMap (grid10 v) wx wy = Some (mx, my).
Proof.
  intros. apply worldToMap_Some; [apply grid10_resolution |]. simpl.
  repeat split; try lia; lra.
Qed.

Lemma grid10_off v wx wy :
  wx < 0 \/ wy < 0 \/ 10 <= wx \/ 10 <= wy -> worldToMap (grid10 v) wx wy = None.
Proof.
  intros. apply worldToMap_off_map; [apply grid10_resolution |].
  unfold map_end_x, map_end_y; simpl. lra.
Qed.

(** C8 on [grid10]: the sensor at (20, 5) is off the grid and its
    observation is skipped; the hit point (10, 5) of the sensor at (5, 5) is
    left on the end of the map, fails the conversion and is skipped. *)
Lemma C8_witness :
  raytraceFreespace obs_off_grid (grid10 254, empty_bounds) = (grid10 254, empty_bounds)
  /\ raytraceFreespace (obs_at_5_5 (mkPoint 10 5 0)) (grid10 254, empty_bounds)
     = raytraceFreespace (with_cloud (obs_at_5_5 (mkPoint 10 5 0)) []) (grid10 254, empty_bounds).
Proof.
  split.
  - apply (proj1 (C8_skips_observation_or_ray obs_off_grid) (grid10 254, empty_bounds)).
    apply grid10_off; simpl; lra.
  - apply (proj2 (C8_skips_observation_or_ray (obs_at_5_5 (mkPoint 10 5 0)))
             (grid10 254, empty_bounds) 5%Z 5%Z [] (mkPoint 10 5 0) [] 10 5).
    + apply grid10_cell; simpl; try lia; lra.
    + reflexivity.
    + unfold clip_ray, clip_min_x, clip_min_y, clip_max_x, clip_max_y, map_end_x, map_end_y;
        simpl. real_run. reflexivity.
    + apply grid10_off; lra.
Defined.

(** C10 on a disabled layer whose costmap rolls and whose buffers hold
    observations. *)
Lemma C10_witness :
  enabled_ disabled_rolling_layer = false
  /\ @updateBounds sample_ops disabled_rolling_layer 3 4 0 empty_bounds
     = (with_grid disabled_rolling_layer
          (@updateOrigin sample_ops (grid10 0) (3 - 10 * 1 / 2) (4 - 10 * 1 / 2)),
        empty_bounds)
  /\ @updateCosts sample_ops disabled_rolling_layer (grid10 7) 0 0 10 10
     = (disabled_rolling_layer, grid10 7).
Proof.
  split; [reflexivity |].
  exact (@C10_disabled_layer sample_ops disabled_rolling_layer 3 4 0 empty_bounds
           (grid10 7) 0 0 10 10 eq_refl).
Defined.

(** ** Reads and writes of the cell array *)

Lemma cell_at_set_eq c i v :
  (0 <= i)%Z -> (Z.to_nat i < length c)%nat -> cell_at (set_cell c i v) i = Some v.
Proof.
  intros Hi Hlt; unfold cell_at, set_cell.
  rewrite (proj2 (Z.ltb_ge i 0) Hi). apply list_lookup_insert_eq, Hlt.
Qed.

Lemma cell_at_set_ne c i j v : i <> j -> cell_at (set_cell c i v) j = cell_at c j.
Proof.
  intros Hne; unfold cell_at, set_cell.
  destruct (j <? 0)%Z eqn:Hj; [reflexivity |].
  destruct (i <? 0)%Z eqn:Hi; [reflexivity |].
  apply Z.ltb_ge in Hi, Hj. apply list_lookup_insert_ne. lia.
Qed.

Lemma cell_at_Some_lt c i v : cell_at c i = Some v -> (0 <= i)%Z /\ (Z.to_nat i < length c)%nat.
Proof.
  unfold cell_at; destruct (i <? 0)%Z eqn:Hi; [discriminate |].
  intros Hl; apply Z.ltb_ge in Hi; split; [exact Hi |].
  apply lookup_lt_is_Some; eauto.
Qed.

(** A write of [v] keeps every cell that already holds [v]. *)
Lemma cell_at_set_same c i j v : cell_at c j = Some v -> cell_at (set_cell c i v) j = Some v.
Proof.
  intros Hj. destruct (Z.eq_dec i j) as [-> | Hne].
  - apply cell_at_Some_lt in Hj as [? ?]. apply cell_at_set_eq; assumption.
  - rewrite cell_at_set_ne by assumption. exact Hj.
Qed.

(** The index of a cell of the grid lies in the array. *)
Lemma getIndex_in_range g mx my :
  well_formed g -> (0 <= mx < size_x_ g)%Z -> (0 <= my < size_y_ g)%Z ->
  (0 <= getIndex g mx my)%Z /\ (Z.to_nat (getIndex g mx my) < length (costmap_ g))%nat.
Proof.
  intros (Hsx & Hsy & _ & Hlen) Hx Hy; unfold getIndex; rewrite Hlen. split; nia.
Qed.

(** ** The bounding rectangle only grows *)

Lemma contains_refl b : contains b b.
Proof. unfold contains; lra. Qed.

Lemma contains_trans b1 b2 b3 : contains b1 b2 -> contains b2 b3 -> contains b1 b3.
Proof. unfold contains; lra. Qed.

Lemma touch_contains x y b : contains (touch x y b) b.
Proof.
  unfold contains, touch; simpl.
  pose proof (Rmin_r x (min_x b)). pose proof (Rmin_r y (min_y b)).
  pose proof (Rmax_r x (max_x b)). pose proof (Rmax_r y (max_y b)). lra.
Qed.

(** A touched point lies in the rectangle, provided the rectangle was not
    inverted in the other corner. *)
Lemma touch_inside x y b :
  min_x (touch x y b) <= x <= max_x (touch x y b) /\
  min_y (touch x y b) <= y <= max_y (touch x y b).
Proof.
  unfold touch; simpl.
  pose proof (Rmin_l x (min_x b)). pose proof (Rmin_l y (min_y b)).
  pose proof (Rmax_l x (max_x b)). pose proof (Rmax_l y (max_y b)). lra.
Qed.

Lemma inside_contains x y b b' : inside x y b -> contains b' b -> inside x y b'.
Proof. unfold inside, contains; lra. Qed.

Lemma updateRaytraceBounds_contains ox oy wx wy range b :
  contains (updateRaytraceBounds ox oy wx wy range b) b.
Proof. apply touch_contains. Qed.

Lemma raytrace_point_contains ox oy x0 y0 a b c d r s p :
  contains (raytrace_point ox oy x0 y0 a b c d r s p).2 s.2.
Proof.
  unfold raytrace_point.
  destruct (clip_ray _ _ _ _ _ _ _ _) as [[wx wy]|]; [| apply contains_refl].
  destruct (worldToMap _ _ _) as [[x1 y1]|]; [| apply contains_refl].
  apply updateRaytraceBounds_contains.
Qed.

(** A loop whose body only grows the rectangle only grows it. *)
Lemma foldl_contains {S A} (f : S -> A -> S) (bounds : S -> Bounds) :
  (forall s a, contains (bounds (f s a)) (bounds s)) ->
  forall l s, contains (bounds (foldl f s l)) (bounds s).
Proof.
  intros Hf l; induction l as [|a l IH]; intros s; simpl; [apply contains_refl |].
  eapply contains_trans; [apply IH | apply Hf].
Qed.

Lemma raytraceFreespace_contains obs s : contains (raytraceFreespace obs s).2 s.2.
Proof.
  unfold raytraceFreespace.
  destruct (worldToMap _ _ _) as [[x0 y0]|]; [| apply contains_refl].
  eapply contains_trans.
  - apply (foldl_contains _ snd); intros; apply raytrace_point_contains.
  - apply touch_contains.
Qed.

Lemma mark_point_contains h obs s p : contains (mark_point h obs s p).2 s.2.
Proof.
  unfold mark_point.
  destruct (Rltb _ _); [apply contains_refl |].
  destruct (Rleb _ _); [apply contains_refl |].
  destruct (worldToMap _ _ _) as [[mx my]|]; [| apply contains_refl].
  apply touch_contains.
Qed.

Lemma mark_observation_contains h s obs : contains (mark_observation h s obs).2 s.2.
Proof. apply (foldl_contains _ snd); intros; apply mark_point_contains. Qed.

Lemma clear_then_mark_contains h cl mk s : contains (clear_then_mark h cl mk s).2 s.2.
Proof.
  unfold clear_then_mark. eapply contains_trans.
  - apply (foldl_contains _ snd); intros; apply mark_observation_contains.
  - apply (foldl_contains _ snd); intros; apply raytraceFreespace_contains.
Qed.

Lemma useExtraBounds_contains L b : contains (useExtraBounds L b).2 b.
Proof.
  unfold useExtraBounds; destruct (extra_bounds_ L); simpl; [| apply contains_refl].
  eapply contains_trans; apply touch_contains.
Qed.

Lemma updateFootprint_contains `{Costmap2DOps} L x y yaw b :
  contains (updateFootprint L x y yaw b).2 b.
Proof.
  unfold updateFootprint; destruct (footprint_clearing_enabled_ L); simpl;
    [| apply contains_refl].
  apply (foldl_contains _ (fun b => b)); intros; apply touch_contains.
Qed.

Lemma updateBounds_contains `{Costmap2DOps} L x y yaw b :
  contains (updateBounds L x y yaw b).2 b.
Proof.
  unfold updateBounds.
  set (L1 := shift_origin L x y).
  destruct (enabled_ L1); cbn [negb]; [| apply contains_refl].
  pose proof (useExtraBounds_contains L1 b) as Hextra.
  destruct (useExtraBounds L1 b) as [L2 b2]; cbn [snd] in Hextra.
  destruct (and_then true _ _) as [observations c1].
  destruct (and_then c1 _ _) as [clearing c2].
  pose proof (clear_then_mark_contains (max_obstacle_height_ (with_current L2 c2))
                clearing observations (grid (with_current L2 c2), b2)) as Hcm.
  destruct (clear_then_mark _ _ _ _) as [g b3]; cbn [snd] in Hcm.
  eapply contains_trans; [apply updateFootprint_contains |].
  eapply contains_trans; eassumption.
Qed.

(** C9.  Within a cycle the rectangle only grows: a touch returns a
    rectangle that contains the one it was given, and so does every step
    that touches (a ray and an observation of the raytracing, a point and
    an observation of the marking, the seed bound, the footprint) and
    [updateBounds] as a whole. *)
Theorem C9_bounds_only_grow `{Costmap2DOps} :
  (forall x y b, contains (touch x y b) b)
  /\ (forall ox oy wx wy range b, contains (updateRaytraceBounds ox oy wx wy range b) b)
  /\ (forall obs s, contains (raytraceFreespace obs s).2 s.2)
  /\ (forall h obs s p, contains (mark_point h obs s p).2 s.2)
  /\ (forall L b, contains (useExtraBounds L b).2 b)
  /\ (forall L x y yaw b, contains (updateFootprint L x y yaw b).2 b)
  /\ (forall L x y yaw b, contains (updateBounds L x y yaw b).2 b).
Proof.
  split; [intros; apply touch_contains |].
  split; [intros; apply updateRaytraceBounds_contains |].
  split; [intros; apply raytraceFreespace_contains |].
  split; [intros; apply mark_point_contains |].
  split; [intros; apply useExtraBounds_contains |].
  split; [intros; apply updateFootprint_contains |].
  intros; apply updateBounds_contains.
Qed.

(** ** Marking *)

Lemma mark_point_accepted h obs s p mx my :
  pz p <= h ->
  sq_dist obs p < obstacle_range_ obs * obstacle_range_ obs ->
  worldToMap s.1 (px p) (py p) = Some (mx, my) ->
  mark_point h obs s p
  = (with_costmap s.1 (set_cell (costmap_ s.1) (getIndex s.1 mx my) LETHAL_OBSTACLE),
     touch (px p) (py p) s.2).
Proof.
  intros Hz Hd Hw; unfold mark_point.
  rewrite Rltb_false, Rleb_false, Hw by assumption. reflexivity.
Qed.



Lemma grid10_well_formed v : well_formed (grid10 v).
Proof. unfold well_formed; simpl. repeat split; try lia; try lra. Qed.


(** ** The marking loop, and the grid after updateBounds *)

Lemma mark_point_geometry h obs s p : same_geometry s.1 (mark_point h obs s p).1.
Proof.
  unfold mark_point.
  destruct (Rltb _ _); [apply same_geometry_refl |].
  destruct (Rleb _ _); [apply same_geometry_refl |].
  destruct (worldToMap _ _ _) as [[mx my]|]; [| apply same_geometry_refl].
  apply same_geometry_with_costmap, length_set_cell.
Qed.

Lemma mark_point_keeps_lethal h obs s p k :
  cell_at (costmap_ s.1) k = Some LETHAL_OBSTACLE ->
  cell_at (costmap_ (mark_point h obs s p).1) k = Some LETHAL_OBSTACLE.
Proof.
  intros Hk; unfold mark_point.
  destruct (Rltb _ _); [exact Hk |].
  destruct (Rleb _ _); [exact Hk |].
  destruct (worldToMap _ _ _) as [[mx my]|]; [| exact Hk].
  apply cell_at_set_same, Hk.
Qed.

(** A loop keeps what each run of its body keeps. *)
Lemma foldl_keeps {S A} (f : S -> A -> S) (P : S -> Prop) :
  (forall s a, P s -> P (f s a)) -> forall l s, P s -> P (foldl f s l).
Proof.
  intros Hf l; induction l as [|a l IH]; intros s Hs; simpl; [exact Hs |].
  apply IH, Hf, Hs.
Qed.

Lemma mark_points_geometry h obs ps s :
  same_geometry s.1 (foldl (mark_point h obs) s ps).1.
Proof.
  apply (foldl_keeps _ (fun s' => same_geometry s.1 s'.1)); [| apply same_geometry_refl].
  intros s' p Hs'. eapply same_geometry_trans; [exact Hs' | apply mark_point_geometry].
Qed.

Lemma mark_observations_geometry h obss s :
  same_geometry s.1 (foldl (mark_observation h) s obss).1.
Proof.
  apply (foldl_keeps _ (fun s' => same_geometry s.1 s'.1)); [| apply same_geometry_refl].
  intros s' o Hs'. eapply same_geometry_trans; [exact Hs' | apply mark_points_geometry].
Qed.

Lemma mark_points_keep_lethal h obs ps s k :
  cell_at (costmap_ s.1) k = Some LETHAL_OBSTACLE ->
  cell_at (costmap_ (foldl (mark_point h obs) s ps).1) k = Some LETHAL_OBSTACLE.
Proof.
  apply (foldl_keeps _ (fun s' => cell_at (costmap_ s'.1) k = Some LETHAL_OBSTACLE)).
  intros; apply mark_point_keeps_lethal; assumption.
Qed.

Lemma mark_observations_keep_lethal h obss s k :
  cell_at (costmap_ s.1) k = Some LETHAL_OBSTACLE ->
  cell_at (costmap_ (foldl (mark_observation h) s obss).1) k = Some LETHAL_OBSTACLE.
Proof.
  apply (foldl_keeps _ (fun s' => cell_at (costmap_ s'.1) k = Some LETHAL_OBSTACLE)).
  intros; apply mark_points_keep_lethal; assumption.
Qed.

(** An accepted point of a marking observation leaves its cell LETHAL at
    the end of the marking loop. *)
Lemma marking_marks h observations obs p mx my s :
  well_formed s.1 ->
  obs ∈ observations -> p ∈ cloud_ obs ->
  pz p <= h ->
  sq_dist obs p < obstacle_range_ obs * obstacle_range_ obs ->
  worldToMap s.1 (px p) (py p) = Some (mx, my) ->
  cell_at (costmap_ (foldl (mark_observation h) s observations).1) (getIndex s.1 mx my)
  = Some LETHAL_OBSTACLE.
Proof.
  intros Hwf Hobs Hp Hz Hd Hw.
  apply list_elem_of_split in Hobs as (l1 & l2 & ->).
  apply list_elem_of_split in Hp as (c1 & c2 & Hcloud).
  rewrite foldl_app; simpl. apply mark_observations_keep_lethal.
  set (s1 := foldl (mark_observation h) s l1).
  assert (Hg1 : same_geometry s.1 s1.1) by apply mark_observations_geometry.
  unfold mark_observation at 1. rewrite Hcloud, foldl_app; simpl.
  apply mark_points_keep_lethal.
  set (s2 := foldl (mark_point h obs) s1 c1).
  assert (Hg2 : same_geometry s.1 s2.1).
  { eapply same_geometry_trans; [exact Hg1 | apply mark_points_geometry]. }
  rewrite (worldToMap_geometry _ _ _ _ Hg2) in Hw.
  rewrite (mark_point_accepted h obs s2 p mx my Hz Hd Hw); simpl.
  rewrite (getIndex_geometry _ _ mx my Hg2).
  pose proof (well_formed_geometry _ _ Hg2 Hwf) as Hwf2.
  pose proof Hwf2 as (_ & _ & Hres & _).
  apply (worldToMap_Some _ _ _ _ _ Hres) in Hw as (Hx & Hy & _).
  destruct (getIndex_in_range s2.1 mx my Hwf2 Hx Hy). apply cell_at_set_eq; assumption.
Qed.

Lemma updateFootprint_grid `{Costmap2DOps} L x y yaw b :
  grid (updateFootprint L x y yaw b).1 = grid L.
Proof. unfold updateFootprint; destruct (footprint_clearing_enabled_ L); reflexivity. Qed.

Lemma updateFootprint_current `{Costmap2DOps} L x y yaw b :
  current_ (updateFootprint L x y yaw b).1 = current_ L.
Proof. unfold updateFootprint; destruct (footprint_clearing_enabled_ L); reflexivity. Qed.

Lemma useExtraBounds_layer L b :
  grid (useExtraBounds L b).1 = grid L
  /\ max_obstacle_height_ (useExtraBounds L b).1 = max_obstacle_height_ L
  /\ getMarkingObservations (useExtraBounds L b).1 = getMarkingObservations L
  /\ getClearingObservations (useExtraBounds L b).1 = getClearingObservations L.
Proof. unfold useExtraBounds; destruct (extra_bounds_ L); repeat split. Qed.

Lemma shift_origin_layer `{Costmap2DOps} L x y :
  enabled_ (shift_origin L x y) = enabled_ L
  /\ max_obstacle_height_ (shift_origin L x y) = max_obstacle_height_ L
  /\ getMarkingObservations (shift_origin L x y) = getMarkingObservations L
  /\ getClearingObservations (shift_origin L x y) = getClearingObservations L.
Proof. unfold shift_origin; destruct (rolling_window_ L); repeat split. Qed.

(** What an enabled [updateBounds] leaves in the grid: the two loops run on
    the grid of the shifted layer, the raytracing loop on what the clearing
    getter returned (nothing, when a marking buffer was stale) and then the
    marking loop. *)
Lemma updateBounds_grid `{Costmap2DOps} L x y yaw b :
  enabled_ L = true ->
  let L1 := shift_origin L x y in
  let marking := getMarkingObservations L [] in
  let clearing := and_then marking.2 (getClearingObservations L) [] in
  grid (updateBounds L x y yaw b).1
  = (clear_then_mark (max_obstacle_height_ L) clearing.1 marking.1
       (grid L1, (useExtraBounds L1 b).2)).1
  /\ current_ (updateBounds L x y yaw b).1 = clearing.2.
Proof.
  intros Hon; cbv zeta. unfold updateBounds.
  set (L1 := shift_origin L x y).
  destruct (shift_origin_layer L x y) as (He & Hh & Hm & Hc). fold L1 in He, Hh, Hm, Hc.
  rewrite He, Hon; cbn [negb].
  destruct (useExtraBounds_layer L1 b) as (Hg2 & Hh2 & Hm2 & Hc2).
  destruct (useExtraBounds L1 b) as [L2 b2]; cbn [fst snd] in *.
  rewrite Hm2, Hm, Hc2, Hc.
  change (and_then true (getMarkingObservations L) [])
    with (getMarkingObservations L []).
  destruct (getMarkingObservations L []) as [observations c1]; cbn [fst snd].
  destruct (and_then c1 (getClearingObservations L) []) as [clearing_observations c2];
    cbn [fst snd].
  cbn [max_obstacle_height_ with_current grid]. rewrite Hg2, Hh2, Hh.
  destruct (clear_then_mark _ _ _ _) as [g b3]; cbn [fst].
  split.
  - rewrite updateFootprint_grid; reflexivity.
  - rewrite updateFootprint_current; reflexivity.
Qed.

(** ** Runs of the raytracing on the 10 x 10 grid *)

Lemma raytrace_point_traced ox oy x0 y0 a b c d r s p wx wy x1 y1 :
  clip_ray a b c d ox oy (px p) (py p) = Some (wx, wy) ->
  worldToMap s.1 wx wy = Some (x1, y1) ->
  raytrace_point ox oy x0 y0 a b c d r s p
  = (raytraceLine (MarkCell FREE_SPACE) s.1 x0 y0 x1 y1 (cellDistance s.1 r),
     updateRaytraceBounds ox oy wx wy r s.2).
Proof. intros Hc Hw; unfold raytrace_point; rewrite Hc, Hw; reflexivity. Qed.

Lemma grid10_cellDistance v (n : Z) : cellDistance (grid10 v) (IZR n) = n.
Proof. unfold cellDistance, Zround; simpl. apply Zfloor_eq; lra. Qed.

(** A hit point (wx, wy) inside [grid10] is not clipped. *)
Lemma grid10_clip_inside wx wy :
  0 <= wx <= 10 -> 0 <= wy <= 10 -> clip_ray 0 0 10 10 5 5 wx wy = Some (wx, wy).
Proof.
  intros; unfold clip_ray, clip_min_x, clip_min_y, clip_max_x, clip_max_y; simpl.
  real_run. reflexivity.
Qed.

(** A sensor at (5, 5) with a hit point at (hx, 5) in cell (x1, 5) of
    [grid10] and a raytrace range of [n] cells: the cells and the bounds
    after [raytraceFreespace]. *)
Lemma grid10_raytrace_row v hx (x1 n : Z) oz hz obstacle_range b :
  (0 <= x1 < 10)%Z -> IZR x1 <= hx < IZR x1 + 1 ->
  raytraceFreespace
    (mkObservation (mkPoint 5 5 oz) [mkPoint hx 5 hz] obstacle_range (IZR n))
    (grid10 v, b)
  = (raytraceLine (MarkCell FREE_SPACE) (grid10 v) 5 5 x1 5 n,
     updateRaytraceBounds 5 5 hx 5 (IZR n) (touch 5 5 b)).
Proof.
  intros Hx1 Hhx. unfold raytraceFreespace;
    cbn [fst snd origin_ px py cloud_ raytrace_range_].
  rewrite (grid10_cell v 5 5 5 5) by (simpl; try lia; lra).
  cbn [foldl].
  assert (0 <= IZR x1) by (apply IZR_le; lia).
  assert (IZR x1 + 1 <= 10) by (rewrite <- plus_IZR; apply IZR_le; lia).
  rewrite (raytrace_point_traced _ _ _ _ _ _ _ _ _ _ _ hx 5 x1 5%Z).
  - cbn [fst snd]. rewrite (grid10_cellDistance v n). reflexivity.
  - unfold map_end_x, map_end_y;
      cbn [fst grid10 origin_x_ origin_y_ size_x_ size_y_ resolution_ px py].
    replace (0 + 10 * 1) with 10 by lra. apply grid10_clip_inside; lra.
  - apply grid10_cell; simpl; try lia; lra.
Qed.

Lemma grid10_sweep_clears_7_5 b :
  cell_at (costmap_ (raytraceFreespace (obs_at_5_5 (mkPoint 9 5 0)) (grid10 254, b)).1) 57
  = Some FREE_SPACE.
Proof.
  unfold obs_at_5_5.
  rewrite (grid10_raytrace_row 254 9 9 100 0 0 100 b) by (simpl; try lia; lra).
  reflexivity.
Qed.

(** The example of the spec: of two marking buffers, one stale and one
    fresh, the aggregate is not current. *)
Example spec_example_stale :
  (getMarkingObservations
     (layer10 0 true [mkBuffer [] false; mkBuffer [] true] []) []).2 = false.
Proof. reflexivity. Qed.

(** ** Currentness of the cycle *)

(** The loop of the two getters over the buffers. *)
Lemma getter_loop (buffers : list ObservationBuffer) : forall (acc : list Observation * bool),
  foldl (fun acc buf => (acc.1 ++ getObservations buf, isCurrent buf && acc.2)) acc buffers
  = (acc.1 ++ (buffers ≫= getObservations), forallb isCurrent buffers && acc.2).
Proof.
  induction buffers as [|buf buffers IH]; intros [v c]; simpl.
  - rewrite app_nil_r; reflexivity.
  - rewrite IH; simpl. rewrite <- app_assoc. f_equal.
    destruct (isCurrent buf), (forallb isCurrent buffers), c; reflexivity.
Qed.

Lemma getMarkingObservations_eq L v :
  getMarkingObservations L v
  = (v ++ (marking_buffers_ L ≫= getObservations) ++ static_marking_observations_ L,
     forallb isCurrent (marking_buffers_ L)).
Proof.
  unfold getMarkingObservations. rewrite getter_loop; simpl.
  rewrite andb_true_r, <- app_assoc. reflexivity.
Qed.

Lemma getClearingObservations_eq L v :
  getClearingObservations L v
  = (v ++ (clearing_buffers_ L ≫= getObservations) ++ static_clearing_observations_ L,
     forallb isCurrent (clearing_buffers_ L)).
Proof.
  unfold getClearingObservations. rewrite getter_loop; simpl.
  rewrite andb_true_r, <- app_assoc. reflexivity.
Qed.

Lemma shift_origin_current `{Costmap2DOps} L x y : current_ (shift_origin L x y) = current_ L.
Proof. unfold shift_origin; destruct (rolling_window_ L); reflexivity. Qed.

Lemma updateBounds_current `{Costmap2DOps} L x y yaw b :
  current_ (updateBounds L x y yaw b).1
  = if enabled_ L
    then forallb isCurrent (marking_buffers_ L) && forallb isCurrent (clearing_buffers_ L)
    else current_ L.
Proof.
  destruct (enabled_ L) eqn:Hon.
  - destruct (updateBounds_grid L x y yaw b Hon) as [_ ->].
    rewrite getMarkingObservations_eq; cbn [snd]. unfold and_then.
    destruct (forallb isCurrent (marking_buffers_ L)); [| reflexivity].
    rewrite getClearingObservations_eq; reflexivity.
  - unfold updateBounds. destruct (shift_origin_layer L x y) as (-> & _).
    rewrite Hon; cbn [negb fst]. apply shift_origin_current.
Qed.

(** C7.  The getters return the observations of the buffers followed by
    the static ones, and the conjunction of [isCurrent] over the buffers,
    in which the static observations have no part; [current_] after an
    enabled [updateBounds] is the conjunction over the marking and the
    clearing buffers.  But when a marking buffer is stale the clearing
    getter is not called: on [stale_marking_layer] the clearing buffer
    holds a sweep that clears cell (7, 5) when it is raytraced, and
    [updateBounds] leaves every cell and the bounds as they were. *)
Theorem C7_currentness_and_stale_marking_buffer :
  (forall L v,
     getMarkingObservations L v
     = (v ++ (marking_buffers_ L ≫= getObservations) ++ static_marking_observations_ L,
        forallb isCurrent (marking_buffers_ L)))
  /\ (forall L v,
        getClearingObservations L v
        = (v ++ (clearing_buffers_ L ≫= getObservations) ++ static_clearing_observations_ L,
           forallb isCurrent (clearing_buffers_ L)))
  /\ (forall (ops : Costmap2DOps) L x y yaw b,
        current_ (updateBounds L x y yaw b).1
        = if enabled_ L
          then forallb isCurrent (marking_buffers_ L)
               && forallb isCurrent (clearing_buffers_ L)
          else current_ L)
  /\ (getClearingObservations stale_marking_layer []).1 = [obs_at_5_5 (mkPoint 9 5 0)]
  /\ cell_at (costmap_ (raytraceFreespace (obs_at_5_5 (mkPoint 9 5 0))
                          (grid10 254, empty_bounds)).1) 57 = Some FREE_SPACE
  /\ (forall (ops : Costmap2DOps),
        updateBounds stale_marking_layer 5 5 0 empty_bounds
        = (with_current stale_marking_layer false, empty_bounds)).
Proof.
  split; [apply getMarkingObservations_eq |].
  split; [apply getClearingObservations_eq |].
  split; [intros; apply updateBounds_current |].
  split; [reflexivity |].
  split; [apply grid10_sweep_clears_7_5 |].
  intros ops. reflexivity.
Qed.

(** ** Combination into the master grid *)

Lemma rect_cells_elem min_i min_j max_i max_j i j :
  (i, j) ∈ rect_cells min_i min_j max_i max_j
  <-> (min_i <= i < max_i)%Z /\ (min_j <= j < max_j)%Z.
Proof.
  unfold rect_cells. rewrite list_elem_of_bind. split.
  - intros (j' & Hin & Hj). apply list_elem_of_bind in Hin as (i' & Hin & Hi).
    apply list_elem_of_singleton in Hin. injection Hin as -> ->.
    apply elem_of_seqZ in Hi, Hj. lia.
  - intros [Hi Hj]. exists j. split; [| apply elem_of_seqZ; lia].
    apply list_elem_of_bind. exists i. split; [| apply elem_of_seqZ; lia].
    apply list_elem_of_singleton; reflexivity.
Qed.

Lemma rect_cells_NoDup min_i min_j max_i max_j :
  NoDup (rect_cells min_i min_j max_i max_j).
Proof.
  unfold rect_cells. apply NoDup_bind; [| | apply NoDup_seqZ].
  - intros j1 j2 [i j] _ _ H1 H2.
    apply list_elem_of_bind in H1 as (i1 & H1 & _), H2 as (i2 & H2 & _).
    apply list_elem_of_singleton in H1, H2. congruence.
  - intros j _. apply NoDup_bind; [| | apply NoDup_seqZ].
    + intros i1 i2 [i j'] _ _ H1 H2.
      apply list_elem_of_singleton in H1, H2. congruence.
    + intros i _. apply NoDup_singleton.
Qed.

(** Inside the columns of a grid the index tells the cell. *)
Lemma getIndex_inj g i j i' j' :
  (0 <= i < size_x_ g)%Z -> (0 <= i' < size_x_ g)%Z ->
  getIndex g i j = getIndex g i' j' -> i = i' /\ j = j'.
Proof. unfold getIndex; intros Hi Hi' Heq. assert (j = j') by nia. subst. lia. Qed.

(** A cell that the loop does not visit keeps its cost. *)
Lemma combine_cells_other f local master cells k : forall m,
  (forall c, c ∈ cells -> getIndex master c.1 c.2 <> k) ->
  cell_at (foldl (combine_cell f local master) m cells) k = cell_at m k.
Proof.
  induction cells as [|c cells IH]; intros m Hk; simpl; [reflexivity |].
  rewrite IH by (intros c' Hc'; apply Hk; right; exact Hc').
  unfold combine_cell.
  destruct (cell_at m _); [| reflexivity].
  destruct (cell_at (costmap_ local) _); [| reflexivity].
  apply cell_at_set_ne, Hk. left.
Qed.

(** A cell that the loop visits, once, is combined with the local cell. *)
Lemma combine_cells_at f local master cells : forall m c old cost,
  NoDup cells ->
  (forall c1 c2, c1 ∈ cells -> c2 ∈ cells ->
     getIndex master c1.1 c1.2 = getIndex master c2.1 c2.2 -> c1 = c2) ->
  c ∈ cells ->
  cell_at m (getIndex master c.1 c.2) = Some old ->
  cell_at (costmap_ local) (getIndex local c.1 c.2) = Some cost ->
  cell_at (foldl (combine_cell f local master) m cells) (getIndex master c.1 c.2)
  = Some (f old cost).
Proof.
  induction cells as [|c0 cells IH]; intros m c old cost Hnd Hinj Hc Hold Hcost.
  - inversion Hc.
  - apply NoDup_cons in Hnd as [Hc0 Hnd]. simpl.
    apply elem_of_cons in Hc as [-> | Hc].
    + rewrite combine_cells_other.
      * unfold combine_cell. rewrite Hold, Hcost.
        apply cell_at_Some_lt in Hold as [? ?]. apply cell_at_set_eq; assumption.
      * intros c' Hc' Heq. apply Hc0.
        rewrite <- (Hinj c' c0); [exact Hc' | right; exact Hc' | left | exact Heq].
    + apply IH; try assumption.
      * intros c1 c2 H1 H2. apply Hinj; right; assumption.
      * unfold combine_cell.
        destruct (cell_at m (getIndex master c0.1 c0.2)); [| exact Hold].
        destruct (cell_at (costmap_ local) (getIndex local c0.1 c0.2)); [| exact Hold].
        rewrite cell_at_set_ne; [exact Hold |].
        intros Heq. apply Hc0.
        rewrite (Hinj c0 c); [exact Hc | left | right; exact Hc | exact Heq].
Qed.

Lemma rect_cells_inj g min_i min_j max_i max_j c1 c2 :
  rect_in g min_i min_j max_i max_j ->
  c1 ∈ rect_cells min_i min_j max_i max_j ->
  c2 ∈ rect_cells min_i min_j max_i max_j ->
  getIndex g c1.1 c1.2 = getIndex g c2.1 c2.2 -> c1 = c2.
Proof.
  intros (? & ? & ? & ?). destruct c1 as [i1 j1], c2 as [i2 j2].
  rewrite !rect_cells_elem; simpl. intros [? ?] [? ?] Heq.
  apply getIndex_inj in Heq as [-> ->]; [reflexivity | lia | lia].
Qed.

Lemma combine_rect f local master min_i min_j max_i max_j i j old cost :
  rect_in master min_i min_j max_i max_j ->
  (min_i <= i < max_i)%Z -> (min_j <= j < max_j)%Z ->
  cell_at (costmap_ master) (getIndex master i j) = Some old ->
  cell_at (costmap_ local) (getIndex local i j) = Some cost ->
  cell_at (foldl (combine_cell f local master) (costmap_ master)
             (rect_cells min_i min_j max_i max_j)) (getIndex master i j)
  = Some (f old cost).
Proof.
  intros Hrect Hi Hj Hold Hcost.
  apply (combine_cells_at f local master _ (costmap_ master) (i, j) old cost);
    try assumption.
  - apply rect_cells_NoDup.
  - intros c1 c2. apply rect_cells_inj, Hrect.
  - apply rect_cells_elem; split; assumption.
Qed.

Lemma combine_rect_outside f local master min_i min_j max_i max_j i j :
  rect_in master min_i min_j max_i max_j ->
  (0 <= i < size_x_ master)%Z ->
  ~ ((min_i <= i < max_i)%Z /\ (min_j <= j < max_j)%Z) ->
  cell_at (foldl (combine_cell f local master) (costmap_ master)
             (rect_cells min_i min_j max_i max_j)) (getIndex master i j)
  = cell_at (costmap_ master) (getIndex master i j).
Proof.
  intros (? & ? & ? & ?) Hi Hout. apply combine_cells_other.
  intros [i' j'] Hc Heq. apply rect_cells_elem in Hc as [? ?]; simpl in Heq.
  apply getIndex_inj in Heq as [-> ->]; [| lia | lia]. apply Hout; split; assumption.
Qed.

(** The order of the Maximum policy. *)
Lemma cost_rank_order c :
  (FREE_SPACE < c < LETHAL_OBSTACLE)%Z ->
  (cost_rank NO_INFORMATION < cost_rank FREE_SPACE < cost_rank c)%Z
  /\ (cost_rank c < cost_rank LETHAL_OBSTACLE)%Z.
Proof.
  unfold cost_rank, FREE_SPACE, LETHAL_OBSTACLE, NO_INFORMATION; intros Hc.
  destruct (c =? 255)%Z eqn:E; [apply Z.eqb_eq in E; lia |]. simpl. lia.
Qed.

Lemma cost_max_rank a b : cost_rank (cost_max a b) = Z.max (cost_rank a) (cost_rank b).
Proof. unfold cost_max. destruct (_ <? _)%Z eqn:E; [apply Z.ltb_lt in E | apply Z.ltb_ge in E]; lia. Qed.

(** C5.  In an enabled [updateCosts], with [local] the grid of the layer at
    the combination (after the footprint was cleared in it) and for every
    cell (i, j) of the cell rectangle that both arrays hold: under method 0
    (Overwrite) the master cell becomes the local cell; under method 1
    (Maximum) it becomes [cost_max] of the master cell and the local cell,
    the maximum in the order NO_INFORMATION < FREE < numeric costs <
    LETHAL; under any other method the master grid is returned as it was.
    No policy changes a cell outside of the rectangle. *)
Theorem C5_combination_policies `{Costmap2DOps} (L : ObstacleLayer)
    (master_grid : Costmap2D) (min_i min_j max_i max_j : Z) :
  enabled_ L = true ->
  rect_in master_grid min_i min_j max_i max_j ->
  let r := updateCosts L master_grid min_i min_j max_i max_j in
  (combination_method_ L = 0%Z ->
   forall i j old cost,
     (min_i <= i < max_i)%Z -> (min_j <= j < max_j)%Z ->
     cell_at (costmap_ master_grid) (getIndex master_grid i j) = Some old ->
     cell_at (costmap_ (grid r.1)) (getIndex (grid r.1) i j) = Some cost ->
     cell_at (costmap_ r.2) (getIndex master_grid i j) = Some cost)
  /\ (combination_method_ L = 1%Z ->
      forall i j old cost,
        (min_i <= i < max_i)%Z -> (min_j <= j < max_j)%Z ->
        cell_at (costmap_ master_grid) (getIndex master_grid i j) = Some old ->
        cell_at (costmap_ (grid r.1)) (getIndex (grid r.1) i j) = Some cost ->
        cell_at (costmap_ r.2) (getIndex master_grid i j) = Some (cost_max old cost))
  /\ (combination_method_ L <> 0%Z -> combination_method_ L <> 1%Z -> r.2 = master_grid)
  /\ (forall i j,
        (0 <= i < size_x_ master_grid)%Z ->
        ~ ((min_i <= i < max_i)%Z /\ (min_j <= j < max_j)%Z) ->
        cell_at (costmap_ r.2) (getIndex master_grid i j)
        = cell_at (costmap_ master_grid) (getIndex master_grid i j))
  /\ (forall a b, cost_rank (cost_max a b) = Z.max (cost_rank a) (cost_rank b))
  /\ (forall c, (FREE_SPACE < c < LETHAL_OBSTACLE)%Z ->
        (cost_rank NO_INFORMATION < cost_rank FREE_SPACE < cost_rank c)%Z
        /\ (cost_rank c < cost_rank LETHAL_OBSTACLE)%Z).
Proof.
  intros Hon Hrect r. subst r. unfold updateCosts. rewrite Hon; cbn [negb].
  set (L' := if footprint_clearing_enabled_ L then _ else L).
  assert (Hm : combination_method_ L' = combination_method_ L)
    by (subst L'; destruct (footprint_clearing_enabled_ L); reflexivity).
  rewrite Hm.
  split; [| split; [| split; [| split; [| split]]]].
  - intros -> i j old cost Hi Hj Hold Hcost; cbn [fst snd] in *.
    apply (combine_rect (fun _ cost => cost) (grid L') master_grid
             min_i min_j max_i max_j i j old cost); assumption.
  - intros -> i j old cost Hi Hj Hold Hcost; cbn [fst snd] in *.
    apply (combine_rect cost_max (grid L') master_grid
             min_i min_j max_i max_j i j old cost); assumption.
  - intros H0 H1. destruct (combination_method_ L) as [|[q|q|]|q]; try reflexivity;
      congruence.
  - intros i j Hi Hout.
    destruct (combination_method_ L) as [|[q|q|]|q]; try reflexivity; cbn [snd].
    + apply combine_rect_outside; assumption.
    + apply combine_rect_outside; assumption.
  - apply cost_max_rank.
  - apply cost_rank_order.
Qed.

(** C5 on [grid10]: cell (3, 3) of the rectangle from (2, 2) to (5, 5)
    under the three policies. *)
Lemma C5_witness :
  cell_at (costmap_ (@updateCosts sample_ops (layer_with_method 0) (grid10 7) 2 2 5 5).2) 33
  = Some 254%Z
  /\ cell_at (costmap_ (@updateCosts sample_ops (layer_with_method 1) (grid10 255) 2 2 5 5).2) 33
     = Some (cost_max 255 254)
  /\ (@updateCosts sample_ops (layer_with_method 2) (grid10 7) 2 2 5 5).2 = grid10 7.
Proof.
  assert (Hrect : forall v, rect_in (grid10 v) 2 2 5 5)
    by (intros v; unfold rect_in; simpl; lia).
  split; [| split].
  - apply (proj1 (@C5_combination_policies sample_ops (layer_with_method 0) (grid10 7)
                    2 2 5 5 eq_refl (Hrect 7%Z)) eq_refl 3%Z 3%Z 7%Z 254%Z);
      try lia; reflexivity.
  - apply (proj1 (proj2 (@C5_combination_policies sample_ops (layer_with_method 1)
                           (grid10 255) 2 2 5 5 eq_refl (Hrect 255%Z)))
             eq_refl 3%Z 3%Z 255%Z 254%Z); try lia; reflexivity.
  - apply (proj1 (proj2 (proj2 (@C5_combination_policies sample_ops (layer_with_method 2)
                                   (grid10 7) 2 2 5 5 eq_refl (Hrect 7%Z)))));
      discriminate.
Defined.

(** ** The two loops as writes and touches *)

Lemma apply_writes_nil v s : apply_writes v s [] [] = s.
Proof. destruct s as [[sx sy r ox oy c] b]; reflexivity. Qed.

Lemma apply_writes_app v s i1 p1 i2 p2 :
  apply_writes v (apply_writes v s i1 p1) i2 p2 = apply_writes v s (i1 ++ i2) (p1 ++ p2).
Proof.
  unfold apply_writes, write_all, touch_all; cbn [fst snd costmap_ with_costmap].
  rewrite !foldl_app. reflexivity.
Qed.

Lemma length_write_all v indices : forall c, length (write_all v c indices) = length c.
Proof.
  unfold write_all. induction indices as [|i indices IH]; intros c; simpl;
    [reflexivity |].
  rewrite IH. apply length_set_cell.
Qed.

Lemma apply_writes_geometry v s indices points :
  same_geometry s.1 (apply_writes v s indices points).1.
Proof. apply same_geometry_with_costmap, length_write_all. Qed.

Lemma same_geometry_sym g g' : same_geometry g g' -> same_geometry g' g.
Proof. unfold same_geometry; intros (?&?&?&?&?&?); repeat split; congruence. Qed.

Lemma mark_effect_geometry g g' h obs p :
  same_geometry g g' -> mark_effect g h obs p = mark_effect g' h obs p.
Proof.
  intros Hg; unfold mark_effect.
  rewrite (worldToMap_geometry g g' _ _ Hg).
  destruct (worldToMap g' _ _) as [[mx my]|]; [| reflexivity].
  rewrite (getIndex_geometry g g' _ _ Hg). reflexivity.
Qed.

Lemma ray_effect_geometry g g' obs x0 y0 p :
  same_geometry g g' -> ray_effect g obs x0 y0 p = ray_effect g' obs x0 y0 p.
Proof.
  intros Hg; unfold ray_effect, map_end_x, map_end_y, cellDistance.
  pose proof Hg as (Hsx & Hsy & Hr & Hox & Hoy & _).
  rewrite Hsx, Hsy, Hr, Hox, Hoy.
  destruct (clip_ray _ _ _ _ _ _ _ _) as [[wx wy]|]; [| reflexivity].
  rewrite (worldToMap_geometry g g' _ _ Hg).
  destruct (worldToMap g' _ _) as [[x1 y1]|]; [| reflexivity].
  do 2 f_equal. apply list_fmap_ext; intros i cell _.
  apply getIndex_geometry, Hg.
Qed.

(** A point of the marking loop. *)
Lemma mark_point_writes h obs s p :
  mark_point h obs s p
  = apply_writes LETHAL_OBSTACLE s
      (option_list (fst <$> mark_effect s.1 h obs p))
      (option_list (snd <$> mark_effect s.1 h obs p)).
Proof.
  unfold mark_point, mark_effect.
  destruct (Rltb _ _); [symmetry; apply apply_writes_nil |].
  destruct (Rleb _ _); [symmetry; apply apply_writes_nil |].
  destruct (worldToMap _ _ _) as [[mx my]|]; [| symmetry; apply apply_writes_nil].
  reflexivity.
Qed.

(** The marking of an observation, on a state of the geometry of [g]. *)
Lemma mark_observation_writes g h obs : forall s,
  same_geometry g s.1 ->
  mark_observation h s obs
  = apply_writes LETHAL_OBSTACLE s (marked_indices g h [obs]) (marked_points g h [obs]).
Proof.
  unfold mark_observation, marked_indices, marked_points.
  rewrite !bind_cons, !app_nil_r.
  induction (cloud_ obs) as [|p ps IH]; intros s Hg; simpl.
  - symmetry; apply apply_writes_nil.
  - rewrite IH.
    + rewrite mark_point_writes, apply_writes_app.
      rewrite <- (mark_effect_geometry g s.1 h obs p Hg).
      destruct (mark_effect g h obs p) as [[i pt]|]; reflexivity.
    + eapply same_geometry_trans; [exact Hg | apply mark_point_geometry].
Qed.

Lemma marking_writes g h observations : forall s,
  same_geometry g s.1 ->
  foldl (mark_observation h) s observations
  = apply_writes LETHAL_OBSTACLE s
      (marked_indices g h observations) (marked_points g h observations).
Proof.
  induction observations as [|obs observations IH]; intros s Hg; simpl.
  - symmetry; apply apply_writes_nil.
  - rewrite IH.
    + rewrite (mark_observation_writes g h obs s Hg), apply_writes_app.
      unfold marked_indices, marked_points.
      rewrite !bind_cons; simpl; rewrite !app_nil_r. reflexivity.
    + eapply same_geometry_trans; [exact Hg | apply mark_points_geometry].
Qed.

Lemma cellDistance_geometry g g' r :
  same_geometry g g' -> cellDistance g r = cellDistance g' r.
Proof. intros (_ & _ & Hr & _); unfold cellDistance; rewrite Hr; reflexivity. Qed.

Lemma foldl_same {S A} (f f' : S -> A -> S) (l : list A) :
  (forall s a, f s a = f' s a) -> forall s, foldl f s l = foldl f' s l.
Proof.
  intros Hf; induction l as [|a l IH]; intros s; simpl; [reflexivity |].
  rewrite Hf. apply IH.
Qed.

Lemma raytraceLine_writes v g g' x0 y0 x1 y1 n :
  same_geometry g g' ->
  raytraceLine (MarkCell v) g' x0 y0 x1 y1 n
  = with_costmap g'
      (write_all v (costmap_ g')
         ((fun cell => getIndex g cell.1 cell.2) <$> line_cells x0 y0 x1 y1 n)).
Proof.
  intros Hg; unfold raytraceLine, write_all, MarkCell. rewrite foldl_fmap.
  f_equal. apply foldl_same.
  intros c cell. rewrite (getIndex_geometry g g' _ _ Hg). reflexivity.
Qed.

(** A hit point of the raytracing loop. *)
Lemma raytrace_point_writes g obs x0 y0 s p :
  same_geometry g s.1 ->
  raytrace_point (px (origin_ obs)) (py (origin_ obs)) x0 y0
    (origin_x_ g) (origin_y_ g) (map_end_x g) (map_end_y g) (raytrace_range_ obs) s p
  = apply_writes FREE_SPACE s
      (from_option fst [] (ray_effect g obs x0 y0 p))
      (option_list (snd <$> ray_effect g obs x0 y0 p)).
Proof.
  intros Hg; unfold raytrace_point, ray_effect.
  destruct (clip_ray _ _ _ _ _ _ _ _) as [[wx wy]|]; [| symmetry; apply apply_writes_nil].
  rewrite <- (worldToMap_geometry g s.1 _ _ Hg).
  destruct (worldToMap g wx wy) as [[x1 y1]|]; [| symmetry; apply apply_writes_nil].
  rewrite (raytraceLine_writes FREE_SPACE g s.1 _ _ _ _ _ Hg).
  rewrite <- (cellDistance_geometry g s.1 _ Hg). reflexivity.
Qed.

Lemma raytrace_points_writes g obs x0 y0 ps : forall s,
  same_geometry g s.1 ->
  foldl (raytrace_point (px (origin_ obs)) (py (origin_ obs)) x0 y0
           (origin_x_ g) (origin_y_ g) (map_end_x g) (map_end_y g)
           (raytrace_range_ obs)) s ps
  = apply_writes FREE_SPACE s
      (p ← ps; from_option fst [] (ray_effect g obs x0 y0 p))
      (omap (fun p => snd <$> ray_effect g obs x0 y0 p) ps).
Proof.
  induction ps as [|p ps IH]; intros s Hg; simpl.
  - symmetry; apply apply_writes_nil.
  - rewrite IH.
    + rewrite (raytrace_point_writes g obs x0 y0 s p Hg), apply_writes_app.
      destruct (ray_effect g obs x0 y0 p) as [[ix pt]|]; reflexivity.
    + eapply same_geometry_trans; [exact Hg | apply raytrace_point_geometry].
Qed.

(** The raytracing of an observation, on a state of the geometry of [g]. *)
Lemma raytraceFreespace_writes g obs s :
  same_geometry g s.1 ->
  raytraceFreespace obs s
  = apply_writes FREE_SPACE s (traced_indices g [obs]) (traced_points g [obs]).
Proof.
  intros Hg; unfold raytraceFreespace, traced_indices, traced_points.
  rewrite !bind_cons; simpl; rewrite !app_nil_r.
  rewrite <- (worldToMap_geometry g s.1 _ _ Hg).
  destruct (worldToMap g _ _) as [[x0 y0]|]; [| symmetry; apply apply_writes_nil].
  pose proof Hg as (Hsx & Hsy & Hr & Hox & Hoy & _).
  unfold map_end_x, map_end_y. rewrite <- Hsx, <- Hsy, <- Hr, <- Hox, <- Hoy.
  fold (map_end_x g) (map_end_y g).
  rewrite (raytrace_points_writes g obs x0 y0 (cloud_ obs) (s.1, _) Hg).
  unfold apply_writes; cbn [fst snd]. reflexivity.
Qed.

Lemma clearing_writes g observations : forall s,
  same_geometry g s.1 ->
  foldl (fun s obs => raytraceFreespace obs s) s observations
  = apply_writes FREE_SPACE s (traced_indices g observations) (traced_points g observations).
Proof.
  induction observations as [|obs observations IH]; intros s Hg; simpl.
  - symmetry; apply apply_writes_nil.
  - rewrite IH.
    + rewrite (raytraceFreespace_writes g obs s Hg), apply_writes_app.
      unfold traced_indices, traced_points.
      rewrite !bind_cons; simpl; rewrite !app_nil_r. reflexivity.
    + eapply same_geometry_trans; [exact Hg | apply raytraceFreespace_geometry].
Qed.

(** The two loops: FREE_SPACE at the traced indices, then LETHAL_OBSTACLE at
    the marked indices; the traced points and then the marked points are
    touched. *)
Lemma clear_then_mark_writes h clearing marking s :
  clear_then_mark h clearing marking s
  = (with_costmap s.1
       (write_all LETHAL_OBSTACLE
          (write_all FREE_SPACE (costmap_ s.1) (traced_indices s.1 clearing))
          (marked_indices s.1 h marking)),
     touch_all s.2 (traced_points s.1 clearing ++ marked_points s.1 h marking)).
Proof.
  unfold clear_then_mark.
  rewrite (clearing_writes s.1 clearing s (same_geometry_refl _)).
  rewrite (marking_writes s.1 h marking); [| apply apply_writes_geometry].
  unfold apply_writes, touch_all; cbn [fst snd costmap_ with_costmap].
  rewrite foldl_app. reflexivity.
Qed.

(** ** The cells that the two loops write *)

Lemma write_all_in v indices i : forall c old,
  i ∈ indices -> cell_at c i = Some old -> cell_at (write_all v c indices) i = Some v.
Proof.
  unfold write_all. induction indices as [|j indices IH]; intros c old Hi Hold.
  - inversion Hi.
  - simpl. destruct (decide (i ∈ indices)) as [Hin | Hout].
    + destruct (Z.eq_dec j i) as [-> | Hne].
      * apply (IH _ v); [exact Hin |]. apply cell_at_Some_lt in Hold as [? ?].
        apply cell_at_set_eq; assumption.
      * apply (IH _ old); [exact Hin |]. rewrite cell_at_set_ne by exact Hne. exact Hold.
    + apply elem_of_cons in Hi as [-> | Hi]; [| contradiction].
      clear IH. revert c Hold.
      induction indices as [|k indices IH]; intros c Hold; simpl.
      * apply cell_at_Some_lt in Hold as [? ?]. apply cell_at_set_eq; assumption.
      * apply not_elem_of_cons in Hout as [Hne Hout].
        destruct (cell_at_Some_lt c j old Hold) as [H0 Hlt].
        specialize (IH Hout).
        assert (Hstep : set_cell (set_cell c j v) k v = set_cell (set_cell c k v) j v).
        { unfold set_cell. destruct (j <? 0)%Z eqn:Ej, (k <? 0)%Z eqn:Ek; try reflexivity.
          apply Z.ltb_ge in Ej, Ek. apply list_insert_insert_ne. lia. }
        rewrite Hstep. apply IH. rewrite cell_at_set_ne by congruence. exact Hold.
Qed.

Lemma write_all_out v indices i : forall c,
  i ∉ indices -> cell_at (write_all v c indices) i = cell_at c i.
Proof.
  unfold write_all. induction indices as [|j indices IH]; intros c Hi; simpl;
    [reflexivity |].
  apply not_elem_of_cons in Hi as [Hne Hi].
  rewrite IH by exact Hi. apply cell_at_set_ne. congruence.
Qed.

Lemma marked_indices_elem g h observations index :
  index ∈ marked_indices g h observations <-> marked g h observations index.
Proof.
  unfold marked_indices, marked. rewrite list_elem_of_bind. split.
  - intros (obs & Hin & Hobs). apply list_elem_of_omap in Hin as (p & Hp & He).
    unfold mark_effect in He.
    destruct (Rltb h (pz p)) eqn:Hz; [discriminate |].
    destruct (Rleb _ _) eqn:Hd; [discriminate |].
    destruct (worldToMap g (px p) (py p)) as [[mx my]|] eqn:Hw; [| discriminate].
    injection He as <-. apply Rltb_nlt in Hz. apply Rleb_nle in Hd.
    exists obs, p, mx, my. auto 10.
  - intros (obs & p & mx & my & Hobs & Hp & Hz & Hd & Hw & <-).
    exists obs. split; [| exact Hobs]. apply list_elem_of_omap. exists p.
    split; [exact Hp |]. unfold mark_effect.
    rewrite Rltb_false, Rleb_false, Hw by assumption. reflexivity.
Qed.

Lemma traced_indices_elem g observations index :
  index ∈ traced_indices g observations <-> traced g observations index.
Proof.
  unfold traced_indices, traced. rewrite list_elem_of_bind. split.
  - intros (obs & Hin & Hobs).
    destruct (worldToMap g (px (origin_ obs)) (py (origin_ obs))) as [[x0 y0]|] eqn:Ho;
      [| inversion Hin].
    apply list_elem_of_bind in Hin as (p & Hin & Hp).
    unfold ray_effect in Hin.
    destruct (clip_ray _ _ _ _ _ _ _ _) as [[wx wy]|] eqn:Hc; [| inversion Hin].
    destruct (worldToMap g wx wy) as [[x1 y1]|] eqn:Hw; [| inversion Hin].
    cbn [from_option fst] in Hin.
    apply list_elem_of_fmap in Hin as (cell & -> & Hcell).
    exists obs, x0, y0, p, wx, wy, x1, y1, cell. auto 12.
  - intros (obs & x0 & y0 & p & wx & wy & x1 & y1 & cell
            & Hobs & Ho & Hp & Hc & Hw & Hcell & <-).
    exists obs. split; [| exact Hobs]. rewrite Ho.
    apply list_elem_of_bind. exists p. split; [| exact Hp].
    unfold ray_effect. rewrite Hc, Hw. cbn [from_option fst].
    apply list_elem_of_fmap. exists cell. split; [reflexivity | exact Hcell].
Qed.

Lemma grid10_marked_indices v :
  marked_indices (grid10 v) 2 [obs_at_5_5 (mkPoint 7 5 0)] = [57%Z].
Proof.
  unfold marked_indices, mark_effect, sq_dist; simpl.
  rewrite Rltb_false by lra. rewrite Rleb_false by lra.
  rewrite (grid10_cell v 7 5 7 5) by (simpl; try lia; lra). reflexivity.
Qed.

Lemma grid10_traced_indices v :
  traced_indices (grid10 v) [obs_at_5_5 (mkPoint 9 5 0)] = [55; 56; 57; 58; 59]%Z.
Proof.
  unfold traced_indices, ray_effect; simpl.
  rewrite (grid10_cell v 5 5 5 5) by (simpl; try lia; lra). simpl.
  unfold map_end_x, map_end_y; simpl. replace (0 + 10 * 1) with 10 by lra.
  rewrite grid10_clip_inside by lra.
  rewrite (grid10_cell v 9 5 9 5) by (simpl; try lia; lra).
  rewrite (grid10_cellDistance v 100). reflexivity.
Qed.

(** ** Marking after clearing, to the end of the cycle *)

(** An enabled [updateBounds] ends in [updateFootprint], on a layer that has
    the flags and the footprint of the layer it was given. *)
Lemma updateBounds_ends_in_footprint `{Costmap2DOps} L x y yaw b :
  enabled_ L = true ->
  exists Lm bm,
    updateBounds L x y yaw b = updateFootprint Lm x y yaw bm
    /\ getFootprint Lm = getFootprint L
    /\ footprint_clearing_enabled_ Lm = footprint_clearing_enabled_ L
    /\ transformed_footprint_ Lm = transformed_footprint_ L
    /\ enabled_ Lm = true
    /\ combination_method_ Lm = combination_method_ L.
Proof.
  intros Hon. unfold updateBounds.
  assert (Hs : enabled_ (shift_origin L x y) = true
               /\ getFootprint (shift_origin L x y) = getFootprint L
               /\ footprint_clearing_enabled_ (shift_origin L x y)
                  = footprint_clearing_enabled_ L
               /\ transformed_footprint_ (shift_origin L x y) = transformed_footprint_ L
               /\ combination_method_ (shift_origin L x y) = combination_method_ L).
  { unfold shift_origin; destruct (rolling_window_ L); repeat split; assumption. }
  destruct Hs as (He & Hf & Hc & Ht & Hm). rewrite He; cbn [negb].
  set (L1 := shift_origin L x y) in *.
  assert (Hu : enabled_ (useExtraBounds L1 b).1 = enabled_ L1
               /\ getFootprint (useExtraBounds L1 b).1 = getFootprint L1
               /\ footprint_clearing_enabled_ (useExtraBounds L1 b).1
                  = footprint_clearing_enabled_ L1
               /\ transformed_footprint_ (useExtraBounds L1 b).1 = transformed_footprint_ L1
               /\ combination_method_ (useExtraBounds L1 b).1 = combination_method_ L1).
  { unfold useExtraBounds; destruct (extra_bounds_ L1); repeat split. }
  destruct (useExtraBounds L1 b) as [L2 b2]; cbn [fst] in Hu.
  destruct Hu as (He2 & Hf2 & Hc2 & Ht2 & Hm2).
  destruct (and_then true _ _) as [observations c1].
  destruct (and_then c1 _ _) as [clearing c2].
  destruct (clear_then_mark _ _ _ _) as [g b3].
  exists (with_grid (with_current L2 c2) g), b3.
  split; [reflexivity |]. cbn. repeat split; congruence.
Qed.






(** ** The length of a traced line *)

Lemma bresenham2D_length n : forall abs_da abs_db error_b offset_a offset_b cell,
  length (bresenham2D n abs_da abs_db error_b offset_a offset_b cell) = S n.
Proof.
  induction n as [|n IH]; intros; simpl; [reflexivity |].
  destruct (_ <=? _)%Z; simpl; rewrite IH; reflexivity.
Qed.

(** The k-th cell of a line is k steps from its first cell at most. *)
Lemma bresenham2D_lookup n : forall abs_da abs_db error_b offset_a offset_b cell k c,
  unit_steps offset_a offset_b ->
  bresenham2D n abs_da abs_db error_b offset_a offset_b cell !! k = Some c ->
  (k <= n)%nat /\
  (Z.abs (c.1 - cell.1) <= Z.of_nat k)%Z /\ (Z.abs (c.2 - cell.2) <= Z.of_nat k)%Z.
Proof.
  induction n as [|n IH]; intros abs_da abs_db error_b offset_a offset_b cell k c Hu Hk.
  - destruct k as [|k]; simpl in Hk; [| discriminate].
    injection Hk as <-. split; [lia |]. split; lia.
  - simpl in Hk. destruct Hu as (Ha1 & Ha2 & Hb1 & Hb2).
    destruct (_ <=? _)%Z; destruct k as [|k]; simpl in Hk;
      try (injection Hk as <-; split; [lia |]; split; lia);
      apply IH in Hk as (Hkn & H1 & H2); try (repeat split; assumption);
      unfold move in H1, H2; simpl in H1, H2; split; try lia; split; lia.
Qed.

Lemma line_cells_steps x0 y0 x1 y1 :
  unit_steps (Z.sgn (x1 - x0), 0%Z) (0%Z, Z.sgn (y1 - y0))
  /\ unit_steps (0%Z, Z.sgn (y1 - y0)) (Z.sgn (x1 - x0), 0%Z).
Proof. unfold unit_steps; simpl. split; lia. Qed.

(** The k-th cell that [raytraceLine] visits with the cap [max_length]:
    k is no more than the cap, and the cell is k columns and k rows from
    (x0, y0) at most. *)
Lemma line_cells_lookup x0 y0 x1 y1 max_length k c :
  line_cells x0 y0 x1 y1 max_length !! k = Some c ->
  (Z.of_nat k <= Z.max 0 max_length)%Z /\
  (Z.abs (c.1 - x0) <= Z.of_nat k)%Z /\ (Z.abs (c.2 - y0) <= Z.of_nat k)%Z.
Proof.
  unfold line_cells. destruct (line_cells_steps x0 y0 x1 y1) as [Hx Hy].
  destruct (_ <=? _)%Z; intros Hk;
    apply bresenham2D_lookup in Hk as (Hkn & H1 & H2); try assumption;
    simpl in H1, H2; split; try lia; split; assumption.
Qed.

Lemma line_cells_length x0 y0 x1 y1 max_length :
  (length (line_cells x0 y0 x1 y1 max_length) <= S (Z.to_nat max_length))%nat.
Proof. unfold line_cells. destruct (_ <=? _)%Z; rewrite bresenham2D_length; lia. Qed.

(** The k-th cell of a line: k steps along the dominant axis, and j steps
    along the other one, where j is what the error term has counted. *)
Lemma bresenham2D_cell n : forall abs_da abs_db error_b offset_a offset_b cell k c,
  (0 <= abs_db <= abs_da)%Z -> (0 <= error_b < abs_da)%Z ->
  bresenham2D n abs_da abs_db error_b offset_a offset_b cell !! k = Some c ->
  exists j e : Z,
    (0 <= j)%Z /\ (0 <= e < abs_da)%Z
    /\ (j * abs_da + e = error_b + Z.of_nat k * abs_db)%Z
    /\ c = ((cell.1 + Z.of_nat k * offset_a.1 + j * offset_b.1)%Z,
            (cell.2 + Z.of_nat k * offset_a.2 + j * offset_b.2)%Z).
Proof.
  induction n as [|n IH]; intros abs_da abs_db error_b offset_a offset_b cell k c Hab He Hk.
  - destruct k as [|k]; simpl in Hk; [| discriminate].
    injection Hk as <-. exists 0%Z, error_b.
    split; [lia |]. split; [lia |]. split; [lia |].
    destruct cell as [cx cy]; simpl. f_equal; lia.
  - simpl in Hk.
    destruct (abs_da <=? error_b + abs_db)%Z eqn:Hstep;
      [apply Z.leb_le in Hstep | apply Z.leb_gt in Hstep];
      (destruct k as [|k]; simpl in Hk;
       [ injection Hk as <-; exists 0%Z, error_b;
         split; [lia |]; split; [lia |]; split; [lia |];
         destruct cell as [cx cy]; simpl; f_equal; lia
       | apply IH in Hk as (j & e & Hj & Hee & Hsum & ->); [| lia | lia] ]).
    + exists (j + 1)%Z, e. split; [lia |]. split; [lia |]. split; [lia |].
      unfold move; simpl. f_equal; lia.
    + exists j, e. split; [lia |]. split; [lia |]. split; [lia |].
      unfold move; simpl. f_equal; lia.
Qed.

(** A line stays in the box of its two ends. *)
Lemma line_cells_in_box x0 y0 x1 y1 max_length c :
  c ∈ line_cells x0 y0 x1 y1 max_length ->
  (Z.min x0 x1 <= c.1 <= Z.max x0 x1)%Z /\ (Z.min y0 y1 <= c.2 <= Z.max y0 y1)%Z.
Proof.
  intros Hc. apply list_elem_of_lookup in Hc as [k Hk].
  unfold line_cells in Hk.
  destruct (Z.abs (y1 - y0) <=? Z.abs (x1 - x0))%Z eqn:Hdom;
    [apply Z.leb_le in Hdom | apply Z.leb_gt in Hdom].
  - destruct (Z.eq_dec (Z.abs (x1 - x0)) 0%Z) as [Hz | Hnz].
    + rewrite Hz in Hk. replace (Z.to_nat (Z.min max_length 0)) with 0%nat in Hk by lia.
      destruct k as [|k]; simpl in Hk; [| discriminate]. injection Hk as <-. simpl. lia.
    + pose proof Hk as Hk'.
      apply bresenham2D_lookup in Hk' as (Hkn & _); [| apply line_cells_steps].
      apply bresenham2D_cell in Hk as (j & e & Hj & He & Hsum & ->);
        [| lia | split; [apply Z.div_pos; lia | apply Z.div_lt_upper_bound; lia]].
      assert (Hhalf : (Z.abs (x1 - x0) / 2 < Z.abs (x1 - x0))%Z)
        by (apply Z.div_lt_upper_bound; lia).
      assert (Hk1 : (Z.of_nat k <= Z.abs (x1 - x0))%Z) by lia.
      assert (Hj1 : (j <= Z.abs (y1 - y0))%Z) by nia.
      simpl. split; nia.
  - pose proof Hk as Hk'.
    apply bresenham2D_lookup in Hk' as (Hkn & _); [| apply line_cells_steps].
    apply bresenham2D_cell in Hk as (j & e & Hj & He & Hsum & ->);
      [| lia | split; [apply Z.div_pos; lia | apply Z.div_lt_upper_bound; lia]].
    assert (Hhalf : (Z.abs (y1 - y0) / 2 < Z.abs (y1 - y0))%Z)
      by (apply Z.div_lt_upper_bound; lia).
    assert (Hk1 : (Z.of_nat k <= Z.abs (y1 - y0))%Z) by lia.
    assert (Hj1 : (j <= Z.abs (x1 - x0))%Z) by nia.
    simpl. split; nia.
Qed.

(** A cell of the grid that [raytraceFreespace] changes is a cell of a
    traced line, within the cap. *)
Lemma raytraceFreespace_changed obs s cx cy :
  well_formed s.1 -> (0 <= cx < size_x_ s.1)%Z -> (0 <= cy < size_y_ s.1)%Z ->
  cell_at (costmap_ (raytraceFreespace obs s).1) (getIndex s.1 cx cy)
  = cell_at (costmap_ s.1) (getIndex s.1 cx cy)
  \/ (cell_at (costmap_ (raytraceFreespace obs s).1) (getIndex s.1 cx cy) = Some FREE_SPACE
      /\ exists x0 y0,
           worldToMap s.1 (px (origin_ obs)) (py (origin_ obs)) = Some (x0, y0)
           /\ on_capped_line s.1 obs x0 y0 (cx, cy)
           /\ (cell_gap (cx, cy) (x0, y0)
               <= Z.max 0 (Zround (raytrace_range_ obs / resolution_ s.1)))%Z).
Proof.
  intros Hwf Hcx Hcy.
  rewrite (raytraceFreespace_writes s.1 obs s (same_geometry_refl _)).
  cbn [apply_writes fst costmap_ with_costmap].
  destruct (decide (getIndex s.1 cx cy ∈ traced_indices s.1 [obs])) as [Hin | Hout];
    [right | left; apply write_all_out, Hout].
  destruct (getIndex_in_range s.1 cx cy Hwf Hcx Hcy) as [H0 Hlt].
  destruct (lookup_lt_is_Some_2 _ _ Hlt) as [old Hold].
  split.
  { apply (write_all_in _ _ _ _ old Hin).
    unfold cell_at. rewrite (proj2 (Z.ltb_ge _ _) H0). exact Hold. }
  apply traced_indices_elem in Hin
    as (obs' & x0 & y0 & p & wx & wy & x1 & y1 & cell
        & Hobs & Ho & Hp & Hclip & Hw & Hcell & Hindex).
  apply list_elem_of_singleton in Hobs as ->.
  pose proof Hwf as (_ & _ & Hres & _).
  apply (worldToMap_Some _ _ _ _ _ Hres) in Ho as Ho'.
  apply (worldToMap_Some _ _ _ _ _ Hres) in Hw as Hw'.
  destruct Ho' as (Hx0 & Hy0 & _), Hw' as (Hx1 & Hy1 & _).
  destruct (line_cells_in_box _ _ _ _ _ _ Hcell) as [Hbx Hby].
  assert (Hsame : cell.1 = cx /\ cell.2 = cy)
    by (apply (getIndex_inj s.1); [lia | lia | exact Hindex]).
  destruct cell as [c1 c2]; cbn [fst snd] in Hsame. destruct Hsame as [-> ->].
  apply list_elem_of_lookup in Hcell as [k Hk].
  destruct (line_cells_lookup _ _ _ _ _ _ _ Hk) as (Hcap & Hdx & Hdy).
  cbn [fst snd] in Hdx, Hdy.
  exists x0, y0. split; [exact Ho |]. split.
  - exists p, wx, wy, x1, y1, k. auto.
  - unfold cell_gap; cbn [fst snd]. unfold cellDistance in Hcap. lia.
Qed.

(** C6.  The maximum length of a traced line is the raytrace range of the
    observation divided by the resolution, rounded; a line visits no more
    cells than that after its first cell, its k-th cell lying k columns and
    k rows from the first at most.  A cell of the grid that
    [raytraceFreespace] changes is set to FREE_SPACE and is, for the cell
    (x0, y0) of the sensor origin, the k-th cell of the line to the cell of
    the clipped endpoint of a ray, for a k <= round (raytrace_range /
    resolution); so a cell of the grid that lies more cells than that from
    (x0, y0) keeps its value. *)
Theorem C6_raytrace_range_cap :
  (forall g range, cellDistance g range = Zround (range / resolution_ g))
  /\ (forall x0 y0 x1 y1 max_length,
        (length (line_cells x0 y0 x1 y1 max_length) <= S (Z.to_nat max_length))%nat)
  /\ (forall x0 y0 x1 y1 max_length k c,
        line_cells x0 y0 x1 y1 max_length !! k = Some c ->
        (Z.of_nat k <= Z.max 0 max_length)%Z /\
        (Z.abs (c.1 - x0) <= Z.of_nat k)%Z /\ (Z.abs (c.2 - y0) <= Z.of_nat k)%Z)
  /\ (forall obs s cx cy,
        well_formed s.1 -> (0 <= cx < size_x_ s.1)%Z -> (0 <= cy < size_y_ s.1)%Z ->
        cell_at (costmap_ (raytraceFreespace obs s).1) (getIndex s.1 cx cy)
        = cell_at (costmap_ s.1) (getIndex s.1 cx cy)
        \/ (cell_at (costmap_ (raytraceFreespace obs s).1) (getIndex s.1 cx cy)
            = Some FREE_SPACE
            /\ exists x0 y0,
                 worldToMap s.1 (px (origin_ obs)) (py (origin_ obs)) = Some (x0, y0)
                 /\ on_capped_line s.1 obs x0 y0 (cx, cy)
                 /\ (cell_gap (cx, cy) (x0, y0)
                     <= Z.max 0 (Zround (raytrace_range_ obs / resolution_ s.1)))%Z))
  /\ (forall obs s x0 y0 cx cy,
        well_formed s.1 -> (0 <= cx < size_x_ s.1)%Z -> (0 <= cy < size_y_ s.1)%Z ->
        worldToMap s.1 (px (origin_ obs)) (py (origin_ obs)) = Some (x0, y0) ->
        (Z.max 0 (Zround (raytrace_range_ obs / resolution_ s.1))
         < cell_gap (cx, cy) (x0, y0))%Z ->
        cell_at (costmap_ (raytraceFreespace obs s).1) (getIndex s.1 cx cy)
        = cell_at (costmap_ s.1) (getIndex s.1 cx cy)).
Proof.
  split; [reflexivity |].
  split; [apply line_cells_length |].
  split; [apply line_cells_lookup |].
  split; [apply raytraceFreespace_changed |].
  intros obs s x0 y0 cx cy Hwf Hcx Hcy Ho Hfar.
  destruct (raytraceFreespace_changed obs s cx cy Hwf Hcx Hcy)
    as [Heq | (_ & x0' & y0' & Ho' & _ & Hnear)]; [exact Heq |].
  rewrite Ho in Ho'. injection Ho' as <- <-. lia.
Qed.

(** C6 on [grid10] with [obs_short_range]: the hit point is in cell (9, 5)
    and the range is 2 cells, so cell (8, 5), 3 cells from the sensor, keeps
    its value. *)
Lemma C6_witness :
  cell_at (costmap_ (raytraceFreespace obs_short_range (grid10 254, empty_bounds)).1) 58
  = Some 254%Z.
Proof.
  assert (Ho : worldToMap (grid10 254) 5 5 = Some (5%Z, 5%Z))
    by (apply grid10_cell; simpl; try lia; lra).
  assert (Hcap : Zround (2 / 1) = 2%Z) by apply (grid10_cellDistance 254 2).
  apply (proj2 (proj2 (proj2 (proj2 C6_raytrace_range_cap)))
           obs_short_range (grid10 254, empty_bounds) 5%Z 5%Z 8%Z 5%Z).
  - apply grid10_well_formed.
  - simpl; lia.
  - simpl; lia.
  - exact Ho.
  - cbn [fst raytrace_range_ obs_short_range resolution_ grid10]. rewrite Hcap.
    unfold cell_gap; simpl; lia.
Defined.

(** ** Clipping a ray to the map *)

(** A hit point in the closed rectangle of the map is not clipped. *)
Lemma clip_ray_inside origin_x origin_y end_x end_y ox oy wx wy :
  origin_x <= wx <= end_x -> origin_y <= wy <= end_y ->
  clip_ray origin_x origin_y end_x end_y ox oy wx wy = Some (wx, wy).
Proof.
  intros; unfold clip_ray, clip_min_x, clip_min_y, clip_max_x, clip_max_y; simpl.
  real_run. reflexivity.
Qed.




Section Clipping.
(** A sensor origin inside the map, and any hit point. *)
Variables origin_x origin_y end_x end_y ox oy hx hy : R.
Hypothesis Hox : origin_x <= ox < end_x.
Hypothesis Hoy : origin_y <= oy < end_y.

Let a := hx - ox.
Let b := hy - oy.

(** Below the origin of the map in x: [a] is negative, and the ray is cut
    where it crosses x = origin_x. *)
Lemma clip_min_x_ok :
  exists w t, clip_min_x origin_x ox oy a b (hx, hy) = Some w
              /\ on_ray ox oy a b t w /\ origin_x <= w.1.
Proof using Hox.
  unfold clip_min_x; cbn [fst snd].
  destruct (Rltb hx origin_x) eqn:Hlt.
  - apply Rltb_spec in Hlt. assert (Ha : a < 0) by (unfold a; lra).
    rewrite div_some by lra. exists (origin_x, oy + b * ((origin_x - ox) / a)), ((origin_x - ox) / a).
    assert (Ht : (origin_x - ox) / a * a = origin_x - ox) by (field; lra).
    set (t := (origin_x - ox) / a) in *.
    split; [reflexivity |]. unfold on_ray; cbn [fst snd].
    assert (0 <= t) by nra. assert (t <= 1) by (unfold a in *; nra).
    repeat split; try lra.
  - apply Rltb_nlt in Hlt. exists (hx, hy), 1.
    split; [reflexivity |]. unfold on_ray, a, b; cbn [fst snd].
    repeat split; lra.
Qed.

(** Below the origin of the map in y: [b] is negative. *)
Lemma clip_min_y_ok w t :
  on_ray ox oy a b t w -> origin_x <= w.1 ->
  exists w' t', clip_min_y origin_y ox oy a b w = Some w'
                /\ on_ray ox oy a b t' w' /\ origin_x <= w'.1 /\ origin_y <= w'.2.
Proof using Hox Hoy.
  intros ([Ht0 Ht1] & Hw1 & Hw2) Hx. unfold clip_min_y.
  destruct (Rltb w.2 origin_y) eqn:Hlt.
  - apply Rltb_spec in Hlt. rewrite Hw2 in Hlt.
    assert (Hb : b < 0) by nra.
    rewrite div_some by lra.
    exists (ox + a * ((origin_y - oy) / b), origin_y), ((origin_y - oy) / b).
    assert (Hq : (origin_y - oy) / b * b = origin_y - oy) by (field; lra).
    set (t' := (origin_y - oy) / b) in *.
    split; [reflexivity |]. unfold on_ray; cbn [fst snd].
    assert (0 <= t') by nra. assert (t' <= t) by nra.
    assert (origin_x <= ox + a * t').
    { rewrite Hw1 in Hx. destruct (Rle_dec 0 a); nra. }
    repeat split; lra.
  - apply Rltb_nlt in Hlt. exists w, t.
    split; [reflexivity |]. unfold on_ray. repeat split; lra.
Qed.

(** Beyond the end of the map in x: [a] is positive; x is set just inside
    the end of the map, and y is taken where the ray crosses x = end_x. *)
Lemma clip_max_x_ok w t :
  on_ray ox oy a b t w -> origin_x <= w.1 -> origin_y <= w.2 ->
  exists w' t', clip_max_x end_x ox oy a b w = Some w'
                /\ 0 <= t' <= 1 /\ w'.2 = oy + b * t' /\ origin_y <= w'.2
                /\ ((w'.1 = ox + a * t' /\ origin_x <= w'.1 <= end_x)
                    \/ (w'.1 = end_x - 1 / 1000 /\ 0 < a /\ ox + a * t' = end_x)).
Proof using Hox Hoy.
  intros ([Ht0 Ht1] & Hw1 & Hw2) Hx Hy. unfold clip_max_x.
  destruct (Rltb end_x w.1) eqn:Hlt.
  - apply Rltb_spec in Hlt. rewrite Hw1 in Hlt.
    assert (Ha : 0 < a) by nra.
    rewrite div_some by lra.
    exists (end_x - 1 / 1000, oy + b * ((end_x - ox) / a)), ((end_x - ox) / a).
    assert (Hq : (end_x - ox) / a * a = end_x - ox) by (field; lra).
    set (t' := (end_x - ox) / a) in *.
    split; [reflexivity |]. cbn [fst snd].
    assert (0 <= t') by nra. assert (t' <= t) by nra.
    assert (origin_y <= oy + b * t').
    { rewrite Hw2 in Hy. destruct (Rle_dec 0 b); nra. }
    split; [lra |]. split; [reflexivity |]. split; [assumption |].
    right. repeat split; lra.
  - apply Rltb_nlt in Hlt. exists w, t.
    split; [reflexivity |]. split; [lra |]. split; [assumption |].
    split; [assumption |]. left. repeat split; lra.
Qed.

(** Beyond the end of the map in y: [b] is positive. *)
Lemma clip_max_y_ok w t :
  0 <= t <= 1 -> w.2 = oy + b * t -> origin_y <= w.2 ->
  (w.1 = ox + a * t /\ origin_x <= w.1 <= end_x)
  \/ (w.1 = end_x - 1 / 1000 /\ 0 < a /\ ox + a * t = end_x) ->
  exists w', clip_max_y end_y ox oy a b w = Some w'
             /\ (origin_x <= end_x - 1 / 1000 -> origin_x <= w'.1 <= end_x)
             /\ (origin_y <= end_y - 1 / 1000 -> origin_y <= w'.2 <= end_y).
Proof using Hox Hoy.
  intros [Ht0 Ht1] Hw2 Hy Hw1. unfold clip_max_y.
  destruct (Rltb end_y w.2) eqn:Hlt.
  - apply Rltb_spec in Hlt. rewrite Hw2 in Hlt.
    assert (Hb : 0 < b) by nra.
    rewrite div_some by lra.
    exists (ox + a * ((end_y - oy) / b), end_y - 1 / 1000).
    assert (Hq : (end_y - oy) / b * b = end_y - oy) by (field; lra).
    set (t' := (end_y - oy) / b) in *.
    split; [reflexivity |]. cbn [fst snd].
    assert (0 <= t') by nra. assert (t' <= t) by nra.
    split; [intros _ | intros; lra].
    destruct Hw1 as [(Hw1 & Hlo & Hhi) | (_ & Ha & Hend)].
    + rewrite Hw1 in Hlo, Hhi. destruct (Rle_dec 0 a); split; nra.
    + split; nra.
  - apply Rltb_nlt in Hlt. exists w.
    split; [reflexivity |]. split; [| intros; lra].
    intros Hwide. destruct Hw1 as [(_ & Hlo & Hhi) | (-> & _ & _)]; lra.
Qed.

(** The clipping never divides by zero, and on a map that is a thousandth
    wide and high it ends in the closed rectangle of the map. *)
Lemma clip_ray_total :
  exists wx wy,
    clip_ray origin_x origin_y end_x end_y ox oy hx hy = Some (wx, wy)
    /\ (origin_x <= end_x - 1 / 1000 -> origin_x <= wx <= end_x)
    /\ (origin_y <= end_y - 1 / 1000 -> origin_y <= wy <= end_y).
Proof using Hox Hoy.
  unfold clip_ray. fold a b.
  destruct clip_min_x_ok as (w1 & t1 & -> & Hr1 & Hx1).
  destruct (clip_min_y_ok w1 t1 Hr1 Hx1) as (w2 & t2 & E2 & Hr2 & Hx2 & Hy2).
  destruct (clip_max_x_ok w2 t2 Hr2 Hx2 Hy2) as (w3 & t3 & E3 & Ht3 & Hw3 & Hy3 & Hc3).
  destruct (clip_max_y_ok w3 t3 Ht3 Hw3 Hy3 Hc3) as ([wx wy] & E4 & Hbx & Hby).
  exists wx, wy. cbn [mbind option_bind]. rewrite E2; cbn [mbind option_bind].
  rewrite E3; cbn [mbind option_bind]. rewrite E4. auto.
Qed.

(** On a map that is a thousandth wide and high. *)
Hypothesis Hwide : origin_x <= end_x - 1 / 1000.
Hypothesis Hhigh : origin_y <= end_y - 1 / 1000.

End Clipping.





(** ** The bounds of a ray *)

Lemma hypot_nonneg dx dy : 0 <= hypot dx dy.
Proof. apply sqrt_pos. Qed.

Lemma hypot_zero dx dy : hypot dx dy = 0 -> dx = 0 /\ dy = 0.
Proof.
  unfold hypot; intros H0. apply sqrt_eq_0 in H0; [| nra]. split; nra.
Qed.

Lemma hypot_axis dx dy : dy = 0 -> 0 <= dx -> hypot dx dy = dx.
Proof.
  intros -> Hdx; unfold hypot. replace (dx * dx + 0 * 0) with (dx * dx) by ring.
  apply sqrt_square, Hdx.
Qed.

Lemma hypot_scale dx dy k : 0 <= k -> hypot (dx * k) (dy * k) = k * hypot dx dy.
Proof.
  intros Hk; unfold hypot.
  replace (dx * k * (dx * k) + dy * k * (dy * k)) with (k * k * (dx * dx + dy * dy)) by ring.
  rewrite sqrt_mult by nra. rewrite sqrt_square by exact Hk. reflexivity.
Qed.

(** The scale of [updateRaytraceBounds] on a ray of positive length. *)
Lemma scale_bounds range d :
  0 < d -> 0 <= range ->
  0 <= Rmin 1 (range / d) <= 1 /\ Rmin 1 (range / d) * d <= range
  /\ (d <= range -> Rmin 1 (range / d) = 1).
Proof.
  intros Hd Hr.
  assert (Hq : range / d * d = range) by (field; lra).
  assert (Hpos : 0 <= range / d).
  { apply Rmult_le_pos; [exact Hr |]. left; apply Rinv_0_lt_compat, Hd. }
  unfold Rmin; destruct (Rle_dec 1 (range / d)) as [Hle | Hgt].
  - repeat split; try lra. nra.
  - repeat split; try lra. intros Hdr. exfalso; apply Hgt. nra.
Qed.

(** A ray no longer than the range is touched at its own endpoint. *)
Lemma updateRaytraceBounds_in_range ox oy wx wy range b :
  hypot (wx - ox) (wy - oy) <= range ->
  updateRaytraceBounds ox oy wx wy range b = touch wx wy b.
Proof.
  intros Hd; unfold updateRaytraceBounds.
  pose proof (hypot_nonneg (wx - ox) (wy - oy)) as H0.
  destruct (Req_dec_T (hypot (wx - ox) (wy - oy)) 0) as [Hz | Hnz].
  - apply hypot_zero in Hz as [Hx Hy]. f_equal; nra.
  - destruct (scale_bounds range (hypot (wx - ox) (wy - oy))) as (_ & _ & ->);
      try lra.
    f_equal; ring.
Qed.

(** The endpoint that [updateRaytraceBounds] touches is no farther than
    the range from the origin. *)
Lemma updateRaytraceBounds_endpoint ox oy wx wy range :
  0 <= range ->
  let scale := Rmin 1 (range / hypot (wx - ox) (wy - oy)) in
  hypot (ox + (wx - ox) * scale - ox) (oy + (wy - oy) * scale - oy) <= range.
Proof.
  intros Hr scale.
  replace (ox + (wx - ox) * scale - ox) with ((wx - ox) * scale) by ring.
  replace (oy + (wy - oy) * scale - oy) with ((wy - oy) * scale) by ring.
  pose proof (hypot_nonneg (wx - ox) (wy - oy)) as H0.
  destruct (Req_dec_T (hypot (wx - ox) (wy - oy)) 0) as [Hz | Hnz].
  - apply hypot_zero in Hz as [-> ->]. rewrite !Rmult_0_l.
    rewrite (hypot_axis 0 0) by lra. exact Hr.
  - destruct (scale_bounds range (hypot (wx - ox) (wy - oy))) as ([Hs0 _] & Hsd & _);
      try lra.
    fold scale in Hs0, Hsd. rewrite hypot_scale by exact Hs0. exact Hsd.
Qed.

(** The endpoint that a ray touches lies between the origin and the clipped
    endpoint. *)
Lemma raytrace_endpoint_between ox oy wx wy range :
  0 <= range ->
  exists t, 0 <= t <= 1
            /\ raytrace_endpoint ox oy wx wy range
               = (ox + (wx - ox) * t, oy + (wy - oy) * t).
Proof.
  intros Hr. unfold raytrace_endpoint.
  pose proof (hypot_nonneg (wx - ox) (wy - oy)) as H0.
  destruct (Req_dec_T (hypot (wx - ox) (wy - oy)) 0) as [Hz | Hnz].
  - exists 0. split; [lra |]. apply hypot_zero in Hz as [-> ->].
    f_equal; ring.
  - exists (Rmin 1 (range / hypot (wx - ox) (wy - oy))).
    destruct (scale_bounds range (hypot (wx - ox) (wy - oy))) as (Hs & _); try lra.
    split; [exact Hs | reflexivity].
Qed.

(** C2 (amended).  For a sensor on a map at least a thousandth wide and
    high, every hit point has a clipped endpoint (wx, wy) in the closed
    rectangle of the map, which is the hit point exactly when the hit point
    lies in that rectangle.  When the ray is raytraced, that is, when
    (wx, wy) converts to a cell, the bounds update touches the endpoint of
    the ray from the origin to that clipped endpoint, scaled by
    min (1, raytrace_range / length): the rectangle holds that point, which
    for a non-negative raytrace range is no farther than the range from the
    origin and lies on the map, and which is (wx, wy) itself when the
    clipped ray is no longer than the range. *)
Theorem C2_bounds_touch_scaled_clipped_ray
    (ox oy : R) (x0 y0 : Z) (range : R) (s : Costmap2D * Bounds) (p : Point) :
  0 < resolution_ s.1 ->
  worldToMap s.1 ox oy = Some (x0, y0) ->
  1 / 1000 <= IZR (size_x_ s.1) * resolution_ s.1 ->
  1 / 1000 <= IZR (size_y_ s.1) * resolution_ s.1 ->
  exists wx wy,
    clip_ray (origin_x_ s.1) (origin_y_ s.1) (map_end_x s.1) (map_end_y s.1)
      ox oy (px p) (py p) = Some (wx, wy)
    /\ in_map s.1 (wx, wy)
    /\ ((wx, wy) = (px p, py p) <-> in_map s.1 (px p, py p))
    /\ forall x1 y1,
         worldToMap s.1 wx wy = Some (x1, y1) ->
         let s' := raytrace_point ox oy x0 y0 (origin_x_ s.1) (origin_y_ s.1)
                     (map_end_x s.1) (map_end_y s.1) range s p in
         let scale := Rmin 1 (range / hypot (wx - ox) (wy - oy)) in
         let ex := ox + (wx - ox) * scale in
         let ey := oy + (wy - oy) * scale in
         s'.2 = touch ex ey s.2
         /\ (min_x s'.2 <= ex <= max_x s'.2 /\ min_y s'.2 <= ey <= max_y s'.2)
         /\ (0 <= range -> hypot (ex - ox) (ey - oy) <= range /\ in_map s.1 (ex, ey))
         /\ (hypot (wx - ox) (wy - oy) <= range -> s'.2 = touch wx wy s.2).
Proof.
  intros Hres Ho Hwide Hhigh.
  destruct (worldToMap_origin_in_map s.1 ox oy x0 y0 Hres Ho) as [Hox Hoy].
  destruct (clip_ray_total (origin_x_ s.1) (origin_y_ s.1) (map_end_x s.1) (map_end_y s.1)
              ox oy (px p) (py p) Hox Hoy) as (wx & wy & Hclip & Hbx & Hby).
  assert (Hx : origin_x_ s.1 <= wx <= map_end_x s.1) by (apply Hbx; unfold map_end_x; lra).
  assert (Hy : origin_y_ s.1 <= wy <= map_end_y s.1) by (apply Hby; unfold map_end_y; lra).
  exists wx, wy. split; [exact Hclip |]. split; [split; assumption |]. split.
  - split.
    + intros [= <- <-]. split; assumption.
    + intros [Hpx Hpy]. cbn [fst snd] in Hpx, Hpy.
      rewrite clip_ray_inside in Hclip by assumption. congruence.
  - intros x1 y1 Hw s' scale ex ey. subst s'.
    rewrite (raytrace_point_traced _ _ _ _ _ _ _ _ _ _ _ wx wy x1 y1 Hclip Hw).
    cbn [snd].
    split; [reflexivity |].
    split; [apply touch_inside |].
    split; [| apply updateRaytraceBounds_in_range].
    intros Hr. split; [apply updateRaytraceBounds_endpoint, Hr |].
    destruct (raytrace_endpoint_between ox oy wx wy range Hr) as (t & Ht & Het).
    unfold raytrace_endpoint in Het. injection Het as Hex Hey.
    fold scale in Hex, Hey. fold ex in Hex. fold ey in Hey.
    unfold in_map; cbn [fst snd]. rewrite Hex, Hey. split; split; nra.
Qed.

(** The sensor of [grid10] at (5, 5) and a hit point at (20, 5), beyond the
    end of the map: the ray is clipped to (10 - 1/1000, 5), in cell (9, 5). *)
Lemma grid10_clip_beyond : clip_ray 0 0 10 10 5 5 20 5 = Some (10 - 1 / 1000, 5).
Proof.
  unfold clip_ray, clip_min_x, clip_min_y, clip_max_x, clip_max_y; simpl.
  real_run. do 2 f_equal. field.
Qed.

(** A ray parallel to the y axis ([a] is zero) that leaves the map: only
    [b] divides. *)
Example grid10_clip_vertical : clip_ray 0 0 10 10 5 5 5 20 = Some (5, 10 - 1 / 1000).
Proof.
  unfold clip_ray, clip_min_x, clip_min_y, clip_max_x, clip_max_y; simpl.
  real_run. do 2 f_equal. field.
Qed.

Lemma grid10_raytrace_beyond v b :
  raytraceFreespace (obs_at_5_5 (mkPoint 20 5 0)) (grid10 v, b)
  = (raytraceLine (MarkCell FREE_SPACE) (grid10 v) 5 5 9 5 100,
     touch (10 - 1 / 1000) 5 (touch 5 5 b)).
Proof.
  unfold raytraceFreespace;
    cbn [fst snd obs_at_5_5 origin_ px py cloud_ raytrace_range_].
  rewrite (grid10_cell v 5 5 5 5) by (simpl; try lia; lra).
  cbn [foldl].
  rewrite (raytrace_point_traced _ _ _ _ _ _ _ _ _ _ _ (10 - 1 / 1000) 5 9%Z 5%Z).
  - cbn [fst snd]. rewrite (grid10_cellDistance v 100).
    rewrite updateRaytraceBounds_in_range; [reflexivity |].
    rewrite hypot_axis; lra.
  - unfold map_end_x, map_end_y;
      cbn [fst grid10 origin_x_ origin_y_ size_x_ size_y_ resolution_ px py].
    replace (0 + 10 * 1) with 10 by lra. apply grid10_clip_beyond.
  - apply grid10_cell; simpl; try lia; lra.
Qed.

(** The example of the spec: on the 10 x 10 grid, a sensor at (5, 5) and a
    hit point at (9.9, 5) with a raytrace range of 10 clear the cells of the
    row from (5, 5) to (9, 5), and the bounds after it span x from 5 to
    9.9. *)
Example spec_example_raytrace :
  let s' := raytraceFreespace obs_spec_example (grid10 254, empty_bounds) in
  costmap_ s'.1 = replicate 55 254%Z ++ replicate 5 0%Z ++ replicate 40 254%Z
  /\ min_x s'.2 = 5 /\ max_x s'.2 = 99 / 10.
Proof.
  cbv zeta. unfold obs_spec_example.
  rewrite (grid10_raytrace_row 254 (99 / 10) 9 10 0 0 10 empty_bounds)
    by (simpl; try lia; lra).
  cbn [fst snd]. split; [reflexivity |].
  rewrite updateRaytraceBounds_in_range by (rewrite hypot_axis; lra).
  unfold touch, empty_bounds; cbn [min_x max_x].
  rewrite (Rmin_left 5 5), (Rmax_left 5 5) by lra.
  rewrite Rmin_right, Rmax_left by lra. split; reflexivity.
Qed.

(** On [grid10] the sensor at (5, 5), a hit point at (20, 5) and a range
    of 100: the ray is traced up to cell (9, 5); the endpoint of the spec
    is the hit point (20, 5) itself, and the bounds after the ray end at
    x = 10 - 1/1000 and do not hold it. *)
Lemma C2_counterexample :
  let s' := raytraceFreespace (obs_at_5_5 (mkPoint 20 5 0)) (grid10 254, empty_bounds) in
  cell_at (costmap_ s'.1) 59 = Some FREE_SPACE
  /\ spec_scaled_endpoint 5 5 20 5 100 = (20, 5)
  /\ max_x s'.2 = 10 - 1 / 1000
  /\ ~ inside 20 5 s'.2.
Proof.
  cbv zeta. rewrite grid10_raytrace_beyond. cbn [fst snd].
  assert (Hmax : max_x (touch (10 - 1 / 1000) 5 (touch 5 5 empty_bounds)) = 10 - 1 / 1000).
  { unfold touch, empty_bounds; cbn [max_x].
    rewrite (Rmax_left 5 5) by lra. apply Rmax_left; lra. }
  split; [reflexivity |].
  split.
  - unfold spec_scaled_endpoint. rewrite hypot_axis by lra.
    rewrite Rltb_false by lra. reflexivity.
  - split; [exact Hmax |]. unfold inside. rewrite Hmax. lra.
Qed.

(** C2 on that ray: the bounds are touched at the clipped endpoint. *)
Lemma C2_witness :
  (raytrace_point 5 5 5 5 0 0 10 10 100 (grid10 254, touch 5 5 empty_bounds)
     (mkPoint 20 5 0)).2
  = touch (10 - 1 / 1000) 5 (touch 5 5 empty_bounds).
Proof.
  assert (Ho : worldToMap (grid10 254) 5 5 = Some (5%Z, 5%Z))
    by (apply grid10_cell; simpl; try lia; lra).
  assert (Hend : map_end_x (grid10 254) = 10 /\ map_end_y (grid10 254) = 10)
    by (unfold map_end_x, map_end_y; simpl; lra).
  destruct Hend as [Hex Hey].
  destruct (C2_bounds_touch_scaled_clipped_ray 5 5 5 5 100
              (grid10 254, touch 5 5 empty_bounds) (mkPoint 20 5 0)
              (grid10_resolution 254) Ho) as (wx & wy & Hclip & _ & _ & Hray);
    [simpl; lra | simpl; lra |].
  cbn [fst px py] in Hclip. rewrite Hex, Hey in Hclip.
  change (origin_x_ (grid10 254)) with 0 in Hclip.
  change (origin_y_ (grid10 254)) with 0 in Hclip.
  rewrite grid10_clip_beyond in Hclip. injection Hclip as <- <-.
  assert (Hw : worldToMap (grid10 254) (10 - 1 / 1000) 5 = Some (9%Z, 5%Z))
    by (apply grid10_cell; simpl; try lia; lra).
  destruct (Hray 9%Z 5%Z Hw) as (_ & _ & _ & Hin).
  cbn [fst] in Hin. rewrite Hex, Hey in Hin. apply Hin.
  rewrite hypot_axis; lra.
Defined.

(** * Further properties *)

(** ** Static observations *)

Lemma addStaticObservation_marking_elem L obs clearing v :
  obs ∈ (getMarkingObservations (addStaticObservation L obs true clearing) v).1.
Proof.
  rewrite getMarkingObservations_eq; cbn [fst].
  unfold addStaticObservation.
  destruct clearing; cbn [static_marking_observations_ with_static_marking
    with_static_clearing]; rewrite !elem_of_app; right; right; right;
    apply list_elem_of_here.
Qed.

(** X1.  A static observation that is added for marking is the last of the
    marking observations that the getter returns, one added for clearing
    the last of the clearing observations; an observation that is not added
    for a use leaves what the getter of that use returns as it was.  The
    currentness that the getters report is not changed by it. *)
Theorem X1_added_static_observation_is_returned (L : ObstacleLayer)
    (obs : Observation) (marking clearing : bool) (v : list Observation) :
  getMarkingObservations (addStaticObservation L obs marking clearing) v
  = ((getMarkingObservations L v).1 ++ (if marking then [obs] else []),
     (getMarkingObservations L v).2)
  /\ getClearingObservations (addStaticObservation L obs marking clearing) v
     = ((getClearingObservations L v).1 ++ (if clearing then [obs] else []),
        (getClearingObservations L v).2).
Proof.
  rewrite !getMarkingObservations_eq, !getClearingObservations_eq.
  unfold addStaticObservation.
  destruct marking, clearing; cbn [fst snd marking_buffers_ clearing_buffers_
    static_marking_observations_ static_clearing_observations_
    with_static_marking with_static_clearing];
    rewrite ?app_nil_r, <- ?app_assoc; split; reflexivity.
Qed.

(** X2.  After [clearStaticObservations] for a use, the getter of that use
    returns the observations of the buffers and nothing else, whatever was
    added before; the lists of the uses that are not named are kept, and
    clearing after an addition is clearing alone. *)
Theorem X2_cleared_static_observations (L : ObstacleLayer)
    (obs : Observation) (marking clearing : bool) (v : list Observation) :
  (getMarkingObservations (clearStaticObservations L true clearing) v).1
  = v ++ (marking_buffers_ L ≫= getObservations)
  /\ (getClearingObservations (clearStaticObservations L marking true) v).1
     = v ++ (clearing_buffers_ L ≫= getObservations)
  /\ getMarkingObservations (clearStaticObservations L false clearing) v
     = getMarkingObservations L v
  /\ getClearingObservations (clearStaticObservations L marking false) v
     = getClearingObservations L v
  /\ clearStaticObservations (addStaticObservation L obs marking clearing)
       marking clearing
     = clearStaticObservations L marking clearing.
Proof.
  rewrite !getMarkingObservations_eq, !getClearingObservations_eq.
  unfold clearStaticObservations, addStaticObservation.
  destruct marking, clearing; cbn [fst snd marking_buffers_ clearing_buffers_
    static_marking_observations_ static_clearing_observations_
    with_static_marking with_static_clearing];
    rewrite ?app_nil_r; repeat split; reflexivity.
Qed.

Lemma addStaticObservation_layer `{Costmap2DOps} L obs marking clearing x y :
  enabled_ (addStaticObservation L obs marking clearing) = enabled_ L
  /\ max_obstacle_height_ (addStaticObservation L obs marking clearing)
     = max_obstacle_height_ L
  /\ grid (shift_origin (addStaticObservation L obs marking clearing) x y)
     = grid (shift_origin L x y).
Proof.
  unfold addStaticObservation, shift_origin.
  destruct marking, clearing; cbn; destruct (rolling_window_ L); repeat split.
Qed.

(** X3.  A static observation added for marking is marked by the next
    enabled [updateBounds], whatever the buffers hold and whether or not
    they are current: each of its points that passes the height and range
    tests and converts to a cell leaves that cell LETHAL. *)
Theorem X3_static_marking_observation_is_marked `{Costmap2DOps} (L : ObstacleLayer)
    (obs : Observation) (clearing : bool)
    (robot_x robot_y robot_yaw : R) (b : Bounds) (p : Point) (mx my : Z) :
  enabled_ L = true ->
  well_formed (grid (shift_origin L robot_x robot_y)) ->
  p ∈ cloud_ obs ->
  pz p <= max_obstacle_height_ L ->
  sq_dist obs p < obstacle_range_ obs * obstacle_range_ obs ->
  worldToMap (grid (shift_origin L robot_x robot_y)) (px p) (py p) = Some (mx, my) ->
  cell_at
    (costmap_ (grid (updateBounds (addStaticObservation L obs true clearing)
                       robot_x robot_y robot_yaw b).1))
    (getIndex (grid (shift_origin L robot_x robot_y)) mx my)
  = Some LETHAL_OBSTACLE.
Proof.
  intros Hon Hwf Hp Hz Hd Hw.
  set (L' := addStaticObservation L obs true clearing).
  destruct (addStaticObservation_layer L obs true clearing robot_x robot_y)
    as (He & Hh & Hg). fold L' in He, Hh, Hg.
  assert (Hon' : enabled_ L' = true) by congruence.
  destruct (updateBounds_grid L' robot_x robot_y robot_yaw b Hon') as [-> _].
  rewrite Hg, Hh. unfold clear_then_mark.
  set (s1 := foldl (fun s o => raytraceFreespace o s) _ _).
  assert (Hgeo : same_geometry (grid (shift_origin L robot_x robot_y)) s1.1)
    by apply (clearing_geometry _ (_, _)).
  rewrite (getIndex_geometry _ _ mx my Hgeo).
  rewrite (worldToMap_geometry _ _ _ _ Hgeo) in Hw.
  eapply marking_marks; eauto using well_formed_geometry.
  apply addStaticObservation_marking_elem.
Qed.

(** X3 on [stale_layer], whose only buffer is stale: the static observation
    with the hit point (7, 5, 0) leaves cell 57 LETHAL. *)
Lemma X3_witness :
  cell_at
    (costmap_ (grid (@updateBounds sample_ops
                       (addStaticObservation stale_layer (obs_at_5_5 (mkPoint 7 5 0))
                          true false) 5 5 0 empty_bounds).1)) 57
  = Some LETHAL_OBSTACLE.
Proof.
  apply (@X3_static_marking_observation_is_marked sample_ops stale_layer
           (obs_at_5_5 (mkPoint 7 5 0)) false 5 5 0 empty_bounds (mkPoint 7 5 0) 7 5).
  - reflexivity.
  - apply grid10_well_formed.
  - simpl. apply list_elem_of_here.
  - simpl; lra.
  - unfold sq_dist; simpl; lra.
  - apply (grid10_cell 0); simpl; try lia; lra.
Defined.

(** X4.  When a marking buffer is stale, an enabled [updateBounds] raytraces
    nothing: the clearing getter is not called, the grid that is returned is
    the grid of the shifted layer after the marking loop alone, whatever the
    clearing buffers and the static clearing observations hold, and
    [current_] is false. *)
Theorem X4_stale_marking_buffer_stops_raytracing `{Costmap2DOps} (L : ObstacleLayer)
    (robot_x robot_y robot_yaw : R) (b : Bounds) :
  enabled_ L = true ->
  forallb isCurrent (marking_buffers_ L) = false ->
  grid (updateBounds L robot_x robot_y robot_yaw b).1
  = (foldl (mark_observation (max_obstacle_height_ L))
       (grid (shift_origin L robot_x robot_y),
        (useExtraBounds (shift_origin L robot_x robot_y) b).2)
       ((marking_buffers_ L ≫= getObservations) ++ static_marking_observations_ L)).1
  /\ current_ (updateBounds L robot_x robot_y robot_yaw b).1 = false.
Proof.
  intros Hon Hstale.
  destruct (updateBounds_grid L robot_x robot_y robot_yaw b Hon) as [-> ->].
  rewrite getMarkingObservations_eq; cbn [fst snd]. rewrite Hstale.
  split; reflexivity.
Qed.

(** X4 on [stale_marking_layer], whose clearing buffer holds the sweep of a
    row: no cell of [grid10] is cleared. *)
Lemma X4_witness :
  grid (@updateBounds sample_ops stale_marking_layer 5 5 0 empty_bounds).1 = grid10 254
  /\ current_ (@updateBounds sample_ops stale_marking_layer 5 5 0 empty_bounds).1 = false.
Proof.
  exact (@X4_stale_marking_buffer_stops_raytracing sample_ops stale_marking_layer
           5 5 0 empty_bounds eq_refl eq_refl).
Defined.

(** ** The footprint *)

Lemma foldl_touch_inside (l : list (R * R)) (v : R * R) : forall b,
  v ∈ l -> inside v.1 v.2 (foldl (fun b p => touch p.1 p.2 b) b l).
Proof.
  intros b Hv. apply list_elem_of_split in Hv as (l1 & l2 & ->).
  rewrite foldl_app; simpl.
  eapply inside_contains; [apply touch_inside |].
  apply (foldl_contains _ (fun b => b)); intros; apply touch_contains.
Qed.

(** X5.  With footprint clearing on, an enabled [updateBounds] stores the
    footprint transformed by the pose it was given, every vertex of it lies in
    the bounds that are returned, and the [updateCosts] that follows fills
    that polygon, of this pose, with FREE_SPACE in the grid of the layer.
    With footprint clearing off the stored footprint is left as it was and
    [updateCosts] changes nothing in the layer. *)
Theorem X5_footprint_of_the_cycle `{Costmap2DOps} (L : ObstacleLayer)
    (robot_x robot_y robot_yaw : R) (b : Bounds)
    (master_grid : Costmap2D) (min_i min_j max_i max_j : Z) :
  enabled_ L = true ->
  let r := updateBounds L robot_x robot_y robot_yaw b in
  (footprint_clearing_enabled_ L = true ->
   transformed_footprint_ r.1
   = transformFootprint robot_x robot_y robot_yaw (getFootprint L)
   /\ (forall v, v ∈ transformFootprint robot_x robot_y robot_yaw (getFootprint L) ->
       min_x r.2 <= v.1 <= max_x r.2 /\ min_y r.2 <= v.2 <= max_y r.2)
   /\ grid (updateCosts r.1 master_grid min_i min_j max_i max_j).1
      = setConvexPolygonCost (grid r.1)
          (transformFootprint robot_x robot_y robot_yaw (getFootprint L)) FREE_SPACE)
  /\ (footprint_clearing_enabled_ L = false ->
      transformed_footprint_ r.1 = transformed_footprint_ L
      /\ (updateCosts r.1 master_grid min_i min_j max_i max_j).1 = r.1).
Proof.
  intros Hon r. subst r.
  destruct (updateBounds_ends_in_footprint L robot_x robot_y robot_yaw b Hon)
    as (Lm & bm & -> & Hf & Hc & Ht & He & Hm).
  unfold updateFootprint. split; intros Hfp; rewrite Hc, Hfp; cbn [negb fst snd].
  - rewrite Hf. split; [reflexivity |]. split.
    + intros v Hv. apply (foldl_touch_inside _ v bm Hv).
    + unfold updateCosts;
        cbn [enabled_ footprint_clearing_enabled_ with_transformed_footprint].
      rewrite He, Hc, Hfp; cbn [negb combination_method_ with_grid
        with_transformed_footprint transformed_footprint_ grid].
      destruct (combination_method_ Lm) as [|[q|q|]|q]; reflexivity.
  - split; [exact Ht |].
    unfold updateCosts. rewrite He, Hc, Hfp; cbn [negb].
    destruct (combination_method_ Lm) as [|[q|q|]|q]; reflexivity.
Qed.

(** X5 on [grid10] at the pose (5, 5, 0), for a layer that clears its
    footprint and for one that does not. *)
Lemma X5_witness :
  transformed_footprint_ (@updateBounds sample_ops footprint_layer 5 5 0 empty_bounds).1
  = @transformFootprint sample_ops 5 5 0 [(1, 0); (0, 1); (-1, 0)]
  /\ transformed_footprint_
       (@updateBounds sample_ops no_footprint_layer 5 5 0 empty_bounds).1 = [(7, 7)].
Proof.
  split.
  - apply (proj1 (@X5_footprint_of_the_cycle sample_ops footprint_layer 5 5 0
                    empty_bounds (grid10 0) 0 0 10 10 eq_refl) eq_refl).
  - apply (proj2 (@X5_footprint_of_the_cycle sample_ops no_footprint_layer 5 5 0
                    empty_bounds (grid10 0) 0 0 10 10 eq_refl) eq_refl).
Defined.

(** ** The value of a cell after the two loops *)

(** X6.  The value of a cell of the array after the raytracing loop and the
    marking loop: LETHAL_OBSTACLE when the marking loop accepts a point in
    it; otherwise FREE_SPACE when it lies on a traced line; otherwise the
    value it had. *)
Theorem X6_cell_after_clearing_and_marking (h : R)
    (clearing_observations observations : list Observation)
    (s : Costmap2D * Bounds) (index old : Z) :
  cell_at (costmap_ s.1) index = Some old ->
  let s' := clear_then_mark h clearing_observations observations s in
  (marked s.1 h observations index ->
   cell_at (costmap_ s'.1) index = Some LETHAL_OBSTACLE)
  /\ (~ marked s.1 h observations index ->
      traced s.1 clearing_observations index ->
      cell_at (costmap_ s'.1) index = Some FREE_SPACE)
  /\ (~ marked s.1 h observations index ->
      ~ traced s.1 clearing_observations index ->
      cell_at (costmap_ s'.1) index = Some old).
Proof.
  intros Hold s'; subst s'. rewrite clear_then_mark_writes; cbn [fst costmap_ with_costmap].
  rewrite <- !marked_indices_elem, <- !traced_indices_elem.
  split; [| split].
  - intros Hm.
    destruct (decide (index ∈ traced_indices s.1 clearing_observations)) as [Ht | Ht].
    + apply (write_all_in _ _ _ _ FREE_SPACE Hm).
      apply (write_all_in _ _ _ _ old Ht Hold).
    + apply (write_all_in _ _ _ _ old Hm). rewrite write_all_out by exact Ht. exact Hold.
  - intros Hm Ht. rewrite write_all_out by exact Hm.
    apply (write_all_in _ _ _ _ old Ht Hold).
  - intros Hm Ht. rewrite !write_all_out by assumption. exact Hold.
Qed.

(** X6 on [grid10] full of LETHAL cells, with the sweep of the row from
    (5, 5) to (9, 5) and a marked point in cell (7, 5): cell 57 is LETHAL,
    cell 56 is FREE and cell 0 keeps its value. *)
Lemma X6_witness :
  let s' := clear_then_mark 2 [obs_at_5_5 (mkPoint 9 5 0)] [obs_at_5_5 (mkPoint 7 5 0)]
              (grid10 254, empty_bounds) in
  cell_at (costmap_ s'.1) 57 = Some LETHAL_OBSTACLE
  /\ cell_at (costmap_ s'.1) 56 = Some FREE_SPACE
  /\ cell_at (costmap_ s'.1) 0 = Some 254%Z.
Proof.
  cbv zeta.
  assert (Hm : forall i, marked (grid10 254) 2 [obs_at_5_5 (mkPoint 7 5 0)] i <-> i = 57%Z).
  { intros i. rewrite <- marked_indices_elem, grid10_marked_indices.
    apply list_elem_of_singleton. }
  assert (Ht : forall i, traced (grid10 254) [obs_at_5_5 (mkPoint 9 5 0)] i
                         <-> i ∈ [55; 56; 57; 58; 59]%Z).
  { intros i. rewrite <- traced_indices_elem, grid10_traced_indices. reflexivity. }
  split; [| split].
  - apply (proj1 (X6_cell_after_clearing_and_marking 2 [obs_at_5_5 (mkPoint 9 5 0)]
                    [obs_at_5_5 (mkPoint 7 5 0)] (grid10 254, empty_bounds) 57 254
                    eq_refl)).
    apply Hm; reflexivity.
  - apply (proj1 (proj2 (X6_cell_after_clearing_and_marking 2
                           [obs_at_5_5 (mkPoint 9 5 0)] [obs_at_5_5 (mkPoint 7 5 0)]
                           (grid10 254, empty_bounds) 56 254 eq_refl))).
    + rewrite Hm; discriminate.
    + apply Ht. apply list_elem_of_further, list_elem_of_here.
  - apply (proj2 (proj2 (X6_cell_after_clearing_and_marking 2
                           [obs_at_5_5 (mkPoint 9 5 0)] [obs_at_5_5 (mkPoint 7 5 0)]
                           (grid10 254, empty_bounds) 0 254 eq_refl))).
    + rewrite Hm; discriminate.
    + rewrite Ht. intros Hin. repeat (apply elem_of_cons in Hin as [Hin | Hin];
        [discriminate |]). inversion Hin.
Defined.

(** ** What the cycle writes, and the order of the observations *)

(** The value of every cell after a run of writes. *)
Lemma write_all_cell v c indices k :
  cell_at (write_all v c indices) k
  = match cell_at c k with
    | None => None
    | Some old => Some (if decide (k ∈ indices) then v else old)
    end.
Proof.
  destruct (cell_at c k) as [old|] eqn:Hk.
  - destruct (decide (k ∈ indices)) as [Hin | Hout].
    + apply (write_all_in _ _ _ _ old Hin Hk).
    + rewrite write_all_out by exact Hout. exact Hk.
  - unfold cell_at in *. destruct (k <? 0)%Z; [reflexivity |].
    apply lookup_ge_None. rewrite length_write_all. apply lookup_ge_None, Hk.
Qed.

(** Two arrays with the same cells are the same array. *)
Lemma cells_eq (c c' : list Z) : (forall k, cell_at c k = cell_at c' k) -> c = c'.
Proof.
  intros Hk. apply list_eq; intros n. specialize (Hk (Z.of_nat n)).
  unfold cell_at in Hk. destruct (Z.of_nat n <? 0)%Z eqn:E; [apply Z.ltb_lt in E; lia |].
  rewrite Nat2Z.id in Hk. exact Hk.
Qed.

(** A run of writes depends on the indices written, not on their order or
    their repetitions. *)
Lemma write_all_same_indices v c i1 i2 :
  (forall k, k ∈ i1 <-> k ∈ i2) -> write_all v c i1 = write_all v c i2.
Proof.
  intros Hi. apply cells_eq; intros k. rewrite !write_all_cell.
  destruct (cell_at c k); [| reflexivity].
  destruct (decide (k ∈ i1)) as [H1 | H1], (decide (k ∈ i2)) as [H2 | H2];
    try reflexivity; exfalso; [apply H2, Hi, H1 | apply H1, Hi, H2].
Qed.

Lemma touch_comm x y x' y' b : touch x y (touch x' y' b) = touch x' y' (touch x y b).
Proof.
  unfold touch; cbn [min_x min_y max_x max_y].
  f_equal; unfold Rmin, Rmax; repeat destruct (Rle_dec _ _); lra.
Qed.

(** A loop whose steps commute gives the same state on a permuted list. *)
Lemma foldl_commuting {S A} (f : S -> A -> S) :
  (forall s a a', f (f s a) a' = f (f s a') a) ->
  forall l l', l ≡ₚ l' -> forall s, foldl f s l = foldl f s l'.
Proof.
  intros Hf l l' Hp. induction Hp as [| a l l' Hp IH | a a' l | l1 l2 l3 H12 IH12 H23 IH23];
    intros s; simpl.
  - reflexivity.
  - apply IH.
  - rewrite Hf. reflexivity.
  - rewrite IH12. apply IH23.
Qed.

Lemma touch_all_perm b points points' :
  points ≡ₚ points' -> touch_all b points = touch_all b points'.
Proof.
  intros Hp. unfold touch_all. apply foldl_commuting; [| exact Hp].
  intros; apply touch_comm.
Qed.

(** X7.  [updateBounds] writes nothing but FREE_SPACE and LETHAL_OBSTACLE:
    the grid it returns has the size, resolution, origin and array length of
    the grid of the shifted layer, and each of its cells holds what that
    grid held, or FREE_SPACE, or LETHAL_OBSTACLE. *)
Theorem X7_updateBounds_writes_free_or_lethal `{Costmap2DOps} (L : ObstacleLayer)
    (robot_x robot_y robot_yaw : R) (b : Bounds) (index : Z) :
  let g0 := grid (shift_origin L robot_x robot_y) in
  let g1 := grid (updateBounds L robot_x robot_y robot_yaw b).1 in
  same_geometry g0 g1
  /\ (cell_at (costmap_ g1) index = cell_at (costmap_ g0) index
      \/ cell_at (costmap_ g1) index = Some FREE_SPACE
      \/ cell_at (costmap_ g1) index = Some LETHAL_OBSTACLE).
Proof.
  cbv zeta. destruct (enabled_ L) eqn:Hon.
  - destruct (updateBounds_grid L robot_x robot_y robot_yaw b Hon) as [-> _].
    set (s := (grid (shift_origin L robot_x robot_y), _)).
    rewrite clear_then_mark_writes. cbn [fst costmap_ with_costmap]. split.
    + apply same_geometry_with_costmap. rewrite !length_write_all. reflexivity.
    + rewrite !write_all_cell. cbn [fst s].
      destruct (cell_at (costmap_ (grid (shift_origin L robot_x robot_y))) index);
        [| left; reflexivity].
      destruct (decide (index ∈ marked_indices _ _ _)); [right; right; reflexivity |].
      destruct (decide (index ∈ traced_indices _ _)); [right; left; reflexivity |].
      left; reflexivity.
  - unfold updateBounds. destruct (shift_origin_layer L robot_x robot_y) as (-> & _).
    rewrite Hon; cbn [negb fst]. split; [apply same_geometry_refl | left; reflexivity].
Qed.

(** X8.  The raytracing loop and the marking loop do not depend on the order
    of the observations: clearing observations in another order and marking
    observations in another order give the same grid and the same bounds. *)
Theorem X8_order_of_observations (h : R)
    (clearing clearing' marking marking' : list Observation)
    (s : Costmap2D * Bounds) :
  clearing ≡ₚ clearing' -> marking ≡ₚ marking' ->
  clear_then_mark h clearing marking s = clear_then_mark h clearing' marking' s.
Proof.
  intros Hc Hm. rewrite !clear_then_mark_writes.
  assert (Hti : traced_indices s.1 clearing ≡ₚ traced_indices s.1 clearing')
    by (unfold traced_indices; apply bind_Permutation, Hc).
  assert (Htp : traced_points s.1 clearing ≡ₚ traced_points s.1 clearing')
    by (unfold traced_points; apply bind_Permutation, Hc).
  assert (Hmi : marked_indices s.1 h marking ≡ₚ marked_indices s.1 h marking')
    by (unfold marked_indices; apply bind_Permutation, Hm).
  assert (Hmp : marked_points s.1 h marking ≡ₚ marked_points s.1 h marking')
    by (unfold marked_points; apply bind_Permutation, Hm).
  f_equal.
  - f_equal.
    rewrite (write_all_same_indices FREE_SPACE _ _ (traced_indices s.1 clearing'))
      by (intros k; rewrite Hti; reflexivity).
    apply write_all_same_indices. intros k; rewrite Hmi; reflexivity.
  - apply touch_all_perm. rewrite Htp, Hmp. reflexivity.
Qed.

(** X8 on [grid10]: two sweeps and two marking observations in either
    order. *)
Lemma X8_witness :
  clear_then_mark 2
    [obs_at_5_5 (mkPoint 9 5 0); obs_at_5_5 (mkPoint 5 9 0)]
    [obs_at_5_5 (mkPoint 7 5 0); obs_at_5_5 (mkPoint 5 7 0)]
    (grid10 254, empty_bounds)
  = clear_then_mark 2
      [obs_at_5_5 (mkPoint 5 9 0); obs_at_5_5 (mkPoint 9 5 0)]
      [obs_at_5_5 (mkPoint 5 7 0); obs_at_5_5 (mkPoint 7 5 0)]
      (grid10 254, empty_bounds).
Proof.
  apply X8_order_of_observations; apply perm_swap.
Defined.

(** X9.  The raytracing of an observation and the marking of an observation
    do not depend on the order of the points of the cloud. *)
Theorem X9_order_of_points (h : R) (obs : Observation) (cloud : list Point)
    (s : Costmap2D * Bounds) :
  cloud_ obs ≡ₚ cloud ->
  raytraceFreespace obs s = raytraceFreespace (with_cloud obs cloud) s
  /\ mark_observation h s obs = mark_observation h s (with_cloud obs cloud).
Proof.
  intros Hp. split.
  - rewrite !(raytraceFreespace_writes s.1 _ s (same_geometry_refl _)).
    unfold traced_indices, traced_points.
    rewrite !bind_cons; simpl; rewrite !app_nil_r.
    destruct (worldToMap s.1 _ _) as [[x0 y0]|]; [| reflexivity].
    unfold apply_writes. f_equal.
    + f_equal. apply write_all_same_indices. intros k.
      assert (Hb : (p ← cloud_ obs; from_option fst [] (ray_effect s.1 obs x0 y0 p))
                   ≡ₚ (p ← cloud;
                        from_option fst [] (ray_effect s.1 (with_cloud obs cloud) x0 y0 p)))
        by (apply (bind_Permutation _ _ _ Hp)).
      rewrite Hb. reflexivity.
    + apply touch_all_perm. constructor.
      apply (omap_Permutation
               (fun p => snd <$> ray_effect s.1 obs x0 y0 p) _ _ Hp).
  - rewrite !(mark_observation_writes s.1 h _ s (same_geometry_refl _)).
    unfold marked_indices, marked_points.
    rewrite !bind_cons; simpl; rewrite !app_nil_r.
    unfold apply_writes. f_equal.
    + f_equal. apply write_all_same_indices. intros k.
      assert (Hb : omap (fun p => fst <$> mark_effect s.1 h obs p) (cloud_ obs)
                   ≡ₚ omap (fun p => fst <$> mark_effect s.1 h (with_cloud obs cloud) p)
                        cloud)
        by (apply (omap_Permutation _ _ _ Hp)).
      rewrite Hb. reflexivity.
    + apply touch_all_perm.
      apply (omap_Permutation (fun p => snd <$> mark_effect s.1 h obs p) _ _ Hp).
Qed.

(** X9 on [grid10]: the two hit points of [obs_two_points] in either
    order. *)
Lemma X9_witness :
  raytraceFreespace obs_two_points (grid10 254, empty_bounds)
  = raytraceFreespace (with_cloud obs_two_points [mkPoint 5 9 0; mkPoint 9 5 0])
      (grid10 254, empty_bounds)
  /\ mark_observation 2 (grid10 254, empty_bounds) obs_two_points
     = mark_observation 2 (grid10 254, empty_bounds)
         (with_cloud obs_two_points [mkPoint 5 9 0; mkPoint 9 5 0]).
Proof.
  apply X9_order_of_points. apply perm_swap.
Defined.

(** ** Running the loops again *)

Lemma effects_geometry g g' h observations :
  same_geometry g g' ->
  traced_indices g observations = traced_indices g' observations
  /\ traced_points g observations = traced_points g' observations
  /\ marked_indices g h observations = marked_indices g' h observations
  /\ marked_points g h observations = marked_points g' h observations.
Proof.
  intros Hg. unfold traced_indices, traced_points, marked_indices, marked_points.
  repeat split; apply list_bind_ext; try reflexivity; intros obs.
  - rewrite (worldToMap_geometry g g' _ _ Hg).
    destruct (worldToMap g' _ _) as [[x0 y0]|]; [| reflexivity].
    apply list_bind_ext; [| reflexivity]. intros p.
    rewrite (ray_effect_geometry g g' obs x0 y0 p Hg). reflexivity.
  - rewrite (worldToMap_geometry g g' _ _ Hg).
    destruct (worldToMap g' _ _) as [[x0 y0]|]; [| reflexivity].
    f_equal. apply list_omap_ext, Forall2_same_length_lookup.
    split; [reflexivity |]. intros i p p' Hp Hp'.
    assert (p = p') by congruence. subst p'.
    rewrite (ray_effect_geometry g g' obs x0 y0 p Hg). reflexivity.
  - apply list_omap_ext, Forall2_same_length_lookup.
    split; [reflexivity |]. intros i p p' Hp Hp'.
    assert (p = p') by congruence. subst p'.
    rewrite (mark_effect_geometry g g' h obs p Hg). reflexivity.
  - apply list_omap_ext, Forall2_same_length_lookup.
    split; [reflexivity |]. intros i p p' Hp Hp'.
    assert (p = p') by congruence. subst p'.
    rewrite (mark_effect_geometry g g' h obs p Hg). reflexivity.
Qed.

Lemma touch_of_inside x y b : inside x y b -> touch x y b = b.
Proof.
  destruct b as [mnx mny mxx mxy]; unfold inside, touch; simpl.
  intros [[? ?] [? ?]].
  rewrite !Rmin_right, !Rmax_right by assumption. reflexivity.
Qed.

Lemma touch_all_of_inside points : forall b,
  (forall p, p ∈ points -> inside p.1 p.2 b) -> touch_all b points = b.
Proof.
  unfold touch_all. induction points as [|p points IH]; intros b Hin; simpl;
    [reflexivity |].
  rewrite (touch_of_inside p.1 p.2 b) by (apply Hin; left).
  apply IH. intros q Hq. apply Hin. right; exact Hq.
Qed.

Lemma touch_all_twice b points :
  touch_all (touch_all b points) points = touch_all b points.
Proof.
  apply touch_all_of_inside. intros p Hp. apply foldl_touch_inside, Hp.
Qed.

(** X10.  Running the raytracing loop and the marking loop a second time on
    their own result, with the same observations, changes neither the grid
    nor the bounds. *)
Theorem X10_loops_are_idempotent (h : R)
    (clearing_observations observations : list Observation)
    (s : Costmap2D * Bounds) :
  clear_then_mark h clearing_observations observations
    (clear_then_mark h clearing_observations observations s)
  = clear_then_mark h clearing_observations observations s.
Proof.
  rewrite (clear_then_mark_writes h _ _ (clear_then_mark _ _ _ s)).
  assert (Hg : same_geometry s.1 (clear_then_mark h clearing_observations observations s).1).
  { unfold clear_then_mark. eapply same_geometry_trans;
      [apply (clearing_geometry clearing_observations s) |
       apply mark_observations_geometry]. }
  destruct (effects_geometry _ _ h clearing_observations Hg) as (<- & <- & _ & _).
  destruct (effects_geometry _ _ h observations Hg) as (_ & _ & <- & <-).
  rewrite (clear_then_mark_writes h _ _ s). cbn [fst snd costmap_ with_costmap].
  f_equal.
  - f_equal. apply cells_eq; intros k. rewrite !write_all_cell.
    destruct (cell_at (costmap_ s.1) k); [| reflexivity].
    destruct (decide (k ∈ marked_indices s.1 h observations)),
             (decide (k ∈ traced_indices s.1 clearing_observations)); reflexivity.
  - apply touch_all_twice.
Qed.

(** ** The bounds stay on the map *)

(** Decides an order between reals written with [Rmin] and [Rmax]. *)
Ltac minmax :=
  unfold Rmin, Rmax in *;
  repeat match goal with
  | |- context [Rle_dec ?a ?b] => destruct (Rle_dec a b)
  | H : context [Rle_dec ?a ?b] |- _ => destruct (Rle_dec a b)
  end;
  lra.

Lemma touch_all_in_map g points : forall b,
  (forall p, p ∈ points -> in_map g p) -> grown_within_map g b (touch_all b points).
Proof.
  unfold touch_all.
  induction points as [|p points IH]; intros b Hin; simpl.
  - unfold grown_within_map.
    pose proof (Rmin_l (min_x b) (origin_x_ g)). pose proof (Rmin_l (min_y b) (origin_y_ g)).
    pose proof (Rmax_l (max_x b) (map_end_x g)). pose proof (Rmax_l (max_y b) (map_end_y g)).
    lra.
  - assert (Hp : in_map g p) by (apply Hin; left).
    assert (Hrest : forall q, q ∈ points -> in_map g q) by (intros q Hq; apply Hin; right; exact Hq).
    specialize (IH (touch p.1 p.2 b) Hrest).
    destruct Hp as [[Hx0 Hx1] [Hy0 Hy1]].
    unfold grown_within_map in *.
    set (bf := foldl _ (touch p.1 p.2 b) points) in *. clearbody bf.
    unfold touch in IH. cbn [min_x min_y max_x max_y] in IH.
    destruct IH as ([Ha Hb] & [Hc Hd] & [He Hf] & [Hg Hh]).
    repeat split; minmax.
Qed.

Lemma marked_points_in_map g h observations p :
  0 < resolution_ g -> p ∈ marked_points g h observations -> in_map g p.
Proof.
  intros Hres Hp. unfold marked_points in Hp.
  apply list_elem_of_bind in Hp as (obs & Hp & _).
  apply list_elem_of_omap in Hp as (pt & _ & He). unfold mark_effect in He.
  destruct (Rltb _ _); [discriminate |]. destruct (Rleb _ _); [discriminate |].
  destruct (worldToMap g (px pt) (py pt)) as [[mx my]|] eqn:Hw; [| discriminate].
  injection He as <-.
  destruct (worldToMap_origin_in_map g _ _ _ _ Hres Hw). unfold in_map; simpl. lra.
Qed.

Lemma traced_points_in_map g observations p :
  0 < resolution_ g ->
  (forall obs, obs ∈ observations -> 0 <= raytrace_range_ obs) ->
  p ∈ traced_points g observations -> in_map g p.
Proof.
  intros Hres Hrange Hp. unfold traced_points in Hp.
  apply list_elem_of_bind in Hp as (obs & Hp & Hobs).
  destruct (worldToMap g (px (origin_ obs)) (py (origin_ obs))) as [[x0 y0]|] eqn:Ho;
    [| inversion Hp].
  destruct (worldToMap_origin_in_map g _ _ _ _ Hres Ho) as [Hox Hoy].
  apply elem_of_cons in Hp as [-> | Hp]; [unfold in_map; simpl; lra |].
  apply list_elem_of_omap in Hp as (pt & _ & He). unfold ray_effect in He.
  destruct (clip_ray _ _ _ _ _ _ _ _) as [[wx wy]|]; [| discriminate].
  destruct (worldToMap g wx wy) as [[x1 y1]|] eqn:Hw; [| discriminate].
  injection He as <-.
  destruct (worldToMap_origin_in_map g _ _ _ _ Hres Hw) as [Hwx Hwy].
  destruct (raytrace_endpoint_between (px (origin_ obs)) (py (origin_ obs)) wx wy
              (raytrace_range_ obs) (Hrange obs Hobs)) as (t & Ht & ->).
  unfold in_map; simpl. split; split; nra.
Qed.

(** X11.  With non-negative raytrace ranges, the raytracing loop and the
    marking loop touch points of the map only: the bounds they return
    contain the bounds they were given and reach no farther than those and
    the rectangle of the map. *)
Theorem X11_bounds_stay_on_the_map (h : R)
    (clearing_observations observations : list Observation)
    (s : Costmap2D * Bounds) :
  0 < resolution_ s.1 ->
  (forall obs, obs ∈ clearing_observations -> 0 <= raytrace_range_ obs) ->
  grown_within_map s.1 s.2
    (clear_then_mark h clearing_observations observations s).2.
Proof.
  intros Hres Hrange. rewrite clear_then_mark_writes; cbn [snd].
  apply touch_all_in_map. intros p Hp.
  apply elem_of_app in Hp as [Hp | Hp].
  - apply (traced_points_in_map _ clearing_observations); assumption.
  - apply (marked_points_in_map _ h observations); assumption.
Qed.

(** X11 on [grid10]: a hit point at (20, 5), beyond the end of the map. *)
Lemma X11_witness :
  grown_within_map (grid10 254) empty_bounds
    (clear_then_mark 2 [obs_at_5_5 (mkPoint 20 5 0)] [obs_at_5_5 (mkPoint 7 5 0)]
       (grid10 254, empty_bounds)).2.
Proof.
  apply (X11_bounds_stay_on_the_map 2 [obs_at_5_5 (mkPoint 20 5 0)]
           [obs_at_5_5 (mkPoint 7 5 0)] (grid10 254, empty_bounds)).
  - simpl; lra.
  - intros obs Hobs. apply list_elem_of_singleton in Hobs as ->. simpl; lra.
Defined.

(** ** The filter of infinities of a laser scan *)

Lemma inf_test range :
  negb (isfinite range) && positive range = true <-> range = PosInf.
Proof.
  destruct range; simpl; split; intros Hr; try reflexivity; try discriminate.
Qed.

(** The scan after the first [k] indices of the loop. *)
Lemma filter_inf_loop epsilon message : forall k,
  let m := foldl (filter_inf_step epsilon) message (seq 0 k) in
  range_max m = range_max message
  /\ forall i,
       ranges m !! i
       = if decide (i < k)%nat
         then (fun range => match range with
                            | PosInf => fminus (range_max message) epsilon
                            | _ => range
                            end) <$> ranges message !! i
         else ranges message !! i.
Proof.
  induction k as [|k [IHmax IHr]]; cbv zeta.
  - split; [reflexivity |]. intros i.
    destruct (decide (i < 0)%nat); [lia | reflexivity].
  - rewrite seq_S, foldl_app; simpl.
    set (m := foldl (filter_inf_step epsilon) message (seq 0 k)) in *.
    unfold filter_inf_step.
    pose proof (IHr k) as Hk. destruct (decide (k < k)%nat); [lia |].
    rewrite Hk.
    destruct (ranges message !! k) as [range|] eqn:Hrange.
    + destruct (negb (isfinite range) && positive range) eqn:Htest.
      * apply inf_test in Htest; subst range. cbn [range_max ranges].
        split; [exact IHmax |]. intros i.
        destruct (Nat.eq_dec i k) as [-> | Hne].
        -- rewrite list_lookup_insert_eq
             by (apply lookup_lt_is_Some; rewrite Hk; eauto).
           destruct (decide (k < S k)%nat); [| lia].
           rewrite Hrange, IHmax. reflexivity.
        -- rewrite list_lookup_insert_ne by congruence. rewrite IHr.
           destruct (decide (i < k)%nat), (decide (i < S k)%nat);
             try reflexivity; lia.
      * split; [exact IHmax |]. intros i. rewrite IHr.
        destruct (decide (i < k)%nat), (decide (i < S k)%nat); try reflexivity; try lia.
        assert (i = k) by lia; subst i. rewrite Hrange. simpl.
        destruct range; try reflexivity. discriminate.
    + split; [exact IHmax |]. intros i. rewrite IHr.
      destruct (decide (i < k)%nat), (decide (i < S k)%nat); try reflexivity; try lia.
      assert (i = k) by lia; subst i. rewrite Hrange. reflexivity.
Qed.

(** The loop replaces the positive infinities and nothing else. *)
Lemma filter_inf_eq raw_message :
  filter_inf raw_message
  = mkScan (replace_inf raw_message <$> ranges raw_message) (range_max raw_message).
Proof.
  unfold filter_inf.
  destruct (filter_inf_loop (1 / 10000) raw_message (length (ranges raw_message)))
    as [Hmax Hr].
  destruct (foldl _ _ _) as [rs rmax]; cbn [ranges range_max] in *. f_equal;
    [| exact Hmax].
  apply list_eq; intros i. rewrite Hr, list_lookup_fmap.
  destruct (decide (i < length (ranges raw_message))%nat) as [Hlt | Hge];
    [reflexivity |].
  rewrite (lookup_ge_None_2 (ranges raw_message) i) by lia. reflexivity.
Qed.

(** X12.  The filter of [laserScanValidInfCallback] keeps the number of
    ranges and the maximum range, replaces each positive infinity by the
    maximum range less epsilon, and leaves every other range, also a
    negative infinity or a NaN, as it is.  When the maximum range is not
    itself a positive infinity no positive infinity is left, and filtering
    a second time changes nothing. *)
Theorem X12_filter_of_infinities (raw_message : LaserScan) :
  length (ranges (filter_inf raw_message)) = length (ranges raw_message)
  /\ range_max (filter_inf raw_message) = range_max raw_message
  /\ (forall i range,
        ranges raw_message !! i = Some range ->
        ranges (filter_inf raw_message) !! i
        = Some (match range with
                | PosInf => fminus (range_max raw_message) (1 / 10000)
                | _ => range
                end))
  /\ (range_max raw_message <> PosInf -> PosInf ∉ ranges (filter_inf raw_message))
  /\ filter_inf (filter_inf raw_message) = filter_inf raw_message.
Proof.
  rewrite !filter_inf_eq; cbn [ranges range_max].
  split; [apply length_fmap |]. split; [reflexivity |]. split; [| split].
  - intros i range Hi. rewrite list_lookup_fmap, Hi. reflexivity.
  - intros Hmax Hin. apply list_elem_of_fmap in Hin as (range & Heq & _).
    destruct range; try discriminate.
    unfold replace_inf, fminus in Heq.
    destruct (range_max raw_message); try discriminate. contradiction.
  - f_equal. rewrite <- list_fmap_compose. apply list_fmap_ext.
    intros i range _. unfold compose, replace_inf; cbn [range_max].
    destruct range; try reflexivity.
    destruct (range_max raw_message); reflexivity.
Qed.

(** X12 on [sample_scan], whose maximum range is 30. *)
Lemma X12_witness :
  ranges (filter_inf sample_scan) !! 1%nat = Some (Finite (30 - 1 / 10000))
  /\ PosInf ∉ ranges (filter_inf sample_scan).
Proof.
  destruct (X12_filter_of_infinities sample_scan) as (_ & _ & Hr & Hinf & _).
  split.
  - apply (Hr 1%nat PosInf). reflexivity.
  - apply Hinf. discriminate.
Defined.

(** X13.  On a scan that holds no positive infinity the two laser callbacks
    do the same: the filter leaves the scan as it is, and
    [laserScanValidInfCallback] buffers the cloud that [laserScanCallback]
    buffers, with or without a transform exception. *)
Theorem X13_callbacks_agree_without_infinity `{ScanOps}
    (raw_message : LaserScan) (buffer : Buffer) :
  PosInf ∉ ranges raw_message ->
  filter_inf raw_message = raw_message
  /\ laserScanValidInfCallback raw_message buffer = laserScanCallback raw_message buffer.
Proof.
  intros Hinf.
  assert (Hid : filter_inf raw_message = raw_message).
  { rewrite filter_inf_eq. destruct raw_message as [rs rmax]; cbn [ranges range_max] in *.
    f_equal. etransitivity; [| apply list_fmap_id]. apply list_fmap_ext.
    intros i range Hi. destruct range; try reflexivity.
    exfalso. apply Hinf. apply list_elem_of_lookup. eauto. }
  split; [exact Hid |].
  unfold laserScanValidInfCallback, laserScanCallback. rewrite Hid. reflexivity.
Qed.

(** X13 on a scan of three ranges, one of them a NaN. *)
Lemma X13_witness :
  @laserScanValidInfCallback sample_scan_ops
    (mkScan [Finite 1; NaN; Finite 2] (Finite 30)) []
  = @laserScanCallback sample_scan_ops
      (mkScan [Finite 1; NaN; Finite 2] (Finite 30)) [].
Proof.
  apply (@X13_callbacks_agree_without_infinity sample_scan_ops
           (mkScan [Finite 1; NaN; Finite 2] (Finite 30)) []).
  simpl. intros Hin.
  repeat (apply elem_of_cons in Hin as [Hin | Hin]; [discriminate |]).
  inversion Hin.
Defined.

(** ** Initialization *)

Lemma init_source_None o tol L source :
  Init.init_source o tol L source = None <-> ~ Init.supported o source.
Proof.
  unfold Init.init_source, Init.supported.
  destruct (bool_decide (Init.source_data_type o source = "PointCloud2")) eqn:Hp;
    destruct (bool_decide (Init.source_data_type o source = "LaserScan")) eqn:Hl;
    simpl; try apply bool_decide_eq_true in Hp; try apply bool_decide_eq_true in Hl;
    try apply bool_decide_eq_false in Hp; try apply bool_decide_eq_false in Hl;
    split; intros H; try discriminate; try reflexivity; tauto.
Qed.

Lemma init_sources_None o tol sources : forall L,
  Init.init_sources o tol L sources = None
  <-> exists source, source ∈ sources /\ ~ Init.supported o source.
Proof.
  induction sources as [|source sources IH]; intros L; simpl.
  - split; [discriminate |]. intros (source & Hin & _). inversion Hin.
  - destruct (Init.init_source o tol L source) as [L1|] eqn:E.
    + rewrite IH. split.
      * intros (src & Hin & Hs). exists src. split; [right; exact Hin | exact Hs].
      * intros (src & Hin & Hs). apply elem_of_cons in Hin as [-> | Hin].
        -- exfalso. apply (init_source_None o tol L source) in Hs. congruence.
        -- exists src. split; assumption.
    + split; [| reflexivity]. intros _. exists source.
      split; [left | apply (init_source_None o tol L source), E].
Qed.

(** X14.  [onInitialize] throws when one of the observation sources is
    declared with a data type other than PointCloud2 and LaserScan, the
    default of a source that is given none being LaserScan: the loop over
    the sources does not get past such a source. *)
Theorem X14_onInitialize_throws_on_unsupported_type (o : Init.Overrides)
    (track_unknown_space : bool) (tolerance_of_transforms : R)
    (sources : list string) (is_rolling : bool) (global_frame : string)
    (source : string) :
  source ∈ sources ->
  Init.source_data_type o source <> "PointCloud2" ->
  Init.source_data_type o source <> "LaserScan" ->
  Init.onInitialize o track_unknown_space tolerance_of_transforms sources
    is_rolling global_frame = None.
Proof.
  intros Hin Hp Hl. unfold Init.onInitialize. apply init_sources_None.
  exists source. split; [exact Hin |]. unfold Init.supported. tauto.
Qed.

(** X14 on [Init.sample_overrides]: the source sonar has the data type
    Range. *)
Lemma X14_witness :
  Init.onInitialize Init.sample_overrides true (3 / 10) ["cloud"; "sonar"] false "map"
  = None.
Proof.
  apply (X14_onInitialize_throws_on_unsupported_type _ _ _ _ _ _ "sonar").
  - right; left.
  - discriminate.
  - discriminate.
Defined.

Lemma flagged_elem flag sources k : forall n,
  k ∈ Init.flagged flag n sources
  <-> exists j source, sources !! j = Some source /\ flag source = true /\ k = (n + j)%nat.
Proof.
  induction sources as [|source sources IH]; intros n; simpl.
  - split; [intros Hin; inversion Hin | intros (j & src & Hj & _); discriminate].
  - rewrite elem_of_app, IH. split.
    + intros [Hin | (j & src & Hj & Hf & ->)].
      * destruct (flag source) eqn:Hf; [| inversion Hin].
        apply list_elem_of_singleton in Hin as ->.
        exists 0%nat, source. split; [reflexivity |]. split; [exact Hf | lia].
      * exists (S j), src. split; [exact Hj |]. split; [exact Hf | lia].
    + intros ([|j] & src & Hj & Hf & ->); simpl in Hj.
      * injection Hj as ->. left. rewrite Hf. apply list_elem_of_singleton. lia.
      * right. exists j, src. split; [exact Hj |]. split; [exact Hf | lia].
Qed.

Lemma notifiers_from_lookup o gf sources j : forall n,
  Init.notifiers_from o gf n sources !! j
  = Init.source_notifier o gf (n + j) <$> sources !! j.
Proof.
  revert j. induction sources as [|source sources IH]; intros j n; simpl.
  - destruct j; reflexivity.
  - destruct j as [|j]; simpl.
    + rewrite Nat.add_0_r. reflexivity.
    + rewrite IH. replace (S n + j)%nat with (n + S j)%nat by lia. reflexivity.
Qed.

Lemma notifiers_from_length o gf sources : forall n,
  length (Init.notifiers_from o gf n sources) = length sources.
Proof. induction sources as [|source sources IH]; intros n; simpl; [| rewrite IH]; reflexivity. Qed.

(** What the loop over the sources adds to a layer. *)
Lemma init_sources_Some o tol sources : forall L L',
  Init.init_sources o tol L sources = Some L' ->
  Init.observation_buffers_ L'
  = Init.observation_buffers_ L
    ++ (Init.source_buffer o tol (Init.global_frame_ L) <$> sources)
  /\ Init.observation_subscribers_ L'
     = Init.observation_subscribers_ L ++ (Init.source_subscriber o <$> sources)
  /\ Init.observation_notifiers_ L'
     = Init.observation_notifiers_ L
       ++ Init.notifiers_from o (Init.global_frame_ L)
            (length (Init.observation_buffers_ L)) sources
  /\ Init.marking_buffers_ L'
     = Init.marking_buffers_ L
       ++ Init.flagged (Init.source_marking o) (length (Init.observation_buffers_ L)) sources
  /\ Init.clearing_buffers_ L'
     = Init.clearing_buffers_ L
       ++ Init.flagged (Init.source_clearing o) (length (Init.observation_buffers_ L)) sources
  /\ (Init.enabled_ L', Init.footprint_clearing_enabled_ L', Init.max_obstacle_height_ L',
      Init.combination_method_ L', Init.rolling_window_ L', Init.default_value_ L',
      Init.current_ L', Init.global_frame_ L')
     = (Init.enabled_ L, Init.footprint_clearing_enabled_ L, Init.max_obstacle_height_ L,
        Init.combination_method_ L, Init.rolling_window_ L, Init.default_value_ L,
        Init.current_ L, Init.global_frame_ L).
Proof.
  induction sources as [|source sources IH]; intros L L' Hinit; simpl in Hinit.
  - injection Hinit as <-. simpl. rewrite !app_nil_r. repeat split.
  - destruct (Init.init_source o tol L source) as [L1|] eqn:E; [| discriminate].
    apply IH in Hinit as (Hb & Hs & Hn & Hm & Hc & Hf).
    unfold Init.init_source in E.
    destruct (negb _); [discriminate |]. injection E as <-.
    cbn [Init.observation_buffers_ Init.observation_subscribers_
         Init.observation_notifiers_ Init.marking_buffers_ Init.clearing_buffers_
         Init.global_frame_ Init.enabled_ Init.footprint_clearing_enabled_
         Init.max_obstacle_height_ Init.combination_method_ Init.rolling_window_
         Init.default_value_ Init.current_] in *.
    rewrite length_app in *; cbn [length] in *.
    replace (length (Init.observation_buffers_ L) + 1 - 1)%nat
      with (length (Init.observation_buffers_ L)) in * by lia.
    replace (length (Init.observation_buffers_ L) + 1)%nat
      with (S (length (Init.observation_buffers_ L))) in * by lia.
    rewrite Hb, Hs, Hn, Hm, Hc, Hf. simpl.
    rewrite <- !app_assoc. simpl.
    destruct (Init.source_marking o source), (Init.source_clearing o source);
      rewrite <- ?app_assoc; repeat split.
Qed.

(** X15.  When [onInitialize] returns, every observation source has, at its
    own position, a buffer built from its parameters, a subscriber, and a
    message filter whose callback is bound to that buffer: the laser
    callback that filters infinities exactly for a laser scan with
    inf_is_valid, the point cloud callback for a point cloud whatever
    inf_is_valid says, and target frames exactly when a sensor frame is
    given.  The marking buffers are the buffers of the sources declared
    marking and the clearing buffers those of the sources declared clearing,
    all of them buffers of [observation_buffers_]; the layer is current, and
    its default value is NO_INFORMATION when unknown space is tracked and
    FREE_SPACE otherwise. *)
Theorem X15_onInitialize_registers_sources (o : Init.Overrides)
    (track_unknown_space : bool) (tolerance_of_transforms : R)
    (sources : list string) (is_rolling : bool) (global_frame : string)
    (L : Init.Layer) :
  Init.onInitialize o track_unknown_space tolerance_of_transforms sources
    is_rolling global_frame = Some L ->
  (length (Init.observation_buffers_ L) = length sources
   /\ length (Init.observation_subscribers_ L) = length sources
   /\ length (Init.observation_notifiers_ L) = length sources)
  /\ (forall i source,
        sources !! i = Some source ->
        Init.observation_buffers_ L !! i
        = Some (Init.source_buffer o tolerance_of_transforms global_frame source)
        /\ Init.observation_subscribers_ L !! i = Some (Init.source_subscriber o source)
        /\ (exists filter,
              Init.observation_notifiers_ L !! i = Some filter
              /\ Init.bound_buffer filter = i
              /\ (Init.callback filter = Init.LaserScanValidInfCallback
                  <-> Init.source_data_type o source = "LaserScan"
                      /\ Init.source_inf_is_valid o source = true)
              /\ (Init.callback filter = Init.PointCloud2Callback
                  <-> Init.source_data_type o source <> "LaserScan")
              /\ (Init.target_frames filter = None
                  <-> Init.source_sensor_frame o source = EmptyString))
        /\ (i ∈ Init.marking_buffers_ L <-> Init.source_marking o source = true)
        /\ (i ∈ Init.clearing_buffers_ L <-> Init.source_clearing o source = true))
  /\ (forall i,
        i ∈ Init.marking_buffers_ L \/ i ∈ Init.clearing_buffers_ L ->
        (i < length (Init.observation_buffers_ L))%nat)
  /\ Init.current_ L = true
  /\ Init.default_value_ L
     = (if track_unknown_space then NO_INFORMATION else FREE_SPACE).
Proof.
  unfold Init.onInitialize. intros Hinit.
  apply init_sources_Some in Hinit as (Hb & Hs & Hn & Hm & Hc & Hf).
  cbn [Init.observation_buffers_ Init.observation_subscribers_
       Init.observation_notifiers_ Init.marking_buffers_ Init.clearing_buffers_
       Init.global_frame_ Init.enabled_ Init.footprint_clearing_enabled_
       Init.max_obstacle_height_ Init.combination_method_ Init.rolling_window_
       Init.default_value_ Init.current_ length app] in *.
  injection Hf as _ _ _ _ _ Hdefault Hcurrent _.
  rewrite Hb, Hs, Hn, Hm, Hc.
  split; [| split; [| split; [| split]]].
  - rewrite !length_fmap, notifiers_from_length. repeat split.
  - intros i source Hi.
    split; [rewrite list_lookup_fmap, Hi; reflexivity |].
    split; [rewrite list_lookup_fmap, Hi; reflexivity |].
    split; [| split].
    + exists (Init.source_notifier o global_frame i source).
      split; [rewrite notifiers_from_lookup, Hi; reflexivity |].
      unfold Init.source_notifier.
      destruct (bool_decide (Init.source_data_type o source = "LaserScan")) eqn:Hl;
        [apply bool_decide_eq_true in Hl | apply bool_decide_eq_false in Hl];
        destruct (bool_decide (Init.source_sensor_frame o source = EmptyString)) eqn:Hsf;
        [apply bool_decide_eq_true in Hsf | apply bool_decide_eq_false in Hsf
         | apply bool_decide_eq_true in Hsf | apply bool_decide_eq_false in Hsf];
        destruct (Init.source_inf_is_valid o source) eqn:Hinf;
        cbn [negb Init.callback Init.bound_buffer Init.target_frames Init.tolerance];
        (split; [reflexivity |]);
        (split; [split; [intros Hcb; try discriminate; split; try reflexivity; assumption
                        | intros [? ?]; try reflexivity; try congruence] |]);
        (split; [split; [intros Hcb; try discriminate; assumption
                        | intros ?; try reflexivity; try contradiction] |]);
        (split; [intros Ht; try discriminate; assumption
                | intros ?; try reflexivity; try contradiction]).
    + rewrite flagged_elem. split.
      * intros (j & src & Hj & Hflag & Heq). simpl in Heq; subst j. congruence.
      * intros Hflag. exists i, source. auto.
    + rewrite flagged_elem. split.
      * intros (j & src & Hj & Hflag & Heq). simpl in Heq; subst j. congruence.
      * intros Hflag. exists i, source. auto.
  - rewrite length_fmap. intros i [Hin | Hin]; apply flagged_elem in Hin
      as (j & src & Hj & _ & ->); apply lookup_lt_Some in Hj; simpl; exact Hj.
  - exact Hcurrent.
  - exact Hdefault.
Qed.

(** X15 on [Init.sample_overrides] with the sources cloud and scan: two
    buffers; scan, which is given no parameter, is a marking buffer and not
    a clearing one. *)
Lemma X15_witness :
  exists L,
    Init.onInitialize Init.sample_overrides true (3 / 10) ["cloud"; "scan"] false "map"
    = Some L
    /\ length (Init.observation_buffers_ L) = 2%nat
    /\ 1%nat ∈ Init.marking_buffers_ L
    /\ 1%nat ∉ Init.clearing_buffers_ L.
Proof.
  assert (Hsome : exists L,
             Init.onInitialize Init.sample_overrides true (3 / 10) ["cloud"; "scan"]
               false "map" = Some L) by (eexists; reflexivity).
  destruct Hsome as [L HL]. exists L. split; [exact HL |].
  destruct (X15_onInitialize_registers_sources _ _ _ _ _ _ L HL)
    as ((Hlen & _) & Hsrc & _).
  split; [exact Hlen |].
  destruct (Hsrc 1%nat "scan" eq_refl) as (_ & _ & _ & Hm & Hc).
  split; [apply Hm; reflexivity |].
  intros Hin. apply Hc in Hin. discriminate.
Defined.

(** ** A hit point at the sensor origin *)

Lemma line_cells_single x0 y0 n : line_cells x0 y0 x0 y0 n = [(x0, y0)].
Proof.
  unfold line_cells. rewrite !Z.sub_diag. simpl.
  replace (Z.to_nat (Z.min n (Z.abs 0))) with 0%nat by (simpl; lia). reflexivity.
Qed.

(** X16.  A hit point at the origin of the sensor, for which
    [updateRaytraceBounds] divides the range by a distance of zero, is
    harmless when the range is not negative (the scale is then 1 in the
    source; for a negative range the source multiplies zero by an
    infinity): the ray writes FREE_SPACE in the cell of the origin and in
    no other cell, and touches the origin. *)
Theorem X16_hit_point_at_the_origin (obs : Observation) (s : Costmap2D * Bounds)
    (x0 y0 : Z) (hz : R) :
  0 < resolution_ s.1 ->
  0 <= raytrace_range_ obs ->
  worldToMap s.1 (px (origin_ obs)) (py (origin_ obs)) = Some (x0, y0) ->
  raytrace_point (px (origin_ obs)) (py (origin_ obs)) x0 y0
    (origin_x_ s.1) (origin_y_ s.1) (map_end_x s.1) (map_end_y s.1)
    (raytrace_range_ obs) s (mkPoint (px (origin_ obs)) (py (origin_ obs)) hz)
  = (with_costmap s.1 (set_cell (costmap_ s.1) (getIndex s.1 x0 y0) FREE_SPACE),
     touch (px (origin_ obs)) (py (origin_ obs)) s.2).
Proof.
  intros Hres Hrange Ho.
  destruct (worldToMap_origin_in_map s.1 _ _ _ _ Hres Ho) as [Hox Hoy].
  rewrite (raytrace_point_traced _ _ _ _ _ _ _ _ _ _ _
             (px (origin_ obs)) (py (origin_ obs)) x0 y0).
  - unfold raytraceLine. rewrite line_cells_single. cbn [foldl fst snd].
    f_equal. unfold updateRaytraceBounds. f_equal; ring.
  - cbn [px py]. apply clip_ray_inside; lra.
  - exact Ho.
Qed.

(** X16 on [grid10]: a hit point at the sensor, (5, 5). *)
Lemma X16_witness :
  raytrace_point 5 5 5 5 0 0 (map_end_x (grid10 254)) (map_end_y (grid10 254)) 100
    (grid10 254, empty_bounds) (mkPoint 5 5 1)
  = (with_costmap (grid10 254) (set_cell (costmap_ (grid10 254)) 55 FREE_SPACE),
     touch 5 5 empty_bounds).
Proof.
  apply (X16_hit_point_at_the_origin (obs_at_5_5 (mkPoint 5 5 1))
           (grid10 254, empty_bounds) 5 5 1).
  - simpl; lra.
  - simpl; lra.
  - apply grid10_cell; simpl; try lia; lra.
Defined.
